(** * DataHandler: matrix encoding, decoding and change validation

    A shallow embedding of
    [src/humancompatible/detect/data_handler/DataHandler.py].

    Conventions of the embedding.
    - Python exceptions are values of [exn]; a computation that may raise
      has type [result A].
    - Every call of a method of a [Feature] is recorded in a call log, so a
      method of the handler has type [M A]: the log of the Feature methods it
      invoked, in order, together with its outcome.
    - numpy arrays are a shape and the cells in row-major order.
    - The cells of an encoded array are integers: the handler moves them
      and never computes with them, rounding is outside the model and
      [astype(np.float64)] keeps every cell. The single encoded values that
      [allowed_changes] compares are numbers or the float NaN, on which
      [>] and [<=] are both false. *)

From Stdlib Require Import ZArith Lia.
From stdpp Require Import base list strings gmap.


(** ** Exceptions, results and the call log *)

Inductive exn : Type :=
| IndexError
| ValueError (msg : string)
| TypeError
| AttributeError
| RecursionError.

Inductive result (A : Type) : Type :=
| Ok (a : A)
| Raise (e : exn).
Arguments Ok {A} a.
Arguments Raise {A} e.

#[global] Instance result_ret : MRet result := fun _ a => Ok a.
#[global] Instance result_bind : MBind result := fun _ _ k r =>
  match r with
  | Ok a => k a
  | Raise e => Raise e
  end.
#[global] Instance result_fmap : FMap result := fun _ _ g r =>
  match r with
  | Ok a => Ok (g a)
  | Raise e => Raise e
  end.

Definition is_ok {A} (r : result A) : bool :=
  match r with Ok _ => true | Raise _ => false end.

(** The methods of a Feature that the handler calls; the number is the
    identity of the Feature object that received the call. *)
Inductive call : Type :=
| CallEncode (fid : nat)
| CallDecode (fid : nat)
| CallEncodingWidth (fid : nat)
| CallAllowedChange (fid : nat)
| CallGreaterThan (fid : nat).

Definition M (A : Type) : Type := (list call * result A)%type.

#[global] Instance M_ret : MRet M := fun _ a => ([], Ok a).
#[global] Instance M_bind : MBind M := fun _ _ k m =>
  match m with
  | (t, Ok a) => let '(t', r) := k a in (t ++ t', r)
  | (t, Raise e) => (t, Raise e)
  end.

Definition lift {A} (r : result A) : M A := ([], r).
Definition raise {A} (e : exn) : M A := ([], Raise e).
(** [invoke c v]: the Feature method call [c] returned [v]. *)
Definition invoke {A} (c : call) (v : A) : M A := ([c], Ok v).

Definition calls {A} (m : M A) : list call := fst m.
Definition outcome {A} (m : M A) : result A := snd m.

(** ** Raw cells *)

(** A cell of a raw table: a number or a label. *)
Inductive value : Type :=
| VInt (z : Z)
| VStr (s : string).

(** An encoded cell. *)
Definition num : Type := Z.

(** An encoded value that [allowed_changes] compares: a number, or the
    float NaN. *)
Inductive scalar : Type :=
| Number (x : num)
| NaN.

#[global] Instance scalar_eq_dec : EqDecision scalar.
Proof. solve_decision. Defined.

(** Python's [a > b] and [a <= b] on two encoded values: a comparison
    with NaN is false. *)
Definition scalar_gt (a b : scalar) : bool :=
  match a, b with
  | Number x, Number y => bool_decide (x > y)%Z
  | _, _ => false
  end.

Definition scalar_le (a b : scalar) : bool :=
  match a, b with
  | Number x, Number y => bool_decide (x ≤ y)%Z
  | _, _ => false
  end.

(** Python's [a > b] on two raw cells. *)
Definition value_gt (a b : value) : result bool :=
  match a, b with
  | VInt x, VInt y => Ok (y <? x)%Z
  | VStr s, VStr t => Ok (String.ltb t s)
  | _, _ => Raise TypeError
  end.

(** [l[i]] on a Python sequence, for an index that is not negative. *)
Definition getitem {A} (l : list A) (i : nat) : result A :=
  match l !! i with
  | Some x => Ok x
  | None => Raise IndexError
  end.

(** ** numpy arrays *)

Module np.

Record ndarray (A : Type) : Type := mk_ndarray {
  shape : list nat;
  flat : list A
}.
Arguments mk_ndarray {A} shape flat.
Arguments shape {A} n.
Arguments flat {A} n.

Definition prod (dims : list nat) : nat := foldr Nat.mul 1 dims.

(** [a.size] *)
Definition size {A} (a : ndarray A) : nat := prod (shape a).

Definition ndim {A} (a : ndarray A) : nat := length (shape a).

(** The cells are as many as the shape says. *)
Definition wf {A} (a : ndarray A) : Prop := length (flat a) = size a.

(** [a.shape[0]] *)
Definition shape0 {A} (a : ndarray A) : result nat := getitem (shape a) 0.

(** The first [cnt] consecutive blocks of [k] cells. *)
Definition chunks {A} (k cnt : nat) (l : list A) : list (list A) :=
  (fun r => take k (drop (r * k) l)) <$> seq 0 cnt.

(** [a.reshape(n, -1)]: the unknown dimension is the size divided by
    [n]; numpy refuses when [n] is zero or does not divide the size. *)
Definition reshape_rows {A} (n : nat) (a : ndarray A) : result (ndarray A) :=
  if (n =? 0) || negb (size a mod n =? 0)
  then Raise (ValueError "cannot reshape array"%string)
  else Ok (mk_ndarray [n; size a / n] (flat a)).

(** [a[:, i]] for an index that is not negative. *)
Definition getcol {A} (a : ndarray A) (i : nat) : result (ndarray A) :=
  match shape a with
  | n :: m :: rest =>
      if i <? m
      then Ok (mk_ndarray (n :: rest)
                 (concat ((fun row => take (prod rest) (drop (i * prod rest) row))
                            <$> chunks (m * prod rest) n (flat a))))
      else Raise IndexError
  | _ => Raise IndexError
  end.

(** [a[:, lo:hi]] for bounds that are not negative: a slice is clamped
    to the axis and never raises on a bound. *)
Definition slice_cols {A} (a : ndarray A) (lo hi : nat) : result (ndarray A) :=
  match shape a with
  | n :: m :: rest =>
      let lo' := lo `min` m in
      let hi' := hi `min` m in
      let w := hi' - lo' in
      Ok (mk_ndarray (n :: w :: rest)
            (concat ((fun row => take (w * prod rest) (drop (lo' * prod rest) row))
                       <$> chunks (m * prod rest) n (flat a))))
  | _ => Raise IndexError
  end.

(** [a[0]] *)
Definition getitem0 {A} (a : ndarray A) : result (ndarray A) :=
  match shape a with
  | n :: rest =>
      if n =? 0 then Raise IndexError
      else Ok (mk_ndarray rest (take (prod rest) (flat a)))
  | [] => Raise IndexError
  end.

(** The rows and the width of a two-dimensional array. *)
Definition rows2 {A} (a : ndarray A) : result (nat * nat * list (list A)) :=
  match shape a with
  | [n; m] => Ok (n, m, chunks m n (flat a))
  | _ => Raise (ValueError "all the input arrays must be two-dimensional"%string)
  end.

(** Row [r] of the concatenation is row [r] of every part, in order. *)
Definition join_rows {A} (n : nat) (parts : list (list (list A))) : list A :=
  concat ((fun r => concat ((fun rows => default [] (rows !! r)) <$> parts))
            <$> seq 0 n).

(** [np.concatenate(arrs, axis=1)] on two-dimensional arrays: every
    array the handler passes is the result of [reshape(n, -1)]. *)
Definition concatenate1 {A} (arrs : list (ndarray A)) : result (ndarray A) :=
  match arrs with
  | [] => Raise (ValueError "need at least one array to concatenate"%string)
  | a0 :: _ =>
      parts ← mapM rows2 arrs;
      '(n, _, _) ← rows2 a0;
      if forallb (fun p => fst (fst p) =? n) parts
      then Ok (mk_ndarray [n; sum_list ((fun p => snd (fst p)) <$> parts)]
                 (join_rows n (snd <$> parts)))
      else Raise (ValueError "all the input array dimensions except for the concatenation axis must match exactly"%string)
  end.

(** [np.empty(dims)] with a zero among [dims]: no cell. *)
Definition empty {A} (dims : list nat) : ndarray A := mk_ndarray dims [].

(** [a.astype(np.float64)] on an array of numbers. *)
Definition astype_float64 (a : ndarray num) : ndarray num := a.

End np.

(** ** pandas tables *)

(** A table with the default index [0 .. index-1]: labelled columns whose
    cells are present or missing. *)
Record DataFrame : Type := mk_DataFrame {
  df_index : nat;
  df_columns : list (string * list (option value))
}.

(** What the [decode] of a Feature or of the handler returns: a pandas
    object when a table was asked for, an array otherwise. *)
Inductive pyobj : Type :=
| Frame (df : DataFrame)
| Array (a : np.ndarray value).

Module pd.

(** [pd.DataFrame([], columns=names)] *)
Definition DataFrame_empty (names : list string) : DataFrame :=
  mk_DataFrame 0 ((fun c => (c, [])) <$> names).

Definition as_frame (o : pyobj) : result DataFrame :=
  match o with
  | Frame df => Ok df
  | Array _ => Raise TypeError
  end.

(** A column aligned on a longer index: the rows it lacks are missing. *)
Definition reindex (n : nat) (cells : list (option value)) : list (option value) :=
  cells ++ replicate (n - length cells) None.

(** [pd.concat(objs, axis=1)]: the columns side by side, on the union of
    the indexes. *)
Definition concat1 (objs : list pyobj) : result DataFrame :=
  match objs with
  | [] => Raise (ValueError "No objects to concatenate"%string)
  | _ =>
      frames ← mapM as_frame objs;
      let n := max_list (df_index <$> frames) in
      Ok (mk_DataFrame n
            (concat ((fun df => (fun c => (fst c, reindex n (snd c))) <$> df_columns df)
                       <$> frames)))
  end.

End pd.

(** ** Features *)

Inductive FeatureKind : Type := Binary | Categorical | Contiguous.

Module Feature.

(** Modelled from the spec: the module [features] of the repository is
    not among the sources, so a Feature is the capability set of section 6
    of the specification, one field per method, with the kind that
    [isinstance] tests, the object identity that [list.index] compares and
    the [modifiable] flag that [make_feature] receives. [encode] is the
    method applied to a column, [encode_value] the same method applied to
    a single cell, as [allowed_changes] does. The codes in the set that
    [greater_than] returns are found by equality. *)
Record t : Type := mk {
  fid : nat;
  kind : FeatureKind;
  name : string;
  modifiable : bool;
  encode : np.ndarray value → bool → bool → np.ndarray num;
  encode_value : value → bool → bool → scalar;
  decode : np.ndarray num → bool → bool → pyobj;
  encoding_width : bool → nat;
  allowed_change : value → value → bool;
  greater_than : scalar → list scalar
}.

End Feature.

(** ** The handler *)

Module DataHandler.

Record t : Type := mk {
  features : list Feature.t;
  target_feature : option Feature.t;
  causal_inc : list (Feature.t * Feature.t);
  greater_than : list (Feature.t * Feature.t)
}.

(** [__init__]: the arguments are stored as they come, a missing list of
    pairs as the empty list; nothing is checked. *)
Definition init (features : list Feature.t) (target : option Feature.t)
    (causal_inc greater_than : option (list (Feature.t * Feature.t))) : t :=
  mk features target (default [] causal_inc) (default [] greater_than).

Definition n_features (self : t) : nat := length (features self).

Definition feature_names (self : t) : list string :=
  Feature.name <$> features self.

(** [self.features.index(x)]: the first position holding the object [x]. *)
Fixpoint index (fs : list Feature.t) (x : Feature.t) : result nat :=
  match fs with
  | [] => Raise (ValueError "x is not in list"%string)
  | f :: fs' =>
      if Feature.fid f =? Feature.fid x then Ok 0
      else S <$> index fs' x
  end.

(** The loop of [encode]: [feat_i] is the counter of [enumerate]. [X] is
    the array that [to_numpy] gives for a pandas input. *)
Fixpoint encode_columns (X : np.ndarray value) (normalize one_hot : bool)
    (feat_i : nat) (fs : list Feature.t) : M (list (np.ndarray num)) :=
  match fs with
  | [] => mret []
  | feature :: fs' =>
      col ← lift (np.getcol X feat_i);
      e ← invoke (CallEncode (Feature.fid feature))
            (Feature.encode feature col normalize one_hot);
      n ← lift (np.shape0 X);
      r ← lift (np.reshape_rows n e);
      enc ← encode_columns X normalize one_hot (S feat_i) fs';
      mret (r :: enc)
  end.

(** The body of [encode] after the test on the number of dimensions. *)
Definition encode_matrix (self : t) (X : np.ndarray value)
    (normalize one_hot : bool) : M (np.ndarray num) :=
  enc ← encode_columns X normalize one_hot 0 (features self);
  lift (np.astype_float64 <$> np.concatenate1 enc).

(** Python's default recursion limit. *)
Definition recursion_limit : nat := 1000.

(** [encode] calls itself on a row promoted to a matrix; [depth] is the
    number of nested calls the interpreter still allows. *)
Fixpoint encode_rec (depth : nat) (self : t) (X : np.ndarray value)
    (normalize one_hot : bool) : M (np.ndarray num) :=
  match depth with
  | 0 => raise RecursionError
  | S depth' =>
      if np.ndim X =? 1 then
        Xmat ← lift (np.reshape_rows 1 X);
        r ← encode_rec depth' self Xmat normalize one_hot;
        lift (np.getitem0 r)
      else encode_matrix self X normalize one_hot
  end.

Definition encode (self : t) (X : np.ndarray value) (normalize one_hot : bool)
    : M (np.ndarray num) :=
  encode_rec recursion_limit self X normalize one_hot.

(** The loop of [decode]. *)
Fixpoint decode_columns (X : np.ndarray num) (denormalize encoded_one_hot
    as_dataframe : bool) (curr_col : nat) (fs : list Feature.t) : M (list pyobj) :=
  match fs with
  | [] => mret []
  | feature :: fs' =>
      w ← invoke (CallEncodingWidth (Feature.fid feature))
            (Feature.encoding_width feature encoded_one_hot);
      sl ← lift (np.slice_cols X curr_col (curr_col + w));
      d ← invoke (CallDecode (Feature.fid feature))
            (Feature.decode feature sl denormalize as_dataframe);
      dec ← decode_columns X denormalize encoded_one_hot as_dataframe
              (curr_col + w) fs';
      mret (d :: dec)
  end.

(** [x.reshape(n, -1)] on a decoded column: a pandas object has no
    [reshape]. *)
Definition reshape_decoded (n : nat) (x : pyobj) : result (np.ndarray value) :=
  match x with
  | Array a => np.reshape_rows n a
  | Frame _ => Raise AttributeError
  end.

Definition decode (self : t) (X : np.ndarray num) (denormalize encoded_one_hot
    as_dataframe : bool) : M pyobj :=
  n ← lift (np.shape0 X);
  if n =? 0 then
    if as_dataframe
    then mret (Frame (pd.DataFrame_empty (Feature.name <$> features self)))
    else mret (Array (np.empty [0; n_features self]))
  else
    dec ← decode_columns X denormalize encoded_one_hot as_dataframe 0
            (features self);
    if as_dataframe
    then lift (Frame <$> pd.concat1 dec)
    else lift (arrs ← mapM (reshape_decoded n) dec;
               Array <$> np.concatenate1 arrs).

Definition encoding_width (self : t) (one_hot : bool) : M nat :=
  ws ← mapM (fun f => invoke (CallEncodingWidth (Feature.fid f))
                        (Feature.encoding_width f one_hot))
        (features self);
  mret (sum_list ws).

(** The first loop of [allowed_changes], over
    [zip(self.features, pre_vals, post_vals)]. Here and below a loop
    yields [false] when it executes [return False] and [true] when it runs
    to its end. *)
Fixpoint per_feature (fs : list Feature.t) (pre_vals post_vals : list value)
    : M bool :=
  match fs, pre_vals, post_vals with
  | f :: fs', pre :: pre_vals', pos :: post_vals' =>
      ok ← invoke (CallAllowedChange (Feature.fid f))
             (Feature.allowed_change f pre pos);
      if negb ok then mret false
      else per_feature fs' pre_vals' post_vals'
  | _, _, _ => mret true
  end.

(** The second loop, for one (cause, effect) pair: whether the cause
    increased from the one row to the other (the variable [applied]). *)
Definition cause_applied (self : t) (pre_vals post_vals : list value)
    (cause : Feature.t) : M bool :=
  cause_i ← lift (index (features self) cause);
  v ← lift (getitem pre_vals cause_i);
  pre_cause ← invoke (CallEncode (Feature.fid cause))
                (Feature.encode_value cause v false false);
  v ← lift (getitem post_vals cause_i);
  pos_cause ← invoke (CallEncode (Feature.fid cause))
                (Feature.encode_value cause v false false);
  match Feature.kind cause with
  | Categorical =>
      gs ← invoke (CallGreaterThan (Feature.fid cause))
             (Feature.greater_than cause pre_cause);
      mret (bool_decide (pos_cause ∈ gs))
  | Contiguous => mret (scalar_gt pos_cause pre_cause)
  | _ => raise (ValueError "invalid feature type"%string)
  end.

(** The block under [if applied:]. *)
Definition effect_follows (self : t) (pre_vals post_vals : list value)
    (effect : Feature.t) : M bool :=
  effect_i ← lift (index (features self) effect);
  v ← lift (getitem pre_vals effect_i);
  pre_effect ← invoke (CallEncode (Feature.fid effect))
                 (Feature.encode_value effect v false false);
  v ← lift (getitem post_vals effect_i);
  pos_effect ← invoke (CallEncode (Feature.fid effect))
                 (Feature.encode_value effect v false false);
  match Feature.kind effect with
  | Categorical =>
      gs ← invoke (CallGreaterThan (Feature.fid effect))
             (Feature.greater_than effect pre_effect);
      if negb (bool_decide (pos_effect ∈ gs)) then mret false else mret true
  | Contiguous =>
      if scalar_le pos_effect pre_effect then mret false else mret true
  | _ => raise (ValueError "invalid feature type"%string)
  end.

Definition causal_pair (self : t) (pre_vals post_vals : list value)
    (cause effect : Feature.t) : M bool :=
  applied ← cause_applied self pre_vals post_vals cause;
  if applied : bool then effect_follows self pre_vals post_vals effect
  else mret true.

Fixpoint causal_loop (self : t) (pre_vals post_vals : list value)
    (pairs : list (Feature.t * Feature.t)) : M bool :=
  match pairs with
  | [] => mret true
  | (cause, effect) :: pairs' =>
      go_on ← causal_pair self pre_vals post_vals cause effect;
      if negb go_on then mret false
      else causal_loop self pre_vals post_vals pairs'
  end.

(** The third loop, over the (greater, smaller) pairs. *)
Fixpoint ordering_loop (self : t) (post_vals : list value)
    (pairs : list (Feature.t * Feature.t)) : M bool :=
  match pairs with
  | [] => mret true
  | (greater, smaller) :: pairs' =>
      s_i ← lift (index (features self) smaller);
      s ← lift (getitem post_vals s_i);
      g_i ← lift (index (features self) greater);
      g ← lift (getitem post_vals g_i);
      exceeds ← lift (value_gt s g);
      if exceeds : bool then mret false
      else ordering_loop self post_vals pairs'
  end.

Definition allowed_changes (self : t) (pre_vals post_vals : list value)
    : M bool :=
  ok ← per_feature (features self) pre_vals post_vals;
  if negb ok then mret false
  else
    ok ← causal_loop self pre_vals post_vals (causal_inc self);
    if negb ok then mret false
    else ordering_loop self post_vals (greater_than self).

End DataHandler.

(** ** Definitions used by the statements *)

(** Every Feature accepts the change of the cell at its position, over the
    positions that all three sequences have. *)
Fixpoint all_allowed (fs : list Feature.t) (pre_vals post_vals : list value) : bool :=
  match fs, pre_vals, post_vals with
  | f :: fs', pre :: pre_vals', pos :: post_vals' =>
      Feature.allowed_change f pre pos && all_allowed fs' pre_vals' post_vals'
  | _, _, _ => true
  end.

Definition is_allowed_change_call (c : call) : Prop :=
  match c with CallAllowedChange _ => True | _ => False end.

(** Modelled from the spec: the module [features] is not among the
    sources; section 4.7 says that an immutable Feature rejects any change
    of its value. *)
Definition immutable_rejects (f : Feature.t) : Prop :=
  Feature.modifiable f = false →
  ∀ a b : value, a ≠ b → Feature.allowed_change f a b = false.

(** The cell of a row at the position of a Feature in the Feature list. *)
Definition lookup_cell (self : DataHandler.t) (row : list value) (f : Feature.t)
    : result value :=
  i ← DataHandler.index (DataHandler.features self) f; getitem row i.

Definition cell (self : DataHandler.t) (row : list value) (f : Feature.t) : value :=
  match lookup_cell self row f with
  | Ok v => v
  | Raise _ => VInt 0
  end.

(** The kinds a causal constraint accepts. *)
Definition supported (f : Feature.t) : bool :=
  match Feature.kind f with
  | Categorical | Contiguous => true
  | Binary => false
  end.

(** "Increased", in the words of the specification: for a Categorical
    Feature the after-value is a member of the [greater_than] set of the
    before-value, for a Contiguous Feature it is strictly greater; the values
    are encoded without normalization and without one-hot expansion. *)
Definition increased (f : Feature.t) (before after : value) : bool :=
  let pre := Feature.encode_value f before false false in
  let pos := Feature.encode_value f after false false in
  match Feature.kind f with
  | Categorical => bool_decide (pos ∈ Feature.greater_than f pre)
  | Contiguous => scalar_gt pos pre
  | Binary => false
  end.

(** The test that the code applies to the effect of a pair whose cause
    increased: membership for a Categorical Feature, and for a Contiguous one
    the failure of [pos_effect <= pre_effect]. *)
Definition effect_passes (f : Feature.t) (before after : value) : bool :=
  let pre := Feature.encode_value f before false false in
  let pos := Feature.encode_value f after false false in
  match Feature.kind f with
  | Categorical => bool_decide (pos ∈ Feature.greater_than f pre)
  | Contiguous => negb (scalar_le pos pre)
  | Binary => false
  end.

(** Modelled from the spec: section 4.5 has the values of a pair encoded
    to a "raw comparable numeric/integer form". The two encodings of the
    Feature can be compared: for a Contiguous Feature neither is NaN. *)
Definition comparable (f : Feature.t) (before after : value) : bool :=
  match Feature.kind f with
  | Contiguous =>
      match Feature.encode_value f before false false,
            Feature.encode_value f after false false with
      | Number _, Number _ => true
      | _, _ => false
      end
  | _ => true
  end.

Definition increased_in (self : DataHandler.t) (pre_vals post_vals : list value)
    (f : Feature.t) : bool :=
  increased f (cell self pre_vals f) (cell self post_vals f).

Definition effect_passes_in (self : DataHandler.t) (pre_vals post_vals : list value)
    (f : Feature.t) : bool :=
  effect_passes f (cell self pre_vals f) (cell self post_vals f).

Definition comparable_in (self : DataHandler.t) (pre_vals post_vals : list value)
    (f : Feature.t) : bool :=
  comparable f (cell self pre_vals f) (cell self post_vals f).

(** Both rows have a cell for the Feature, and its kind is supported. *)
Definition resolved (self : DataHandler.t) (pre_vals post_vals : list value)
    (f : Feature.t) : bool :=
  is_ok (lookup_cell self pre_vals f) && is_ok (lookup_cell self post_vals f)
  && supported f.

(** A causal pair can be evaluated: the cause is resolved, and so is the
    effect when the cause increased. *)
Definition pair_resolved (self : DataHandler.t) (pre_vals post_vals : list value)
    (p : Feature.t * Feature.t) : bool :=
  resolved self pre_vals post_vals p.1
  && implb (increased_in self pre_vals post_vals p.1)
       (resolved self pre_vals post_vals p.2).

(** The requirement of a causal pair: if the cause increased, so did the
    effect. *)
Definition pair_holds (self : DataHandler.t) (pre_vals post_vals : list value)
    (p : Feature.t * Feature.t) : bool :=
  implb (increased_in self pre_vals post_vals p.1)
    (increased_in self pre_vals post_vals p.2).

(** What the code lets through for a causal pair: the cause did not
    increase, or the effect passes its test. *)
Definition pair_passes (self : DataHandler.t) (pre_vals post_vals : list value)
    (p : Feature.t * Feature.t) : bool :=
  implb (increased_in self pre_vals post_vals p.1)
    (effect_passes_in self pre_vals post_vals p.2).

(** The encodings of the effect of a pair can be compared where the pair is
    triggered. *)
Definition pair_comparable (self : DataHandler.t) (pre_vals post_vals : list value)
    (p : Feature.t * Feature.t) : bool :=
  implb (increased_in self pre_vals post_vals p.1)
    (comparable_in self pre_vals post_vals p.2).

(** The comparison of an ordering pair (greater, smaller) on the after-row. *)
Definition ordering_compare (self : DataHandler.t) (post_vals : list value)
    (p : Feature.t * Feature.t) : result bool :=
  s ← lookup_cell self post_vals p.2;
  g ← lookup_cell self post_vals p.1;
  value_gt s g.

(** The after-value of the smaller Feature exceeds that of the greater. *)
Definition exceeds (self : DataHandler.t) (post_vals : list value)
    (p : Feature.t * Feature.t) : bool :=
  match ordering_compare self post_vals p with
  | Ok b => b
  | Raise _ => false
  end.

(** The Feature is not in the Feature list of the handler. *)
Definition absent (self : DataHandler.t) (f : Feature.t) : bool :=
  negb (is_ok (DataHandler.index (DataHandler.features self) f)).

Definition has_cells (self : DataHandler.t) (pre_vals post_vals : list value)
    (f : Feature.t) : bool :=
  is_ok (lookup_cell self pre_vals f) && is_ok (lookup_cell self post_vals f).

(** The evaluation of a causal pair meets a misconfiguration: the cause is
    absent from the Feature list; or both rows have a cell at the position of
    the cause and it is of an unsupported kind; or both rows have that cell,
    the cause increased, and the effect is absent or, both rows having a cell
    at its position, of an unsupported kind. The rows are indexed before the
    kind is tested, so without the cells the evaluation stops earlier, at
    [causal_short]. *)
Definition causal_defect (self : DataHandler.t) (pre_vals post_vals : list value)
    (p : Feature.t * Feature.t) : bool :=
  absent self p.1
  || has_cells self pre_vals post_vals p.1
     && (negb (supported p.1)
         || increased_in self pre_vals post_vals p.1
            && (absent self p.2
                || has_cells self pre_vals post_vals p.2 && negb (supported p.2))).

(** The evaluation of an ordering pair (greater, smaller) meets an absent
    Feature: the smaller one, looked up first; or, the after-row having a
    cell at the position of the smaller one, the greater one. *)
Definition ordering_defect (self : DataHandler.t) (post_vals : list value)
    (p : Feature.t * Feature.t) : bool :=
  absent self p.2
  || is_ok (lookup_cell self post_vals p.2) && absent self p.1.

(** The evaluation of a causal pair indexes a row beyond its end: the cause
    is in the Feature list at a position that one of the rows lacks; or the
    cause, of a supported kind, increased and the effect is in the list at
    such a position. *)
Definition causal_short (self : DataHandler.t) (pre_vals post_vals : list value)
    (p : Feature.t * Feature.t) : bool :=
  negb (absent self p.1)
  && (negb (has_cells self pre_vals post_vals p.1)
      || supported p.1 && increased_in self pre_vals post_vals p.1
         && negb (absent self p.2) && negb (has_cells self pre_vals post_vals p.2)).

(** The same for an ordering pair (greater, smaller) and the after-row. *)
Definition ordering_short (self : DataHandler.t) (post_vals : list value)
    (p : Feature.t * Feature.t) : bool :=
  negb (absent self p.2)
  && (negb (is_ok (lookup_cell self post_vals p.2))
      || negb (absent self p.1) && negb (is_ok (lookup_cell self post_vals p.1))).

Definition configuration_error (r : result bool) : Prop :=
  r = Raise (ValueError "x is not in list")
  ∨ r = Raise (ValueError "invalid feature type").

(** Every part has [n] rows, all of the width listed for it. *)
Definition parts_wf {A} (n : nat) (parts : list (list (list A))) (ws : list nat) : Prop :=
  Forall2 (fun p w => length p = n ∧ Forall (fun row : list A => length row = w) p)
    parts ws.

(** Column [i] of a table, once [X[:, i]] is known not to raise. *)
Definition column {A} (X : np.ndarray A) (i : nat) : np.ndarray A :=
  match np.getcol X i with
  | Ok c => c
  | Raise _ => np.mk_ndarray [] []
  end.

(** The rows of a two-dimensional array. *)
Definition rows_of {A} (a : np.ndarray A) : list (list A) :=
  match np.rows2 a with
  | Ok (_, _, rows) => rows
  | Raise _ => []
  end.

(** Modelled from the spec: section 6 gives [encode] of a Feature the width
    that its [encoding_width] declares. On a column of [n] cells the encoded
    array holds [n] times that many cells. *)
Definition encodes_width (f : Feature.t) (n : nat) (c : np.ndarray value)
    (normalize one_hot : bool) : Prop :=
  let e := Feature.encode f c normalize one_hot in
  np.wf e ∧ np.size e = n * Feature.encoding_width f one_hot.

(** What the loop of [encode] collects for one Feature: its encoded column
    reshaped to [n] rows. *)
Definition encoded_block (f : Feature.t) (n : nat) (c : np.ndarray value)
    (normalize one_hot : bool) : np.ndarray num :=
  np.mk_ndarray [n; Feature.encoding_width f one_hot]
    (np.flat (Feature.encode f c normalize one_hot)).

Fixpoint encoded_blocks (X : np.ndarray value) (n : nat) (normalize one_hot : bool)
    (i : nat) (fs : list Feature.t) : list (np.ndarray num) :=
  match fs with
  | [] => []
  | f :: fs' =>
      encoded_block f n (column X i) normalize one_hot
      :: encoded_blocks X n normalize one_hot (S i) fs'
  end.

Definition widths (one_hot : bool) (fs : list Feature.t) : list nat :=
  (fun f => Feature.encoding_width f one_hot) <$> fs.

(** The encoded matrix: the blocks of the Features side by side. *)
Definition encoded_matrix (self : DataHandler.t) (X : np.ndarray value) (n : nat)
    (normalize one_hot : bool) : np.ndarray num :=
  np.mk_ndarray [n; sum_list (widths one_hot (DataHandler.features self))]
    (np.join_rows n
       (rows_of <$> encoded_blocks X n normalize one_hot 0 (DataHandler.features self))).

(** What [decode] of a Feature returns for a column of [n] cells: asked
    for a table, a one-column table labelled with the name of the Feature;
    otherwise an array of [n] cells. *)
Definition decoded_as (as_dataframe : bool) (n : nat) (name : string)
    (cells : list value) (o : pyobj) : Prop :=
  if as_dataframe
  then o = Frame (mk_DataFrame n [(name, Some <$> cells)]) ∧ length cells = n
  else ∃ a, o = Array a ∧ np.wf a ∧ np.size a = n ∧ np.flat a = cells.

(** What the loop of [decode] collects for one Feature, when the matrix is
    the encoded one. *)
Definition decoded_block (f : Feature.t) (n : nat) (c : np.ndarray value)
    (normalize one_hot as_dataframe : bool) : pyobj :=
  Feature.decode f (np.astype_float64 (encoded_block f n c normalize one_hot))
    normalize as_dataframe.

Fixpoint decoded_blocks (X : np.ndarray value) (n : nat)
    (normalize one_hot as_dataframe : bool) (i : nat) (fs : list Feature.t)
    : list pyobj :=
  match fs with
  | [] => []
  | f :: fs' =>
      decoded_block f n (column X i) normalize one_hot as_dataframe
      :: decoded_blocks X n normalize one_hot as_dataframe (S i) fs'
  end.

(** Modelled from the spec: section 6 makes [decode] of a Feature the
    inverse of its [encode] under matching flags: applied to what [encode]
    returned for a column of [n] cells, cast as [encode] of the handler casts
    it, [decode] gives the cells back. [R f] is the fidelity of the Feature
    [f]: equality for labels, closeness for continuous values. *)
Definition inverts_own (R : Feature.t → list value → list value → Prop)
    (f : Feature.t) (n : nat) (c : np.ndarray value)
    (normalize one_hot as_dataframe : bool) : Prop :=
  encodes_width f n c normalize one_hot
  ∧ ∃ cells,
      decoded_as as_dataframe n (Feature.name f) cells
        (Feature.decode f
           (np.astype_float64 (Feature.encode f c normalize one_hot))
           normalize as_dataframe)
      ∧ R f (np.flat c) cells.

(** What the round trip through the handler asks of a Feature: its [decode]
    gives the cells back from the block that [decode] of the handler hands
    it, which is the encoding of the Feature reshaped to [n] rows by [encode]
    of the handler and cut out of the encoded matrix with the shape
    [(n, width)]. For a Feature whose [encode] returns an array of another
    shape, a one-dimensional one for instance, this asks more than
    [inverts_own]. *)
Definition inverts (R : Feature.t → list value → list value → Prop)
    (f : Feature.t) (n : nat) (c : np.ndarray value)
    (normalize one_hot as_dataframe : bool) : Prop :=
  encodes_width f n c normalize one_hot
  ∧ ∃ cells,
      decoded_as as_dataframe n (Feature.name f) cells
        (decoded_block f n c normalize one_hot as_dataframe)
      ∧ R f (np.flat c) cells.

(** The array with the given columns of [n] cells. *)
Definition table_of_columns {A} (n : nat) (cols : list (list A)) : np.ndarray A :=
  np.mk_ndarray [n; length cols]
    (np.join_rows n ((fun col : list A => (fun x : A => [x]) <$> col) <$> cols)).

(** The table with the given labelled columns of [n] cells. *)
Definition frame_of_columns (n : nat) (names : list string)
    (cols : list (list value)) : DataFrame :=
  mk_DataFrame n (zip names ((fun col : list value => Some <$> col) <$> cols)).

Definition decoded_table (as_dataframe : bool) (n : nat) (names : list string)
    (cols : list (list value)) : pyobj :=
  if as_dataframe then Frame (frame_of_columns n names cols)
  else Array (table_of_columns n cols).

(** The columns of a table. *)
Definition columns_of {A} (X : np.ndarray A) (m : nat) : list (list A) :=
  (fun j => np.flat (column X j)) <$> seq 0 m.

(** ** Sample features and handlers *)

Module Sample.

#[global] Instance value_eq_dec : EqDecision value.
Proof. solve_decision. Defined.

Definition as_int (v : value) : Z :=
  match v with VInt z => z | VStr _ => 0%Z end.

Definition of_cells {A} (cells : list A) : np.ndarray A :=
  np.mk_ndarray [length cells] cells.

Definition series (name : string) (cells : list value) : pyobj :=
  Frame (mk_DataFrame (length cells) [(name, Some <$> cells)]).

(** A change is allowed on a modifiable feature, and on an immutable one
    only when nothing changes. *)
Definition change_ok (modifiable : bool) (pre pos : value) : bool :=
  modifiable || bool_decide (pre = pos).

(** A continuous feature over the integers from [lo] on: normalization
    shifts by [lo]. *)
Definition contiguous (fid : nat) (name : string) (lo : Z) (modifiable : bool)
    : Feature.t :=
  let enc (normalize : bool) (v : value) : num :=
    if normalize then (as_int v - lo)%Z else as_int v in
  let dec (denormalize : bool) (x : num) : value :=
    if denormalize then VInt (x + lo)%Z else VInt x in
  Feature.mk fid Contiguous name modifiable
    (fun col normalize _ => of_cells (enc normalize <$> np.flat col))
    (fun v normalize _ => Number (enc normalize v))
    (fun sl denormalize as_dataframe =>
       let cells := dec denormalize <$> np.flat sl in
       if as_dataframe then series name cells else Array (of_cells cells))
    (fun _ => 1)
    (change_ok modifiable)
    (fun _ => []).

(** The position of a label among the labels, from 0. *)
Fixpoint position (labels : list string) (v : value) : nat :=
  match labels with
  | [] => 0
  | l :: labels' =>
      if bool_decide (v = VStr l) then 0 else S (position labels' v)
  end.

Definition one_hot_row (k i : nat) : list num :=
  (fun j => if j =? i then 1%Z else 0%Z) <$> seq 0 k.

(** The position of the first 1 of a row. *)
Fixpoint hot (row : list num) : nat :=
  match row with
  | [] => 0
  | x :: row' => if (x =? 1)%Z then 0 else S (hot row')
  end.

(** A categorical feature: label number [i] has the code [-(i+1)], and
    the labels after it are the greater ones. *)
Definition categorical (fid : nat) (name : string) (labels : list string)
    (modifiable : bool) : Feature.t :=
  let k := length labels in
  let code (v : value) : num := (- Z.of_nat (S (position labels v)))%Z in
  let label (i : nat) : value := VStr (default ""%string (labels !! i)) in
  Feature.mk fid Categorical name modifiable
    (fun col _ one_hot =>
       if one_hot
       then np.mk_ndarray [length (np.flat col); k]
              (concat ((fun v => one_hot_row k (position labels v)) <$> np.flat col))
       else of_cells (code <$> np.flat col))
    (fun v _ _ => Number (code v))
    (fun sl _ as_dataframe =>
       let cells :=
         match np.shape sl with
         | [n; w] =>
             if w =? k
             then (fun row => label (hot row)) <$> np.chunks w n (np.flat sl)
             else (fun x => label (Z.to_nat (- x - 1))) <$> np.flat sl
         | _ => (fun x => label (Z.to_nat (- x - 1))) <$> np.flat sl
         end in
       if as_dataframe then series name cells else Array (of_cells cells))
    (fun one_hot => if one_hot then k else 1)
    (change_ok modifiable)
    (fun c =>
       match c with
       | Number c =>
           (fun i => Number (- Z.of_nat (S i))%Z)
             <$> seq (Z.to_nat (- c)) (k - Z.to_nat (- c))
       | NaN => []
       end).

(** A binary feature: the two labels become 0 and 1. *)
Definition binary (fid : nat) (name : string) (one : string) (modifiable : bool)
    : Feature.t :=
  let enc (v : value) : num := if bool_decide (v = VStr one) then 1%Z else 0%Z in
  Feature.mk fid Binary name modifiable
    (fun col _ _ => of_cells (enc <$> np.flat col))
    (fun v _ _ => Number (enc v))
    (fun sl _ as_dataframe =>
       let cells := (fun x => VInt x) <$> np.flat sl in
       if as_dataframe then series name cells else Array (of_cells cells))
    (fun _ => 1)
    (change_ok modifiable)
    (fun _ => []).

Definition table (n m : nat) (cells : list value) : np.ndarray value :=
  np.mk_ndarray [n; m] cells.

Definition age : Feature.t := contiguous 0 "age" 18 true.
Definition colour : Feature.t := categorical 1 "colour" ["red"; "green"; "blue"] true.
Definition handler : DataHandler.t := DataHandler.init [age; colour] None None None.

Definition people : np.ndarray value :=
  table 2 2 [VInt 30; VStr "green"; VInt 41; VStr "blue"].

(** A year of birth cannot change. *)
Definition born : Feature.t := contiguous 2 "born" 1900 false.
Definition registry : DataHandler.t := DataHandler.init [born; colour] None None None.

(** The scenario of the specification for a causal constraint: two
    Contiguous Features and the constraint (C, E). *)
Definition cause_C : Feature.t := contiguous 10 "C" 0 true.
Definition effect_E : Feature.t := contiguous 11 "E" 0 true.
Definition linked : DataHandler.t :=
  DataHandler.init [cause_C; effect_E] None (Some [(cause_C, effect_E)]) None.

(** The scenario for an ordering constraint: A greater than B. *)
Definition greater_A : Feature.t := contiguous 20 "A" 0 true.
Definition smaller_B : Feature.t := contiguous 21 "B" 0 true.
Definition ordered : DataHandler.t :=
  DataHandler.init [greater_A; smaller_B] None None (Some [(greater_A, smaller_B)]).

(** A handler whose causal pair names, as its effect, a Binary Feature
    that is not in its Feature list. *)
Definition flag : Feature.t := binary 30 "flag" "yes" true.
Definition dangling : DataHandler.t :=
  DataHandler.init [cause_C] None (Some [(cause_C, flag)]) None.

(** Handlers whose constraints name a missing or a Binary Feature first. *)
Definition missing_cause : DataHandler.t :=
  DataHandler.init [effect_E] None (Some [(cause_C, effect_E)]) None.
Definition missing_smaller : DataHandler.t :=
  DataHandler.init [greater_A] None None (Some [(greater_A, smaller_B)]).

(** One row with a column more than [handler] has Features, and the same
    row without it. *)
Definition wide : np.ndarray value :=
  table 1 3 [VInt 30; VStr "green"; VInt 7].
Definition narrow : np.ndarray value :=
  table 1 2 [VInt 30; VStr "green"].

(** A continuous Feature of readings in which a label marks a missing
    reading: the single value encodes to NaN. *)
Definition gauge (fid : nat) (name : string) : Feature.t :=
  let c := contiguous fid name 0 true in
  Feature.mk fid Contiguous name true
    (Feature.encode c)
    (fun v _ _ =>
       match v with
       | VInt z => Number z
       | VStr _ => NaN
       end)
    (Feature.decode c) (Feature.encoding_width c) (Feature.allowed_change c)
    (Feature.greater_than c).

Definition effect_G : Feature.t := gauge 12 "G".
Definition metered : DataHandler.t :=
  DataHandler.init [cause_C; effect_G] None (Some [(cause_C, effect_G)]) None.

(** A Feature of two labels whose [decode] inverts its own encodings, the
    one-dimensional codes and the one-hot rows, and reads any other shape as
    the first label. *)
Definition shade_code (v : value) : num :=
  if bool_decide (v = VStr "blue") then 1%Z else 0%Z.

Definition shade_label (x : num) : value :=
  if (x =? 1)%Z then VStr "blue" else VStr "green".

Definition shade : Feature.t :=
  Feature.mk 50 Categorical "shade" true
    (fun col _ one_hot =>
       if one_hot
       then np.mk_ndarray [length (np.flat col); 2]
              (concat ((fun v => one_hot_row 2 (Z.to_nat (shade_code v))) <$> np.flat col))
       else of_cells (shade_code <$> np.flat col))
    (fun v _ _ => Number (shade_code v))
    (fun sl _ as_dataframe =>
       let cells :=
         match np.shape sl with
         | [_] => shade_label <$> np.flat sl
         | [n; w] =>
             if w =? 2
             then (fun row => shade_label (Z.of_nat (hot row))) <$> np.chunks w n (np.flat sl)
             else (fun _ => VStr "green") <$> np.flat sl
         | _ => (fun _ => VStr "green") <$> np.flat sl
         end in
       if as_dataframe then series "shade" cells else Array (of_cells cells))
    (fun one_hot => if one_hot then 2 else 1)
    (change_ok true)
    (fun _ => []).

Definition tinted : DataHandler.t := DataHandler.init [shade] None None None.
Definition tints : np.ndarray value := table 2 1 [VStr "green"; VStr "blue"].

End Sample.


(** ** The target Feature and the joint encoding *)

(** [encode_y]: the call goes to the target Feature; without one the
    attribute access on [None] raises. *)
Definition encode_y (self : DataHandler.t) (y : np.ndarray value)
    (normalize one_hot : bool) : M (np.ndarray num) :=
  match DataHandler.target_feature self with
  | Some target =>
      invoke (CallEncode (Feature.fid target))
        (Feature.encode target y normalize one_hot)
  | None => raise AttributeError
  end.

Definition decode_y (self : DataHandler.t) (y : np.ndarray num)
    (denormalize as_series : bool) : M pyobj :=
  match DataHandler.target_feature self with
  | Some target =>
      invoke (CallDecode (Feature.fid target))
        (Feature.decode target y denormalize as_series)
  | None => raise AttributeError
  end.

(** [a[:, :-1]]: the stop [-1] is the last position of the axis, and 0 on
    an axis of length 0. *)
Definition but_last_cols {A} (a : np.ndarray A) : result (np.ndarray A) :=
  match np.shape a with
  | _ :: m :: _ => np.slice_cols a 0 (m - 1)
  | _ => Raise IndexError
  end.

(** [a[:, -1]]: the index [-1] is out of bounds on an axis of length 0. *)
Definition last_col {A} (a : np.ndarray A) : result (np.ndarray A) :=
  match np.shape a with
  | _ :: m :: _ => if m =? 0 then Raise IndexError else np.getcol a (m - 1)
  | _ => Raise IndexError
  end.

(** [a.reshape(-1, 1)]: the unknown dimension is the size, and numpy
    never refuses. *)
Definition reshape_column {A} (a : np.ndarray A) : np.ndarray A :=
  np.mk_ndarray [np.size a; 1] (np.flat a).

(** [encode_all]: the elements of the list are evaluated in order, the
    inputs before the target. *)
Definition encode_all (self : DataHandler.t) (X_all : np.ndarray value)
    (normalize one_hot : bool) : M (np.ndarray num) :=
  X ← lift (but_last_cols X_all);
  E ← DataHandler.encode self X normalize one_hot;
  y ← lift (last_col X_all);
  t ← encode_y self y normalize one_hot;
  lift (np.concatenate1 [E; reshape_column t]).

(** ** Building a handler from data *)

(** Modelled from the spec: section 3 lists the monotonicity tags; the
    enumeration itself is in the module [features], which is not among the
    sources. *)
Inductive Monotonicity : Type := NONE | INCREASING | DECREASING.

(** The table [from_data] receives: an array, or a pandas table given by
    its column labels and its cells. *)
Inductive DataLike : Type :=
| XArray (a : np.ndarray value)
| XFrame (columns : list string) (a : np.ndarray value).

(** The target values: an array, a pandas Series with its name, or the
    pandas table that [X[target_name]] is when several columns carry the
    label. *)
Inductive OneDimData : Type :=
| YArray (a : np.ndarray value)
| YSeries (name : option string) (a : np.ndarray value)
| YFrame (columns : list string) (a : np.ndarray value).

(** [feature_names] inside [from_data]: a Python list, or the pandas Index
    [X.columns], which has no method [index]. *)
Inductive names : Type :=
| NamesList (l : list (option string))
| NamesIndex (l : list string).

(** pandas raises [KeyError] for a label that is no column. *)
Inductive raised : Type :=
| Exn (e : exn)
| KeyError (key : string).

Inductive attempt (A : Type) : Type :=
| Done (a : A)
| Fails (e : raised).
Arguments Done {A} a.
Arguments Fails {A} e.

#[global] Instance attempt_ret : MRet attempt := fun _ a => Done a.
#[global] Instance attempt_bind : MBind attempt := fun _ _ k r =>
  match r with
  | Done a => k a
  | Fails e => Fails e
  end.

Definition try_result {A} (r : result A) : attempt A :=
  match r with
  | Ok a => Done a
  | Raise e => Fails (Exn e)
  end.

(** Modelled from the spec: the constructors of the module [features],
    which is not among the sources. [make_feature] receives the column, the
    name, the categories and the bounds given for the name, whether the name
    is ordered and discrete, the monotonicity and whether the Feature is
    modifiable; the classes receive the target values and a name. Each of
    them returns a Feature or raises; nothing is assumed of when. *)
Record features_module : Type := mk_features_module {
  make_feature :
    np.ndarray value → option string → option (list value) → option (Z * Z) →
    bool → bool → Monotonicity → bool → result Feature.t;
  new_Contiguous : OneDimData → option string → result Feature.t;
  new_Categorical : OneDimData → option string → result Feature.t;
  new_Binary : OneDimData → option string → result Feature.t
}.

(** A newly created object has an identity of its own. *)
Definition allocated (id : nat) (f : Feature.t) : Feature.t :=
  Feature.mk id (Feature.kind f) (Feature.name f) (Feature.modifiable f)
    (Feature.encode f) (Feature.encode_value f) (Feature.decode f)
    (Feature.encoding_width f) (Feature.allowed_change f) (Feature.greater_than f).

(** An object created by calling a class is an instance of that class. *)
Definition instance_of (cls : FeatureKind) (id : nat) (f : Feature.t) : Feature.t :=
  Feature.mk id cls (Feature.name f) (Feature.modifiable f)
    (Feature.encode f) (Feature.encode_value f) (Feature.decode f)
    (Feature.encoding_width f) (Feature.allowed_change f) (Feature.greater_than f).

(** [l.index(x)] on a Python list. *)
Fixpoint list_index {A} `{EqDecision A} (l : list A) (x : A) : result nat :=
  match l with
  | [] => Raise (ValueError "x is not in list"%string)
  | y :: l' => if bool_decide (y = x) then Ok 0 else S <$> list_index l' x
  end.

(** [feature_names.index(i)] *)
Definition names_index (ns : names) (i : string) : result nat :=
  match ns with
  | NamesList l => list_index l (Some i)
  | NamesIndex _ => Raise AttributeError
  end.

Definition names_len (ns : names) : nat :=
  match ns with
  | NamesList l => length l
  | NamesIndex l => length l
  end.

(** The names as [enumerate(feature_names)] yields them. *)
Definition names_list (ns : names) : list (option string) :=
  match ns with
  | NamesList l => l
  | NamesIndex l => Some <$> l
  end.

(** The positions of the columns of a pandas table that carry the label,
    and of those that do not. *)
Definition positions (keep : string → bool) (columns : list string) : list nat :=
  (fun ic => ic.1) <$> filter (fun ic => keep ic.2 = true) (zip (seq 0 (length columns)) columns).

Definition row_count {A} (a : np.ndarray A) : nat :=
  match np.shape a with
  | n :: _ => n
  | [] => 0
  end.

(** The table made of the columns at the given positions. *)
Definition select_cols (a : np.ndarray value) (ps : list nat) : np.ndarray value :=
  table_of_columns (row_count a) ((fun p => np.flat (column a p)) <$> ps).

(** [X[target_name]] on a pandas table. *)
Definition frame_getitem (columns : list string) (a : np.ndarray value) (t : string)
    : attempt OneDimData :=
  match positions (String.eqb t) columns with
  | [] => Fails (KeyError t)
  | [p] => Done (YSeries (Some t) (column a p))
  | ps => Done (YFrame (replicate (length ps) t) (select_cols a ps))
  end.

(** [X.drop(columns=target_name)] on a pandas table. *)
Definition frame_drop (columns : list string) (a : np.ndarray value) (t : string)
    : attempt (list string * np.ndarray value) :=
  match positions (String.eqb t) columns with
  | [] => Fails (KeyError t)
  | _ =>
      let ps := positions (fun c => negb (String.eqb t c)) columns in
      Done ((fun p => default t (columns !! p)) <$> ps, select_cols a ps)
  end.

Definition target_cells (y : OneDimData) : list value :=
  match y with
  | YArray a => np.flat a
  | YSeries _ a => np.flat a
  | YFrame _ a => np.flat a
  end.

Definition is_number (v : value) : bool :=
  match v with
  | VInt _ => true
  | VStr _ => false
  end.

Definition is_label (v : value) : bool := negb (is_number v).

(** [len(np.unique(y))]: [np.unique] sorts the values, and Python does not
    compare a number with a label, so values that mix the two raise
    [TypeError]. *)
Definition unique_count (y : OneDimData) : result nat :=
  let cells := target_cells y in
  if existsb is_number cells && existsb is_label cells
  then Raise TypeError
  else Ok (length (remove_dups cells)).

(** The loop that builds the input Features; Feature number [feat_i] is
    the object created after the target and the Features before it. *)
Fixpoint build_features (lib : features_module) (X : np.ndarray value)
    (categ_map : gmap string (list value)) (ordered : list string)
    (bounds_map : gmap string (Z * Z)) (discrete immutable : list string)
    (monotonicity : gmap string Monotonicity)
    (feat_i : nat) (feature_names : list (option string)) : result (list Feature.t) :=
  match feature_names with
  | [] => Ok []
  | feat_name :: feature_names' =>
      col ← np.getcol X feat_i;
      feature ← allocated (S feat_i) <$>
        make_feature lib col feat_name
          (feat_name ≫= fun k => categ_map !! k)
          (feat_name ≫= fun k => bounds_map !! k)
          (from_option (fun k => bool_decide (k ∈ ordered)) false feat_name)
          (from_option (fun k => bool_decide (k ∈ discrete)) false feat_name)
          (default NONE (feat_name ≫= fun k => monotonicity !! k))
          (negb (from_option (fun k => bool_decide (k ∈ immutable)) false feat_name));
      input_features ← build_features lib X categ_map ordered bounds_map discrete
                         immutable monotonicity (S feat_i) feature_names';
      Ok (feature :: input_features)
  end.

(** One pair of a list of constraints given by names. *)
Definition resolve_pair (feature_names : names) (input_features : list Feature.t)
    (ij : string * string) : result (Feature.t * Feature.t) :=
  i ← names_index feature_names ij.1;
  fi ← getitem input_features i;
  j ← names_index feature_names ij.2;
  fj ← getitem input_features j;
  Ok (fi, fj).

(** The first block of [from_data], under [isinstance(X, pd.DataFrame)]:
    the names, the target values and the array it leaves. The message
    printed when the target is taken from the table is left out. *)
Definition unpack (X : DataLike) (y : option OneDimData)
    (feature_names : option (list string)) (target_name : option string)
    : attempt (option names * option OneDimData * np.ndarray value) :=
  match X with
  | XFrame columns a =>
      let feature_names :=
        match feature_names with
        | None => NamesIndex columns
        | Some l => NamesList (Some <$> l)
        end in
      match target_name, y with
      | Some t, None =>
          y ← frame_getitem columns a t;
          '(_, a') ← frame_drop columns a t;
          Done (Some feature_names, Some y, a')
      | _, _ => Done (Some feature_names, y, a)
      end
  | XArray a =>
      Done ((fun l => NamesList (Some <$> l)) <$> feature_names, y, a)
  end.

(** The second block: the target Feature, the first object created. *)
Definition make_target (lib : features_module) (y : option OneDimData)
    (regression : bool) (target_name : option string) : result (option Feature.t) :=
  match y with
  | Some y =>
      let target_name :=
        match target_name with
        | Some t => Some t
        | None =>
            match y with
            | YSeries name _ => name
            | _ => Some "target"%string
            end
        end in
      target_feature ←
        (if regression
         then instance_of Contiguous 0 <$> new_Contiguous lib y target_name
         else
           n ← unique_count y;
           if 2 <? n
           then instance_of Categorical 0 <$> new_Categorical lib y target_name
           else instance_of Binary 0 <$> new_Binary lib y target_name);
      Ok (Some target_feature)
  | None => Ok None
  end.

(** The rest of [from_data], from [n_features = X.shape[1]] on. *)
Definition build (lib : features_module) (X : np.ndarray value)
    (target_feature : option Feature.t)
    (categ_map : gmap string (list value)) (ordered : list string)
    (bounds_map : gmap string (Z * Z)) (discrete immutable : list string)
    (monotonicity : gmap string Monotonicity)
    (causal_inc greater_than : list (string * string))
    (feature_names : option names) : attempt DataHandler.t :=
  n_features ← try_result (getitem (np.shape X) 1);
  let feature_names :=
    match feature_names with
    | Some ns => ns
    | None => NamesList (replicate n_features None)
    end in
  if negb (names_len feature_names =? n_features)
  then Fails (Exn (ValueError "Incorrect length of list of feature names."%string))
  else
    input_features ← try_result
      (build_features lib X categ_map ordered bounds_map discrete immutable
         monotonicity 0 (names_list feature_names));
    causal_inc ← try_result
      (mapM (resolve_pair feature_names input_features) causal_inc);
    greater_than ← try_result
      (mapM (resolve_pair feature_names input_features) greater_than);
    Done (DataHandler.init input_features target_feature
            (Some causal_inc) (Some greater_than)).

Definition from_data (lib : features_module) (X : DataLike) (y : option OneDimData)
    (categ_map : gmap string (list value)) (ordered : list string)
    (bounds_map : gmap string (Z * Z)) (discrete immutable : list string)
    (monotonicity : gmap string Monotonicity)
    (causal_inc greater_than : list (string * string))
    (regression : bool) (feature_names : option (list string))
    (target_name : option string) : attempt DataHandler.t :=
  '(feature_names, y, X) ← unpack X y feature_names target_name;
  target_feature ← try_result (make_target lib y regression target_name);
  build lib X target_feature
    categ_map ordered bounds_map discrete immutable monotonicity
    causal_inc greater_than feature_names.

(** ** Definitions used by the further statements *)

(** The calls of the loop of [decode]: for each Feature its width, then
    its [decode]. *)
Definition decode_calls (fs : list Feature.t) : list call :=
  concat ((fun f => [CallEncodingWidth (Feature.fid f); CallDecode (Feature.fid f)])
            <$> fs).

Definition encode_calls (fs : list Feature.t) : list call :=
  (fun f => CallEncode (Feature.fid f)) <$> fs.

(** Every Feature named by a constraint pair is in the Feature list. *)
Definition constraints_closed (self : DataHandler.t) : Prop :=
  Forall (fun p => absent self p.1 = false ∧ absent self p.2 = false)
    (DataHandler.causal_inc self ++ DataHandler.greater_than self).

(** The outcome is not the error of [list.index] on a missing element. *)
Definition not_missing {A} (r : result A) : Prop :=
  r ≠ Raise (ValueError "x is not in list").

(** ** Further sample handlers *)

Module Fixture.

(** A handler without Features. *)
Definition bare : DataHandler.t := DataHandler.init [] None None None.

(** Two Features with a causal pair between them, for rows that are too
    short. *)
Definition chained : DataHandler.t :=
  DataHandler.init [Sample.cause_C; Sample.effect_E] None
    (Some [(Sample.effect_E, Sample.cause_C)]) None.

(** A handler with a target Feature. *)
Definition grade : Feature.t :=
  Sample.categorical 40 "grade" ["low"; "mid"; "high"] true.
Definition graded : DataHandler.t :=
  DataHandler.mk [Sample.age; Sample.colour] (Some grade) [] [].

Definition score : Feature.t := Sample.contiguous 41 "score" 0 true.
Definition scored : DataHandler.t :=
  DataHandler.mk [Sample.age; Sample.colour] (Some score) [] [].

Definition pupils : np.ndarray value :=
  Sample.table 2 3 [VInt 30; VStr "green"; VInt 7; VInt 41; VStr "blue"; VInt 9].

(** Constructors for the examples: a column with categories becomes a
    categorical Feature, any other a continuous one. *)
Definition label_of (v : value) : string :=
  match v with
  | VStr s => s
  | VInt _ => ""
  end.

Definition lib : features_module :=
  mk_features_module
    (fun _ name categ bounds _ _ _ modifiable =>
       Ok match categ with
          | Some labels =>
              Sample.categorical 0 (default "" name) (label_of <$> labels) modifiable
          | None =>
              Sample.contiguous 0 (default "" name) (default 0%Z (fst <$> bounds))
                modifiable
          end)
    (fun _ name => Ok (Sample.contiguous 0 (default "" name) 0 true))
    (fun _ name => Ok (Sample.categorical 0 (default "" name) [] true))
    (fun _ name => Ok (Sample.binary 0 (default "" name) "yes" true)).

(** Target values that mix a number and a label. *)
Definition mixed_target : OneDimData :=
  YArray (np.mk_ndarray [2] [VInt 1; VStr "a"]).

(** A pandas table with the columns of [pupils]. *)
Definition pupils_frame : DataLike := XFrame ["age"; "colour"; "score"] pupils.

End Fixture.

(** * Properties *)

(** ** The monads *)

Lemma outcome_bind {A B} (m : M A) (k : A → M B) :
  outcome (m ≫= k) =
  match outcome m with
  | Ok a => outcome (k a)
  | Raise e => Raise e
  end.
Proof.
  destruct m as [t [a|e]]; simpl; [|done].
  unfold outcome. destruct (k a); done.
Qed.

Lemma calls_bind {A B} (m : M A) (k : A → M B) :
  calls (m ≫= k) =
  match outcome m with
  | Ok a => calls m ++ calls (k a)
  | Raise e => calls m
  end.
Proof.
  destruct m as [t [a|e]]; simpl; [|done].
  unfold calls. destruct (k a); done.
Qed.

Lemma bind_lift_ok {A B} (a : A) (k : A → M B) : (lift (Ok a) ≫= k) = k a.
Proof. unfold lift; simpl. by destruct (k a). Qed.

Lemma bind_invoke {A B} (c : call) (a : A) (k : A → M B) :
  (invoke c a ≫= k) = (c :: calls (k a), outcome (k a)).
Proof. unfold invoke; simpl. by destruct (k a). Qed.

(** ** Reshaping and the single-row path of [encode] *)

Lemma prod_singleton (m : nat) : np.prod [m] = m.
Proof. unfold np.prod; simpl. lia. Qed.

Lemma reshape_row {A} (m : nat) (cells : list A) :
  np.reshape_rows 1 (np.mk_ndarray [m] cells) = Ok (np.mk_ndarray [1; m] cells).
Proof.
  unfold np.reshape_rows, np.size. cbn [np.shape np.flat].
  rewrite prod_singleton, Nat.mod_1_r, Nat.div_1_r. done.
Qed.

Lemma encode_rec_matrix (d : nat) self (X : np.ndarray value) normalize one_hot :
  np.ndim X ≠ 1 →
  DataHandler.encode_rec (S d) self X normalize one_hot =
  DataHandler.encode_matrix self X normalize one_hot.
Proof.
  intros Hd. simpl. by destruct (Nat.eqb_spec (np.ndim X) 1).
Qed.

Lemma encode_rec_row (d : nat) self (m : nat) (cells : list value) normalize one_hot :
  DataHandler.encode_rec (S (S d)) self (np.mk_ndarray [m] cells) normalize one_hot =
  (r ← DataHandler.encode_matrix self (np.mk_ndarray [1; m] cells) normalize one_hot;
   lift (np.getitem0 r)).
Proof.
  change (DataHandler.encode_rec (S (S d)) self (np.mk_ndarray [m] cells) normalize one_hot)
    with (Xmat ← lift (np.reshape_rows 1 (np.mk_ndarray [m] cells));
          r ← DataHandler.encode_rec (S d) self Xmat normalize one_hot;
          lift (np.getitem0 r)).
  rewrite reshape_row, bind_lift_ok.
  by rewrite encode_rec_matrix.
Qed.

Lemma mapM_rows2_head {A} (a0 : np.ndarray A) arrs parts :
  mapM np.rows2 (a0 :: arrs) = Ok parts →
  ∃ p ps, parts = p :: ps ∧ np.rows2 a0 = Ok p.
Proof.
  cbn. destruct (np.rows2 a0) as [p|e]; [|done]. cbn.
  destruct (mapM np.rows2 arrs) as [ps|e]; [|done]. cbn.
  intros [= <-]. by exists p, ps.
Qed.

Lemma concatenate1_shape {A} (arrs : list (np.ndarray A)) E :
  np.concatenate1 arrs = Ok E →
  ∃ a0 arrs' n w W, arrs = a0 :: arrs' ∧ np.shape a0 = [n; w] ∧ np.shape E = [n; W].
Proof.
  destruct arrs as [|a0 arrs']; [done|].
  unfold np.concatenate1.
  destruct (mapM np.rows2 (a0 :: arrs')) as [parts|e] eqn:Hp; [|done].
  destruct (mapM_rows2_head _ _ _ Hp) as (p & ps & -> & H0).
  cbn. rewrite H0. cbn. destruct p as [[n w] rows].
  destruct (_ && _); [|done]. intros [= <-].
  exists a0, arrs', n, w. eexists. split; [done|]. split; [|done].
  unfold np.rows2 in H0.
  destruct (np.shape a0) as [|? [|? [|]]]; try done. by injection H0 as -> -> _.
Qed.

Lemma encode_matrix_shape self X normalize one_hot E :
  outcome (DataHandler.encode_matrix self X normalize one_hot) = Ok E →
  ∃ n W, np.shape0 X = Ok n ∧ np.shape E = [n; W].
Proof.
  unfold DataHandler.encode_matrix. rewrite outcome_bind.
  destruct (outcome (DataHandler.encode_columns _ _ _ _ _)) as [enc|e] eqn:He; [|done].
  cbn [lift outcome snd].
  destruct (np.concatenate1 enc) as [E'|e] eqn:Hc; [|done].
  cbn. intros [= <-].
  destruct (concatenate1_shape _ _ Hc) as (a0 & arrs' & n & w & W & -> & Ha & HE).
  destruct (DataHandler.features self) as [|f fs] eqn:Hfs; [by injection He|].
  cbn [DataHandler.encode_columns] in He.
  destruct (np.getcol X 0) as [col|e]; [|done].
  rewrite bind_lift_ok, bind_invoke in He. cbn [outcome snd] in He.
  destruct (np.shape0 X) as [n'|e] eqn:Hn; [|done].
  rewrite bind_lift_ok in He.
  destruct (np.reshape_rows n' _) as [r|e] eqn:Hr; [|done].
  rewrite bind_lift_ok, outcome_bind in He.
  destruct (outcome (DataHandler.encode_columns _ _ _ _ _)) as [enc'|e]; [|done].
  injection He as <- <-.
  unfold np.reshape_rows in Hr. destruct (_ || _); [done|].
  injection Hr as <-. cbn in Ha. injection Ha as -> _.
  exists n, W. done.
Qed.

(** C9. Encoding a one-dimensional row is encoding the one-row matrix of
    the same cells and taking row 0 of the result, for both flags. The
    one-row matrix is encoded by the loop over the Features, one call deep.
    Whenever that succeeds with a matrix [E], the row is encoded too, to the
    one-dimensional array of the cells of the only row of [E]; whenever it
    raises, encoding the row raises the same error; the Features are called
    the same way on both paths. *)
Theorem encode_single_row self (m : nat) (cells : list value) (normalize one_hot : bool) :
  let row := np.mk_ndarray [m] cells in
  let Xmat := np.mk_ndarray [1; m] cells in
  np.reshape_rows 1 row = Ok Xmat ∧
  DataHandler.encode self Xmat normalize one_hot =
    DataHandler.encode_matrix self Xmat normalize one_hot ∧
  DataHandler.encode self row normalize one_hot =
    (E ← DataHandler.encode self Xmat normalize one_hot; lift (np.getitem0 E)) ∧
  (∀ E, outcome (DataHandler.encode self Xmat normalize one_hot) = Ok E →
     ∃ W, np.shape E = [1; W] ∧
          outcome (DataHandler.encode self row normalize one_hot) =
          Ok (np.mk_ndarray [W] (take W (np.flat E)))) ∧
  (∀ e, outcome (DataHandler.encode self Xmat normalize one_hot) = Raise e →
     outcome (DataHandler.encode self row normalize one_hot) = Raise e) ∧
  calls (DataHandler.encode self row normalize one_hot) =
    calls (DataHandler.encode self Xmat normalize one_hot) ∧
  ∀ r, outcome (DataHandler.encode self row normalize one_hot) = Ok r →
    ∃ E W, outcome (DataHandler.encode self Xmat normalize one_hot) = Ok E ∧
           np.shape E = [1; W] ∧
           r = np.mk_ndarray [W] (take W (np.flat E)).
Proof.
  intros row Xmat. split; [apply reshape_row|].
  assert (Hmat : DataHandler.encode self Xmat normalize one_hot =
    DataHandler.encode_matrix self Xmat normalize one_hot).
  { unfold DataHandler.encode, DataHandler.recursion_limit.
    subst Xmat. by rewrite (encode_rec_matrix 999). }
  assert (Hrow : DataHandler.encode self row normalize one_hot =
    (E ← DataHandler.encode self Xmat normalize one_hot; lift (np.getitem0 E))).
  { rewrite Hmat. unfold DataHandler.encode, DataHandler.recursion_limit.
    subst row Xmat. by rewrite (encode_rec_row 998). }
  assert (Hfirst : ∀ E, outcome (DataHandler.encode self Xmat normalize one_hot) = Ok E →
    ∃ W, np.shape E = [1; W] ∧
         np.getitem0 E = Ok (np.mk_ndarray [W] (take W (np.flat E)))).
  { intros E HE. rewrite Hmat in HE.
    destruct (encode_matrix_shape _ _ _ _ _ HE) as (n & W & Hn & Hs).
    injection Hn as <-. exists W. split; [done|].
    unfold np.getitem0. rewrite Hs. cbn. by rewrite Nat.mul_1_r. }
  split; [exact Hmat|]. split; [exact Hrow|]. split; [|split; [|split]].
  - intros E HE. destruct (Hfirst E HE) as (W & Hs & Hg).
    exists W. split; [done|]. by rewrite Hrow, outcome_bind, HE, <- Hg.
  - intros e He. by rewrite Hrow, outcome_bind, He.
  - rewrite Hrow. unfold mbind, M_bind.
    destruct (DataHandler.encode self Xmat normalize one_hot) as [l [E|e]];
      cbn; [|done].
    destruct (np.getitem0 E); cbn; by rewrite app_nil_r.
  - intros r Hr. rewrite Hrow, outcome_bind in Hr.
    destruct (outcome (DataHandler.encode self Xmat normalize one_hot)) as [E|e] eqn:HE;
      [|done].
    destruct (Hfirst E eq_refl) as (W & Hs & Hg).
    exists E, W. split; [done|]. split; [done|].
    cbn in Hr. rewrite Hg in Hr. by injection Hr as <-.
Qed.

Lemma encode_single_row_witness :
  outcome (DataHandler.encode Sample.handler
             (np.mk_ndarray [2] [VInt 30; VStr "green"]) true true)
  = Ok (np.mk_ndarray [4] [12; 0; 1; 0]%Z).
Proof.
  destruct (proj1 (proj2 (proj2 (proj2
              (encode_single_row Sample.handler 2 [VInt 30; VStr "green"] true true))))
              (np.mk_ndarray [1; 4] [12; 0; 1; 0]%Z) eq_refl) as (W & Hs & Hr).
  injection Hs as <-. exact Hr.
Defined.

(** ** Decoding a matrix without rows *)

Lemma DataFrame_empty_labels (names : list string) :
  (df_columns (pd.DataFrame_empty names)).*1 = names.
Proof.
  unfold pd.DataFrame_empty; cbn [df_columns].
  rewrite <- list_fmap_compose. apply list_fmap_id.
Qed.

Lemma DataFrame_empty_cells (names : list string) :
  Forall (fun c => c.2 = []) (df_columns (pd.DataFrame_empty names)).
Proof.
  unfold pd.DataFrame_empty; cbn [df_columns].
  apply Forall_fmap, Forall_true. done.
Qed.

(** C8. On an array whose first dimension is 0, [decode] raises nothing and
    calls no method of any Feature (the call log is empty). Asked for a
    table it returns the table without rows whose column labels are the
    names of the Features, in order; asked for an array it returns the array
    of shape (0, number of Features), which has no cell. *)
Theorem decode_zero_rows self (rest : list nat) (cells : list num)
    (denormalize encoded_one_hot : bool) :
  let X := np.mk_ndarray (0 :: rest) cells in
  let df := pd.DataFrame_empty (DataHandler.feature_names self) in
  let arr := np.mk_ndarray [0; DataHandler.n_features self] [] in
  (DataHandler.decode self X denormalize encoded_one_hot true = ([], Ok (Frame df))
   ∧ df_index df = 0
   ∧ (df_columns df).*1 = DataHandler.feature_names self
   ∧ Forall (fun c => c.2 = []) (df_columns df))
  ∧ (DataHandler.decode self X denormalize encoded_one_hot false = ([], Ok (Array arr))
     ∧ np.wf arr).
Proof.
  intros X df arr. repeat split.
  - apply DataFrame_empty_labels.
  - apply DataFrame_empty_cells.
Qed.

(** ** The per-feature loop of [allowed_changes] *)

Lemma per_feature_outcome fs pre_vals post_vals :
  outcome (DataHandler.per_feature fs pre_vals post_vals) =
  Ok (all_allowed fs pre_vals post_vals).
Proof.
  revert pre_vals post_vals.
  induction fs as [|f fs IH]; intros [|a pre] [|b post]; try done.
  cbn [DataHandler.per_feature all_allowed]. rewrite bind_invoke.
  destruct (Feature.allowed_change f a b); cbn; [apply IH|done].
Qed.

Lemma per_feature_calls fs pre_vals post_vals :
  calls (DataHandler.per_feature fs pre_vals post_vals) `prefix_of`
  (fun f => CallAllowedChange (Feature.fid f))
    <$> take (length pre_vals `min` length post_vals) fs.
Proof.
  revert pre_vals post_vals.
  induction fs as [|f fs IH]; intros [|a pre] [|b post];
    try (cbn; apply prefix_nil).
  cbn [DataHandler.per_feature]. rewrite bind_invoke.
  cbn [calls fst length Nat.min take fmap list_fmap].
  destruct (Feature.allowed_change f a b); cbn [negb].
  - apply prefix_cons, IH.
  - apply prefix_cons, prefix_nil.
Qed.

Lemma per_feature_only_allowed_change fs pre_vals post_vals :
  Forall is_allowed_change_call (calls (DataHandler.per_feature fs pre_vals post_vals)).
Proof.
  destruct (per_feature_calls fs pre_vals post_vals) as [k Hk].
  assert (H : Forall is_allowed_change_call
    ((fun f => CallAllowedChange (Feature.fid f))
       <$> take (length pre_vals `min` length post_vals) fs)).
  { apply Forall_fmap, Forall_true. done. }
  rewrite Hk in H. by apply Forall_app in H as [H _].
Qed.

Lemma per_feature_truncates fs pre_vals post_vals :
  let k := length fs `min` (length pre_vals `min` length post_vals) in
  DataHandler.per_feature fs pre_vals post_vals =
  DataHandler.per_feature (take k fs) (take k pre_vals) (take k post_vals).
Proof.
  revert pre_vals post_vals.
  induction fs as [|f fs IH]; intros [|a pre] [|b post]; try done.
  cbn [length Nat.min take DataHandler.per_feature].
  rewrite !bind_invoke.
  destruct (Feature.allowed_change f a b); cbn [negb]; [|done].
  by rewrite <- IH.
Qed.

Lemma all_allowed_reject fs pre_vals post_vals i f a b :
  fs !! i = Some f → pre_vals !! i = Some a → post_vals !! i = Some b →
  Feature.allowed_change f a b = false →
  all_allowed fs pre_vals post_vals = false.
Proof.
  revert fs pre_vals post_vals.
  induction i as [|i IH]; intros [|f' fs] [|a' pre] [|b' post]; try done; cbn.
  - intros [= ->] [= ->] [= ->] ->. done.
  - intros Hf Ha Hb Hr. rewrite (IH _ _ _ Hf Ha Hb Hr). apply andb_false_r.
Qed.

Lemma allowed_changes_vetoed self pre_vals post_vals :
  all_allowed (DataHandler.features self) pre_vals post_vals = false →
  DataHandler.allowed_changes self pre_vals post_vals =
  DataHandler.per_feature (DataHandler.features self) pre_vals post_vals.
Proof.
  intros H. unfold DataHandler.allowed_changes.
  pose proof (per_feature_outcome (DataHandler.features self) pre_vals post_vals) as Ho.
  rewrite H in Ho.
  destruct (DataHandler.per_feature _ _ _) as [t r]. cbn in Ho. subst r.
  cbn. by rewrite app_nil_r.
Qed.

Lemma allowed_changes_passed self pre_vals post_vals :
  all_allowed (DataHandler.features self) pre_vals post_vals = true →
  outcome (DataHandler.allowed_changes self pre_vals post_vals) =
  match outcome (DataHandler.causal_loop self pre_vals post_vals
                   (DataHandler.causal_inc self)) with
  | Ok true => outcome (DataHandler.ordering_loop self post_vals
                          (DataHandler.greater_than self))
  | Ok false => Ok false
  | Raise e => Raise e
  end.
Proof.
  intros H. unfold DataHandler.allowed_changes.
  rewrite outcome_bind, per_feature_outcome, H. cbn [negb].
  rewrite outcome_bind.
  destruct (outcome (DataHandler.causal_loop _ _ _ _)) as [[|]|e]; done.
Qed.

(** C6. When the Feature at some position rejects the change of its cell,
    [allowed_changes] is the per-feature loop alone: it returns [False], the
    only Feature method it has called is [allowed_change], and neither list
    of constraints takes part in the result. An immutable Feature rejects
    any change, so two rows that differ at its position are rejected. *)
Theorem per_feature_veto self (pre_vals post_vals : list value) (i : nat) f a b :
  DataHandler.features self !! i = Some f →
  pre_vals !! i = Some a →
  post_vals !! i = Some b →
  Feature.allowed_change f a b = false
    ∨ (Feature.modifiable f = false ∧ immutable_rejects f ∧ a ≠ b) →
  DataHandler.allowed_changes self pre_vals post_vals =
    DataHandler.per_feature (DataHandler.features self) pre_vals post_vals
  ∧ outcome (DataHandler.allowed_changes self pre_vals post_vals) = Ok false
  ∧ Forall is_allowed_change_call
      (calls (DataHandler.allowed_changes self pre_vals post_vals)).
Proof.
  intros Hf Ha Hb Hrej.
  assert (Hr : Feature.allowed_change f a b = false).
  { destruct Hrej as [H|(Hm & Hc & Hne)]; [done|]. by apply Hc. }
  pose proof (all_allowed_reject _ _ _ _ _ _ _ Hf Ha Hb Hr) as Hall.
  rewrite (allowed_changes_vetoed _ _ _ Hall).
  split; [done|]. split.
  - by rewrite per_feature_outcome, Hall.
  - apply per_feature_only_allowed_change.
Qed.

Lemma per_feature_veto_witness :
  DataHandler.allowed_changes Sample.registry [VInt 1980; VStr "red"] [VInt 1990; VStr "red"] =
    DataHandler.per_feature (DataHandler.features Sample.registry)
      [VInt 1980; VStr "red"] [VInt 1990; VStr "red"]
  ∧ outcome (DataHandler.allowed_changes Sample.registry
               [VInt 1980; VStr "red"] [VInt 1990; VStr "red"]) = Ok false
  ∧ Forall is_allowed_change_call
      (calls (DataHandler.allowed_changes Sample.registry
                [VInt 1980; VStr "red"] [VInt 1990; VStr "red"])).
Proof.
  apply (per_feature_veto Sample.registry _ _ 0 Sample.born (VInt 1980) (VInt 1990));
    [reflexivity | reflexivity | reflexivity |].
  right. split; [reflexivity|]. split; [|discriminate].
  intros _ x y Hxy. cbn. by apply bool_decide_eq_false.
Defined.

Lemma take_min_length {A} (l : list A) (m : nat) :
  take (length l `min` m) l = take m l.
Proof.
  rewrite <- take_take. apply take_ge. rewrite length_take. lia.
Qed.

(** C10. The first loop of [allowed_changes] checks no length: over rows
    shorter than the Feature list it is the loop over the first
    [k = min(len(features), len(pre_vals), len(post_vals))] positions. It
    raises nothing, its result is the conjunction of the answers of the
    first [k] Features, the Features from position [k] on receive no call,
    and a handler without constraints returns that conjunction. *)
Theorem per_feature_zip_truncation self (pre_vals post_vals : list value) :
  let fs := DataHandler.features self in
  let k := length fs `min` (length pre_vals `min` length post_vals) in
  DataHandler.per_feature fs pre_vals post_vals =
    DataHandler.per_feature (take k fs) (take k pre_vals) (take k post_vals)
  ∧ outcome (DataHandler.per_feature fs pre_vals post_vals) =
      Ok (all_allowed (take k fs) (take k pre_vals) (take k post_vals))
  ∧ calls (DataHandler.per_feature fs pre_vals post_vals) `prefix_of`
      (fun f => CallAllowedChange (Feature.fid f)) <$> take k fs
  ∧ (DataHandler.causal_inc self = [] → DataHandler.greater_than self = [] →
     DataHandler.allowed_changes self pre_vals post_vals =
       (calls (DataHandler.per_feature fs pre_vals post_vals),
        Ok (all_allowed (take k fs) (take k pre_vals) (take k post_vals)))).
Proof.
  intros fs k.
  pose proof (per_feature_truncates fs pre_vals post_vals) as Ht.
  fold k in Ht.
  assert (Ho : outcome (DataHandler.per_feature fs pre_vals post_vals) =
    Ok (all_allowed (take k fs) (take k pre_vals) (take k post_vals))).
  { rewrite Ht. apply per_feature_outcome. }
  split; [done|]. split; [done|]. split.
  - unfold k. rewrite take_min_length. apply per_feature_calls.
  - intros Hc Hg. unfold DataHandler.allowed_changes. rewrite Hc, Hg. fold fs.
    destruct (DataHandler.per_feature fs pre_vals post_vals) as [t r].
    cbn in Ho. subst r. cbn.
    destruct (all_allowed _ _ _); cbn; by rewrite ?app_nil_r.
Qed.

Example zip_truncation_short_rows :
  DataHandler.allowed_changes Sample.registry [VInt 1980] [VInt 1980; VStr "blue"] =
  ([CallAllowedChange 2], Ok true).
Proof. reflexivity. Qed.

(** ** The causal-implication loop *)

Lemma lookup_cell_ok self row f v :
  lookup_cell self row f = Ok v →
  ∃ i, DataHandler.index (DataHandler.features self) f = Ok i ∧ getitem row i = Ok v.
Proof.
  unfold lookup_cell.
  destruct (DataHandler.index _ f) as [i|e]; [|done]. cbn. eauto.
Qed.

Lemma cell_ok self row f v : lookup_cell self row f = Ok v → cell self row f = v.
Proof. unfold cell. by intros ->. Qed.

Lemma cause_applied_outcome self pre_vals post_vals cause a b :
  lookup_cell self pre_vals cause = Ok a →
  lookup_cell self post_vals cause = Ok b →
  outcome (DataHandler.cause_applied self pre_vals post_vals cause) =
  if supported cause then Ok (increased cause a b)
  else Raise (ValueError "invalid feature type").
Proof.
  intros Ha Hb.
  destruct (lookup_cell_ok _ _ _ _ Ha) as (i & Hi & Hai).
  destruct (lookup_cell_ok _ _ _ _ Hb) as (i' & Hi' & Hbi).
  rewrite Hi in Hi'. injection Hi' as <-.
  unfold DataHandler.cause_applied, supported, increased.
  rewrite Hi, bind_lift_ok, Hai, bind_lift_ok, bind_invoke.
  cbn [outcome snd]. rewrite Hbi, bind_lift_ok, bind_invoke. cbn [outcome snd].
  destruct (Feature.kind cause); [done| |].
  - by rewrite bind_invoke.
  - done.
Qed.

Lemma effect_follows_outcome self pre_vals post_vals effect c d :
  lookup_cell self pre_vals effect = Ok c →
  lookup_cell self post_vals effect = Ok d →
  outcome (DataHandler.effect_follows self pre_vals post_vals effect) =
  if supported effect then Ok (effect_passes effect c d)
  else Raise (ValueError "invalid feature type").
Proof.
  intros Hc Hd.
  destruct (lookup_cell_ok _ _ _ _ Hc) as (i & Hi & Hci).
  destruct (lookup_cell_ok _ _ _ _ Hd) as (i' & Hi' & Hdi).
  rewrite Hi in Hi'. injection Hi' as <-.
  unfold DataHandler.effect_follows, supported, effect_passes.
  rewrite Hi, bind_lift_ok, Hci, bind_lift_ok, bind_invoke.
  cbn [outcome snd]. rewrite Hdi, bind_lift_ok, bind_invoke. cbn [outcome snd].
  destruct (Feature.kind effect); [done| |].
  - rewrite bind_invoke. cbn [outcome snd]. by destruct (bool_decide _).
  - by destruct (scalar_le _ _).
Qed.

(** On numbers the failure of [<=] is [>]; with a NaN on either side both
    comparisons fail. *)
Lemma scalar_le_gt (x y : num) :
  negb (scalar_le (Number x) (Number y)) = scalar_gt (Number x) (Number y).
Proof.
  cbn. destruct (bool_decide_reflect (x ≤ y)%Z) as [H|H]; cbn; symmetry.
  - apply bool_decide_eq_false. lia.
  - apply bool_decide_eq_true. lia.
Qed.

Lemma scalar_nan_passes (a b : scalar) :
  a = NaN ∨ b = NaN → scalar_gt a b = false ∧ negb (scalar_le a b) = true.
Proof. intros [-> | ->]; by destruct a || destruct b. Qed.

Lemma effect_passes_comparable f before after :
  comparable f before after = true →
  effect_passes f before after = increased f before after.
Proof.
  unfold comparable, effect_passes, increased.
  destruct (Feature.kind f); [done|done|].
  destruct (Feature.encode_value f before false false) as [x|]; [|done].
  destruct (Feature.encode_value f after false false) as [y|]; [|done].
  intros _. apply scalar_le_gt.
Qed.

Lemma pair_passes_comparable self pre_vals post_vals p :
  pair_comparable self pre_vals post_vals p = true →
  pair_passes self pre_vals post_vals p = pair_holds self pre_vals post_vals p.
Proof.
  unfold pair_comparable, pair_passes, pair_holds, comparable_in, effect_passes_in,
    increased_in.
  destruct (increased p.1 _ _); [|done]. cbn. apply effect_passes_comparable.
Qed.

Lemma forallb_passes_comparable self pre_vals post_vals pairs :
  forallb (pair_comparable self pre_vals post_vals) pairs = true →
  forallb (pair_passes self pre_vals post_vals) pairs
  = forallb (pair_holds self pre_vals post_vals) pairs.
Proof.
  induction pairs as [|p pairs IH]; [done|]. cbn [forallb].
  intros [Hp Hps]%andb_prop. by rewrite (pair_passes_comparable _ _ _ _ Hp), IH.
Qed.

Lemma cause_applied_absent self pre_vals post_vals cause e :
  DataHandler.index (DataHandler.features self) cause = Raise e →
  outcome (DataHandler.cause_applied self pre_vals post_vals cause) = Raise e.
Proof. intros H. unfold DataHandler.cause_applied. by rewrite H. Qed.

Lemma effect_follows_absent self pre_vals post_vals effect e :
  DataHandler.index (DataHandler.features self) effect = Raise e →
  outcome (DataHandler.effect_follows self pre_vals post_vals effect) = Raise e.
Proof. intros H. unfold DataHandler.effect_follows. by rewrite H. Qed.

Lemma index_raises fs x e :
  DataHandler.index fs x = Raise e → e = ValueError "x is not in list".
Proof.
  induction fs as [|f fs IH]; cbn.
  - by intros [= <-].
  - destruct (_ =? _); [done|].
    destruct (DataHandler.index fs x); [done|]. cbn. intros [= <-]. by apply IH.
Qed.

Lemma is_ok_inv {A} (r : result A) : is_ok r = true → ∃ a, r = Ok a.
Proof. destruct r; [eauto|done]. Qed.

Lemma resolved_inv self pre_vals post_vals f :
  resolved self pre_vals post_vals f = true →
  lookup_cell self pre_vals f = Ok (cell self pre_vals f)
  ∧ lookup_cell self post_vals f = Ok (cell self post_vals f)
  ∧ supported f = true.
Proof.
  unfold resolved. intros [[Ha Hb]%andb_prop Hs]%andb_prop.
  apply is_ok_inv in Ha as [a Ha]. apply is_ok_inv in Hb as [b Hb].
  by rewrite (cell_ok _ _ _ _ Ha), (cell_ok _ _ _ _ Hb).
Qed.

Lemma causal_pair_outcome self pre_vals post_vals cause effect :
  pair_resolved self pre_vals post_vals (cause, effect) = true →
  outcome (DataHandler.causal_pair self pre_vals post_vals cause effect) =
  Ok (pair_passes self pre_vals post_vals (cause, effect)).
Proof.
  unfold pair_resolved, pair_passes, increased_in, effect_passes_in. cbn [fst snd].
  intros [Hc He]%andb_prop.
  apply resolved_inv in Hc as (Ha & Hb & Hs).
  unfold DataHandler.causal_pair.
  rewrite outcome_bind, (cause_applied_outcome _ _ _ _ _ _ Ha Hb), Hs.
  destruct (increased cause _ _); [|done].
  cbn in He. apply resolved_inv in He as (Hc & Hd & Hs').
  by rewrite (effect_follows_outcome _ _ _ _ _ _ Hc Hd), Hs'.
Qed.

Lemma causal_loop_outcome self pre_vals post_vals pairs :
  forallb (pair_resolved self pre_vals post_vals) pairs = true →
  outcome (DataHandler.causal_loop self pre_vals post_vals pairs) =
  Ok (forallb (pair_passes self pre_vals post_vals) pairs).
Proof.
  induction pairs as [|[cause effect] pairs IH]; [done|].
  cbn [forallb DataHandler.causal_loop]. intros [Hp Hps]%andb_prop.
  rewrite outcome_bind, (causal_pair_outcome _ _ _ _ _ Hp).
  destruct (pair_passes _ _ _ _); cbn; [by apply IH|done].
Qed.



(** A reading that is missing after the change: the encoding of the effect
    is NaN, [pos_effect <= pre_effect] is false and the pair passes, although
    the cause increased and the effect did not. *)
Example missing_reading_passes :
  pair_comparable Sample.metered [VInt 1; VInt 1] [VInt 2; VStr "n/a"]
    (Sample.cause_C, Sample.effect_G) = false
  ∧ increased_in Sample.metered [VInt 1; VInt 1] [VInt 2; VStr "n/a"] Sample.cause_C
    = true
  ∧ increased_in Sample.metered [VInt 1; VInt 1] [VInt 2; VStr "n/a"] Sample.effect_G
    = false
  ∧ outcome (DataHandler.allowed_changes Sample.metered [VInt 1; VInt 1]
               [VInt 2; VStr "n/a"]) = Ok true.
Proof. repeat split. Qed.

Example causal_both_increase :
  outcome (DataHandler.allowed_changes Sample.linked [VInt 1; VInt 1] [VInt 2; VInt 2])
  = Ok true.
Proof. reflexivity. Qed.

Example causal_effect_stays :
  outcome (DataHandler.allowed_changes Sample.linked [VInt 1; VInt 1] [VInt 2; VInt 1])
  = Ok false.
Proof. reflexivity. Qed.

Example causal_cause_decreases :
  outcome (DataHandler.allowed_changes Sample.linked [VInt 2; VInt 1] [VInt 1; VInt 5])
  = Ok true.
Proof. reflexivity. Qed.

(** ** The ordering loop *)

Lemma value_gt_int (x y : Z) :
  value_gt (VInt x) (VInt y) = Ok (bool_decide (y < x)%Z).
Proof.
  cbn. f_equal. destruct (Z.ltb_spec y x).
  - symmetry. by apply bool_decide_eq_true.
  - symmetry. apply bool_decide_eq_false. lia.
Qed.

Lemma ordering_loop_outcome self post_vals pairs :
  forallb (fun p => is_ok (ordering_compare self post_vals p)) pairs = true →
  outcome (DataHandler.ordering_loop self post_vals pairs) =
  Ok (forallb (fun p => negb (exceeds self post_vals p)) pairs).
Proof.
  induction pairs as [|[greater smaller] pairs IH]; [done|].
  cbn [forallb DataHandler.ordering_loop]. intros [Hp Hps]%andb_prop.
  unfold exceeds at 1. unfold ordering_compare, lookup_cell in Hp |- *.
  cbn [fst snd] in Hp |- *.
  destruct (DataHandler.index _ smaller) as [si|e]; [|done].
  rewrite bind_lift_ok. cbn [mbind result_bind] in Hp |- *.
  destruct (getitem post_vals si) as [s|e]; [|done].
  rewrite bind_lift_ok.
  destruct (DataHandler.index _ greater) as [gi|e]; [|done].
  rewrite bind_lift_ok. cbn [mbind result_bind] in Hp |- *.
  destruct (getitem post_vals gi) as [g|e]; [|done].
  rewrite bind_lift_ok. cbn [mbind result_bind] in Hp |- *.
  destruct (value_gt s g) as [[|]|e]; [done| |done].
  rewrite bind_lift_ok. cbn [negb andb]. by apply IH.
Qed.

(** C5. Once the per-feature checks and the causal loop pass, and when
    every ordering pair can be compared on the after-row, [allowed_changes]
    returns [False] exactly when for some (greater, smaller) pair the cell of
    the smaller Feature in the after-row exceeds the cell of the greater one.
    The comparison is Python's [>] on the raw cells of the after-row, the
    before-row takes no part in it, and on numbers it is strict: equal cells
    pass. *)
Theorem ordering_constraint self (pre_vals post_vals : list value) :
  all_allowed (DataHandler.features self) pre_vals post_vals = true →
  outcome (DataHandler.causal_loop self pre_vals post_vals
             (DataHandler.causal_inc self)) = Ok true →
  forallb (fun p => is_ok (ordering_compare self post_vals p))
    (DataHandler.greater_than self) = true →
  outcome (DataHandler.allowed_changes self pre_vals post_vals) =
    Ok (forallb (fun p => negb (exceeds self post_vals p))
          (DataHandler.greater_than self))
  ∧ (∀ greater smaller s g,
       lookup_cell self post_vals smaller = Ok s →
       lookup_cell self post_vals greater = Ok g →
       ordering_compare self post_vals (greater, smaller) = value_gt s g)
  ∧ (∀ x y : Z, value_gt (VInt x) (VInt y) = Ok (bool_decide (y < x)%Z)).
Proof.
  intros Hall Hc Hres. split; [|split].
  - rewrite (allowed_changes_passed _ _ _ Hall), Hc.
    by apply ordering_loop_outcome.
  - intros greater smaller s g Hs Hg. unfold ordering_compare. cbn [fst snd].
    by rewrite Hs, Hg.
  - apply value_gt_int.
Qed.

Lemma ordering_constraint_witness :
  outcome (DataHandler.allowed_changes Sample.ordered [VInt 5; VInt 5] [VInt 5; VInt 6])
  = Ok false.
Proof.
  exact (proj1 (ordering_constraint Sample.ordered [VInt 5; VInt 5] [VInt 5; VInt 6]
                  eq_refl eq_refl eq_refl)).
Defined.

Example ordering_exceeded :
  outcome (DataHandler.allowed_changes Sample.ordered [VInt 5; VInt 5] [VInt 5; VInt 6])
  = Ok false.
Proof. reflexivity. Qed.

Example ordering_equal :
  outcome (DataHandler.allowed_changes Sample.ordered [VInt 5; VInt 6] [VInt 5; VInt 5])
  = Ok true.
Proof. reflexivity. Qed.

(** ** Misconfigured constraints *)

Lemma causal_loop_app self pre_vals post_vals ps qs :
  outcome (DataHandler.causal_loop self pre_vals post_vals ps) = Ok true →
  outcome (DataHandler.causal_loop self pre_vals post_vals (ps ++ qs)) =
  outcome (DataHandler.causal_loop self pre_vals post_vals qs).
Proof.
  induction ps as [|[cause effect] ps IH]; [done|].
  cbn [app DataHandler.causal_loop]. rewrite !outcome_bind.
  destruct (outcome (DataHandler.causal_pair _ _ _ _ _)) as [[|]|e]; cbn; done.
Qed.

Lemma ordering_loop_step self post_vals p pairs :
  outcome (DataHandler.ordering_loop self post_vals (p :: pairs)) =
  match ordering_compare self post_vals p with
  | Ok true => Ok false
  | Ok false => outcome (DataHandler.ordering_loop self post_vals pairs)
  | Raise e => Raise e
  end.
Proof.
  destruct p as [greater smaller].
  cbn [DataHandler.ordering_loop]. unfold ordering_compare, lookup_cell.
  cbn [fst snd].
  destruct (DataHandler.index _ smaller) as [si|e]; [|done].
  rewrite bind_lift_ok. cbn [mbind result_bind].
  destruct (getitem post_vals si) as [s|e]; [|done].
  rewrite bind_lift_ok.
  destruct (DataHandler.index _ greater) as [gi|e]; [|done].
  rewrite bind_lift_ok. cbn [mbind result_bind].
  destruct (getitem post_vals gi) as [g|e]; [|done].
  rewrite bind_lift_ok. cbn [mbind result_bind].
  destruct (value_gt s g) as [[|]|e]; [done| |done].
  by rewrite bind_lift_ok.
Qed.

Lemma ordering_loop_app self post_vals ps qs :
  outcome (DataHandler.ordering_loop self post_vals ps) = Ok true →
  outcome (DataHandler.ordering_loop self post_vals (ps ++ qs)) =
  outcome (DataHandler.ordering_loop self post_vals qs).
Proof.
  induction ps as [|p ps IH]; [done|].
  cbn [app]. rewrite !ordering_loop_step.
  destruct (ordering_compare self post_vals p) as [[|]|e]; done.
Qed.

Lemma absent_inv self f :
  absent self f = true →
  DataHandler.index (DataHandler.features self) f = Raise (ValueError "x is not in list").
Proof.
  unfold absent.
  destruct (DataHandler.index _ f) as [i|e] eqn:H; [done|].
  intros _. by rewrite (index_raises _ _ _ H).
Qed.

Lemma has_cells_inv self pre_vals post_vals f :
  has_cells self pre_vals post_vals f = true →
  lookup_cell self pre_vals f = Ok (cell self pre_vals f)
  ∧ lookup_cell self post_vals f = Ok (cell self post_vals f).
Proof.
  unfold has_cells. intros [Ha Hb]%andb_prop.
  apply is_ok_inv in Ha as [a Ha]. apply is_ok_inv in Hb as [b Hb].
  by rewrite (cell_ok _ _ _ _ Ha), (cell_ok _ _ _ _ Hb).
Qed.

Lemma causal_pair_defect self pre_vals post_vals cause effect :
  causal_defect self pre_vals post_vals (cause, effect) = true →
  configuration_error
    (outcome (DataHandler.causal_pair self pre_vals post_vals cause effect)).
Proof.
  unfold causal_defect, DataHandler.causal_pair. cbn [fst snd].
  rewrite outcome_bind.
  intros [Habs|[Hcells Hd]%andb_prop]%orb_prop.
  { left. by rewrite (cause_applied_absent _ _ _ _ _ (absent_inv _ _ Habs)). }
  apply has_cells_inv in Hcells as [Ha Hb].
  rewrite (cause_applied_outcome _ _ _ _ _ _ Ha Hb).
  apply orb_prop in Hd as [Hs|[Hinc He]%andb_prop].
  { right. by destruct (supported cause). }
  destruct (supported cause); [|by right].
  unfold increased_in in Hinc. rewrite Hinc.
  apply orb_prop in He as [Habs|[Hcells Hs]%andb_prop].
  { left. by rewrite (effect_follows_absent _ _ _ _ _ (absent_inv _ _ Habs)). }
  apply has_cells_inv in Hcells as [Hc Hd].
  rewrite (effect_follows_outcome _ _ _ _ _ _ Hc Hd).
  right. by destruct (supported effect).
Qed.

Lemma ordering_compare_defect self post_vals p :
  ordering_defect self post_vals p = true →
  ordering_compare self post_vals p = Raise (ValueError "x is not in list").
Proof.
  unfold ordering_defect, ordering_compare.
  intros [Habs|[Hs Habs]%andb_prop]%orb_prop.
  - unfold lookup_cell. by rewrite (absent_inv _ _ Habs).
  - apply is_ok_inv in Hs as [s ->]. cbn.
    unfold lookup_cell. by rewrite (absent_inv _ _ Habs).
Qed.

Lemma getitem_raises {A} (l : list A) i e : getitem l i = Raise e → e = IndexError.
Proof. unfold getitem. destruct (l !! i); [done|]. by intros [= <-]. Qed.

Lemma lookup_cell_short self row f :
  absent self f = false →
  is_ok (lookup_cell self row f) = false →
  lookup_cell self row f = Raise IndexError.
Proof.
  unfold absent, lookup_cell.
  destruct (DataHandler.index _ f) as [i|e]; [|done]. cbn. intros _.
  destruct (getitem row i) as [v|e] eqn:Hv; [done|].
  by rewrite (getitem_raises _ _ _ Hv).
Qed.

Lemma cause_applied_short self pre_vals post_vals cause :
  absent self cause = false →
  has_cells self pre_vals post_vals cause = false →
  outcome (DataHandler.cause_applied self pre_vals post_vals cause) = Raise IndexError.
Proof.
  unfold absent, has_cells, lookup_cell, DataHandler.cause_applied.
  destruct (DataHandler.index _ cause) as [i|e]; [|done]. cbn [mbind result_bind].
  intros _ Hc. rewrite bind_lift_ok.
  destruct (getitem pre_vals i) as [a|e] eqn:Ha.
  2:{ by rewrite (getitem_raises _ _ _ Ha). }
  rewrite bind_lift_ok, bind_invoke. cbn [outcome snd].
  destruct (getitem post_vals i) as [b|e] eqn:Hb; [done|].
  by rewrite (getitem_raises _ _ _ Hb).
Qed.

Lemma effect_follows_short self pre_vals post_vals effect :
  absent self effect = false →
  has_cells self pre_vals post_vals effect = false →
  outcome (DataHandler.effect_follows self pre_vals post_vals effect) = Raise IndexError.
Proof.
  unfold absent, has_cells, lookup_cell, DataHandler.effect_follows.
  destruct (DataHandler.index _ effect) as [i|e]; [|done]. cbn [mbind result_bind].
  intros _ Hc. rewrite bind_lift_ok.
  destruct (getitem pre_vals i) as [a|e] eqn:Ha.
  2:{ by rewrite (getitem_raises _ _ _ Ha). }
  rewrite bind_lift_ok, bind_invoke. cbn [outcome snd].
  destruct (getitem post_vals i) as [b|e] eqn:Hb; [done|].
  by rewrite (getitem_raises _ _ _ Hb).
Qed.

Lemma causal_pair_short self pre_vals post_vals cause effect :
  causal_short self pre_vals post_vals (cause, effect) = true →
  outcome (DataHandler.causal_pair self pre_vals post_vals cause effect)
  = Raise IndexError.
Proof.
  unfold causal_short, DataHandler.causal_pair. cbn [fst snd].
  rewrite outcome_bind.
  intros [Hp%negb_true_iff [Hc%negb_true_iff|H]%orb_prop]%andb_prop.
  { by rewrite (cause_applied_short _ _ _ _ Hp Hc). }
  apply andb_prop in H as [[[Hs Hinc]%andb_prop He%negb_true_iff]%andb_prop
                             Hec%negb_true_iff].
  destruct (has_cells self pre_vals post_vals cause) eqn:Hc.
  2:{ by rewrite (cause_applied_short _ _ _ _ Hp Hc). }
  apply has_cells_inv in Hc as [Ha Hb].
  rewrite (cause_applied_outcome _ _ _ _ _ _ Ha Hb), Hs.
  unfold increased_in in Hinc. rewrite Hinc.
  by rewrite (effect_follows_short _ _ _ _ He Hec).
Qed.

Lemma ordering_compare_short self post_vals p :
  ordering_short self post_vals p = true →
  ordering_compare self post_vals p = Raise IndexError.
Proof.
  unfold ordering_short, ordering_compare.
  intros [Hp%negb_true_iff [Hs%negb_true_iff|[Hg%negb_true_iff Hgc%negb_true_iff]
    %andb_prop]%orb_prop]%andb_prop.
  { by rewrite (lookup_cell_short _ _ _ Hp Hs). }
  destruct (is_ok (lookup_cell self post_vals p.2)) eqn:Hs.
  - apply is_ok_inv in Hs as [s ->]. cbn.
    by rewrite (lookup_cell_short _ _ _ Hg Hgc).
  - by rewrite (lookup_cell_short _ _ _ Hp Hs).
Qed.

(** The effect of a causal pair is not looked at when the cause did not
    increase: the pair passes, and the Feature methods called are those of
    the cause. *)
Lemma causal_pair_skipped self pre_vals post_vals cause effect :
  resolved self pre_vals post_vals cause = true →
  increased_in self pre_vals post_vals cause = false →
  DataHandler.causal_pair self pre_vals post_vals cause effect =
  (calls (DataHandler.cause_applied self pre_vals post_vals cause), Ok true).
Proof.
  intros (Ha & Hb & Hs)%resolved_inv Hinc.
  pose proof (cause_applied_outcome _ _ _ _ _ _ Ha Hb) as Ho.
  unfold increased_in in Hinc. rewrite Hs, Hinc in Ho.
  unfold DataHandler.causal_pair.
  destruct (DataHandler.cause_applied _ _ _ _) as [t r]. cbn in Ho. subst r.
  cbn. by rewrite app_nil_r.
Qed.

(** C4, as the code has it. The constructor stores its arguments and
    validates nothing. [allowed_changes] raises [ValueError] at the first
    constraint pair whose evaluation meets the misconfiguration, provided the
    evaluation gets there: the per-feature checks passed and the pairs before
    it passed. A causal pair meets it when its cause is absent from the
    Feature list; when both rows have a cell at the position of the cause and
    the cause is neither Categorical nor Contiguous; or when the cause
    increased and its effect is absent or, both rows having a cell at its
    position, of such a kind. An ordering pair meets it when its smaller
    Feature is absent or, the after-row having a cell at the position of the
    smaller one, its greater Feature is absent. The rows are indexed before
    the kind is tested: where a Feature of the pair is in the list at a
    position that a row lacks, the evaluation raises [IndexError] instead. A
    causal pair whose cause did not increase passes without its effect being
    looked at. *)
Theorem misconfiguration_raises self (pre_vals post_vals : list value) :
  all_allowed (DataHandler.features self) pre_vals post_vals = true →
  (∀ ps p qs,
     DataHandler.causal_inc self = ps ++ p :: qs →
     outcome (DataHandler.causal_loop self pre_vals post_vals ps) = Ok true →
     causal_defect self pre_vals post_vals p = true →
     configuration_error (outcome (DataHandler.allowed_changes self pre_vals post_vals)))
  ∧ (∀ ps p qs,
       outcome (DataHandler.causal_loop self pre_vals post_vals
                  (DataHandler.causal_inc self)) = Ok true →
       DataHandler.greater_than self = ps ++ p :: qs →
       outcome (DataHandler.ordering_loop self post_vals ps) = Ok true →
       ordering_defect self post_vals p = true →
       configuration_error (outcome (DataHandler.allowed_changes self pre_vals post_vals)))
  ∧ (∀ cause effect,
       resolved self pre_vals post_vals cause = true →
       increased_in self pre_vals post_vals cause = false →
       DataHandler.causal_pair self pre_vals post_vals cause effect =
       (calls (DataHandler.cause_applied self pre_vals post_vals cause), Ok true))
  ∧ (∀ ps p qs,
       DataHandler.causal_inc self = ps ++ p :: qs →
       outcome (DataHandler.causal_loop self pre_vals post_vals ps) = Ok true →
       causal_short self pre_vals post_vals p = true →
       outcome (DataHandler.allowed_changes self pre_vals post_vals) = Raise IndexError)
  ∧ (∀ ps p qs,
       outcome (DataHandler.causal_loop self pre_vals post_vals
                  (DataHandler.causal_inc self)) = Ok true →
       DataHandler.greater_than self = ps ++ p :: qs →
       outcome (DataHandler.ordering_loop self post_vals ps) = Ok true →
       ordering_short self post_vals p = true →
       outcome (DataHandler.allowed_changes self pre_vals post_vals) = Raise IndexError).
Proof.
  intros Hall. split; [|split; [|split; [|split]]].
  - intros ps [cause effect] qs Hlist Hps Hd.
    rewrite (allowed_changes_passed _ _ _ Hall), Hlist.
    rewrite (causal_loop_app _ _ _ _ _ Hps).
    cbn [DataHandler.causal_loop]. rewrite outcome_bind.
    destruct (causal_pair_defect _ _ _ _ _ Hd) as [-> | ->]; [by left|by right].
  - intros ps p qs Hc Hlist Hps Hd.
    rewrite (allowed_changes_passed _ _ _ Hall), Hc, Hlist.
    rewrite (ordering_loop_app _ _ _ _ Hps), ordering_loop_step.
    rewrite (ordering_compare_defect _ _ _ Hd). by left.
  - apply causal_pair_skipped.
  - intros ps [cause effect] qs Hlist Hps Hd.
    rewrite (allowed_changes_passed _ _ _ Hall), Hlist.
    rewrite (causal_loop_app _ _ _ _ _ Hps).
    cbn [DataHandler.causal_loop]. rewrite outcome_bind.
    by rewrite (causal_pair_short _ _ _ _ _ Hd).
  - intros ps p qs Hc Hlist Hps Hd.
    rewrite (allowed_changes_passed _ _ _ Hall), Hc, Hlist.
    rewrite (ordering_loop_app _ _ _ _ Hps), ordering_loop_step.
    by rewrite (ordering_compare_short _ _ _ Hd).
Qed.

Lemma misconfiguration_raises_witness :
  configuration_error
    (outcome (DataHandler.allowed_changes Sample.dangling [VInt 1] [VInt 2])).
Proof.
  apply (proj1 (misconfiguration_raises Sample.dangling [VInt 1] [VInt 2] eq_refl)
           [] (Sample.cause_C, Sample.flag) []); reflexivity.
Defined.

(** C4, as stated, fails: this handler was built with a causal pair whose
    effect is a Binary Feature that is not in its Feature list, and
    [allowed_changes] on a cause that decreases raises nothing and
    returns [True]. *)
Lemma dangling_effect_ignored :
  Sample.dangling =
    DataHandler.init [Sample.cause_C] None (Some [(Sample.cause_C, Sample.flag)]) None
  ∧ DataHandler.causal_inc Sample.dangling = [(Sample.cause_C, Sample.flag)]
  ∧ absent Sample.dangling Sample.flag = true
  ∧ supported Sample.flag = false
  ∧ outcome (DataHandler.allowed_changes Sample.dangling [VInt 2] [VInt 1]) = Ok true.
Proof. repeat split. Qed.

Example missing_cause_raises :
  outcome (DataHandler.allowed_changes Sample.missing_cause [VInt 1] [VInt 2])
  = Raise (ValueError "x is not in list").
Proof. reflexivity. Qed.

Example missing_smaller_raises :
  outcome (DataHandler.allowed_changes Sample.missing_smaller [VInt 1] [VInt 2])
  = Raise (ValueError "x is not in list").
Proof. reflexivity. Qed.

Example unsupported_effect_raises :
  outcome (DataHandler.allowed_changes Sample.dangling [VInt 1] [VInt 2])
  = Raise (ValueError "x is not in list").
Proof. reflexivity. Qed.

(** ** Rows and blocks of cells *)

Section chunks.
Context {A : Type}.
Implicit Types (l : list A) (rows : list (list A)).

Lemma length_concat_sum rows :
  length (concat rows) = sum_list (length <$> rows).
Proof.
  induction rows as [|row rows IH]; [done|].
  cbn. rewrite length_app. lia.
Qed.

Lemma chunks_length k cnt l : length (np.chunks k cnt l) = cnt.
Proof. unfold np.chunks. by rewrite length_fmap, length_seq. Qed.

Lemma chunks_S k cnt l :
  np.chunks k (S cnt) l = take k l :: np.chunks k cnt (drop k l).
Proof.
  unfold np.chunks. cbn [seq fmap list_fmap]. f_equal.
  rewrite <- fmap_S_seq, <- list_fmap_compose.
  apply list_fmap_ext. intros _ r _. cbn.
  by rewrite drop_drop.
Qed.

Lemma chunks_concat k rows :
  Forall (fun row => length row = k) rows →
  np.chunks k (length rows) (concat rows) = rows.
Proof.
  induction 1 as [|row rows Hrow _ IH]; [done|].
  cbn [length concat]. rewrite chunks_S. subst k.
  rewrite take_app_length, drop_app_length. by rewrite IH.
Qed.

Lemma concat_chunks k cnt l :
  length l = cnt * k → concat (np.chunks k cnt l) = l.
Proof.
  revert l. induction cnt as [|cnt IH]; intros l Hl.
  - by destruct l.
  - rewrite chunks_S. cbn [concat]. rewrite IH; [apply take_drop|].
    rewrite length_drop. lia.
Qed.

Lemma chunks_widths k cnt l :
  cnt * k ≤ length l →
  Forall (fun row => length row = k) (np.chunks k cnt l).
Proof.
  revert l. induction cnt as [|cnt IH]; intros l Hl; [constructor|].
  rewrite chunks_S. constructor.
  - rewrite length_take. lia.
  - apply IH. rewrite length_drop. lia.
Qed.

(** The block at position [i] of a row made of consecutive blocks. *)
Lemma block_of_concat (blocks : list (list A)) i b :
  blocks !! i = Some b →
  take (length b) (drop (sum_list (length <$> take i blocks)) (concat blocks)) = b.
Proof.
  revert i. induction blocks as [|b0 blocks IH]; intros [|i]; try done; cbn.
  - intros [= ->]. rewrite drop_0. by rewrite take_app_length.
  - intros Hb. rewrite drop_app_add'; [by apply IH|done].
Qed.

End chunks.

Section join.
Context {A : Type}.
Implicit Types (parts : list (list (list A))) (ws : list nat).

Lemma rows_of_lookups n (p : list (list A)) :
  length p = n → (fun r => default [] (p !! r)) <$> seq 0 n = p.
Proof.
  intros Hn. apply list_eq. intros r. rewrite list_lookup_fmap.
  destruct (decide (r < n)) as [Hr|Hr].
  - rewrite lookup_seq_lt by done. cbn.
    destruct (lookup_lt_is_Some_2 p r) as [row Hrow]; [lia|]. by rewrite Hrow.
  - rewrite lookup_seq_ge by lia. cbn. symmetry. apply lookup_ge_None. lia.
Qed.

Lemma part_rows_lengths n parts ws r :
  parts_wf n parts ws → r < n →
  length <$> ((fun rows => default [] (rows !! r)) <$> parts) = ws.
Proof.
  intros Hwf Hr. induction Hwf as [|p w parts ws [Hn Hrows] _ IH]; [done|].
  cbn. f_equal; [|done].
  destruct (lookup_lt_is_Some_2 p r) as [row Hrow]; [lia|]. rewrite Hrow. cbn.
  by apply (Forall_lookup_1 _ _ _ _ Hrows Hrow).
Qed.

Lemma joined_row_length n parts ws r :
  parts_wf n parts ws → r < n →
  length (concat ((fun rows => default [] (rows !! r)) <$> parts)) = sum_list ws.
Proof.
  intros Hwf Hr. rewrite length_concat_sum.
  by rewrite (part_rows_lengths n parts ws r).
Qed.

Lemma chunks_join_rows n parts ws :
  parts_wf n parts ws →
  np.chunks (sum_list ws) n (np.join_rows n parts) =
  (fun r => concat ((fun rows => default [] (rows !! r)) <$> parts)) <$> seq 0 n.
Proof.
  intros Hwf. unfold np.join_rows.
  set (rows := _ <$> seq 0 n).
  assert (Hlen : length rows = n) by (unfold rows; by rewrite length_fmap, length_seq).
  rewrite <- Hlen at 1. apply chunks_concat.
  unfold rows. apply Forall_fmap, Forall_forall. intros r Hr. cbn.
  apply elem_of_seq in Hr. apply (joined_row_length n); [done|lia].
Qed.

(** The columns of part [i], cut out of the rows of the concatenation. *)
Lemma join_block n parts ws i p w :
  parts_wf n parts ws →
  parts !! i = Some p → ws !! i = Some w →
  (fun row => take w (drop (sum_list (take i ws)) row))
    <$> np.chunks (sum_list ws) n (np.join_rows n parts) = p.
Proof.
  intros Hwf Hp Hw. rewrite (chunks_join_rows n parts ws Hwf).
  rewrite <- list_fmap_compose.
  destruct (Forall2_lookup_lr _ _ _ _ _ _ Hwf Hp Hw) as [Hn Hrows].
  etransitivity; [|exact (rows_of_lookups n p Hn)].
  apply list_fmap_ext. intros j r Hr%lookup_seq. cbn.
  assert (r < n) as Hrn by lia.
  pose proof (part_rows_lengths n parts ws r Hwf Hrn) as Hls.
  set (blocks := (fun rows => default [] (rows !! r)) <$> parts) in *.
  assert (Hb : blocks !! i = Some (default [] (p !! r))).
  { unfold blocks. by rewrite list_lookup_fmap, Hp. }
  assert (Hwb : length (default [] (p !! r)) = w).
  { rewrite <- Hls in Hw. rewrite list_lookup_fmap, Hb in Hw. by injection Hw. }
  rewrite <- Hls, <- fmap_take, <- Hwb.
  by apply block_of_concat.
Qed.

End join.

(** ** The encoded matrix *)

Lemma sum_take_lookup (ws : list nat) i w :
  ws !! i = Some w → sum_list (take i ws) + w ≤ sum_list ws.
Proof.
  revert i. induction ws as [|w0 ws IH]; intros [|i]; try done; cbn.
  - intros [= ->]. lia.
  - intros H. specialize (IH _ H). lia.
Qed.

Lemma slice_of_join {A} n (parts : list (list (list A))) ws i p w :
  parts_wf n parts ws →
  parts !! i = Some p → ws !! i = Some w →
  np.slice_cols (np.mk_ndarray [n; sum_list ws] (np.join_rows n parts))
    (sum_list (take i ws)) (sum_list (take i ws) + w)
  = Ok (np.mk_ndarray [n; w] (concat p)).
Proof.
  intros Hwf Hp Hw. pose proof (sum_take_lookup _ _ _ Hw) as Hle.
  unfold np.slice_cols. cbn [np.shape np.flat np.prod foldr].
  rewrite !Nat.mul_1_r.
  replace (sum_list (take i ws) `min` sum_list ws) with (sum_list (take i ws)) by lia.
  replace ((sum_list (take i ws) + w) `min` sum_list ws)
    with (sum_list (take i ws) + w) by lia.
  replace (sum_list (take i ws) + w - sum_list (take i ws)) with w by lia.
  by rewrite (join_block n parts ws i p w Hwf Hp Hw).
Qed.

Lemma reshape_rows_block {A} n w (e : np.ndarray A) :
  0 < n → np.size e = n * w →
  np.reshape_rows n e = Ok (np.mk_ndarray [n; w] (np.flat e)).
Proof.
  intros Hn Hs. unfold np.reshape_rows. rewrite Hs.
  destruct (Nat.eqb_spec n 0) as [|_]; [lia|].
  rewrite Nat.mul_comm, Nat.Div0.mod_mul, Nat.div_mul by lia. done.
Qed.

Lemma getcol_in_range {A} (X : np.ndarray A) n m i :
  np.shape X = [n; m] → i < m → np.getcol X i = Ok (column X i).
Proof.
  intros Hs Hi. unfold column, np.getcol. rewrite Hs.
  by destruct (Nat.ltb_spec i m); [|lia].
Qed.

Lemma encode_columns_outcome X n m normalize one_hot i fs :
  np.shape X = [n; m] → 0 < n →
  (∀ j f, fs !! j = Some f →
     i + j < m ∧ encodes_width f n (column X (i + j)) normalize one_hot) →
  outcome (DataHandler.encode_columns X normalize one_hot i fs) =
  Ok (encoded_blocks X n normalize one_hot i fs).
Proof.
  intros Hs Hn. revert i. induction fs as [|f fs IH]; intros i Hfs; [done|].
  cbn [DataHandler.encode_columns encoded_blocks].
  destruct (Hfs 0 f eq_refl) as [Hi [_ Hsize]]. rewrite Nat.add_0_r in Hi, Hsize.
  rewrite (getcol_in_range X n m i Hs Hi), bind_lift_ok, bind_invoke.
  cbn [outcome snd]. unfold np.shape0. rewrite Hs. cbn [getitem lookup list_lookup].
  rewrite bind_lift_ok.
  rewrite (reshape_rows_block n _ _ Hn Hsize), bind_lift_ok, outcome_bind.
  rewrite IH; [done|].
  intros j f' Hj. specialize (Hfs (S j) f' Hj).
  by replace (S i + j) with (i + S j) by lia.
Qed.

Lemma encoded_blocks_shapes X n normalize one_hot i fs :
  Forall2 (fun a w => np.shape a = [n; w])
    (encoded_blocks X n normalize one_hot i fs) (widths one_hot fs).
Proof.
  revert i. induction fs as [|f fs IH]; intros i; cbn; constructor; [done|apply IH].
Qed.

Lemma rows_of_shape {A} (a : np.ndarray A) n w :
  np.shape a = [n; w] → np.rows2 a = Ok (n, w, rows_of a).
Proof. intros Hs. unfold rows_of, np.rows2. by rewrite Hs. Qed.

Lemma mapM_rows2_blocks {A} n (arrs : list (np.ndarray A)) ws :
  Forall2 (fun a w => np.shape a = [n; w]) arrs ws →
  mapM np.rows2 arrs = Ok ((fun aw => (n, aw.2, rows_of aw.1)) <$> zip arrs ws).
Proof.
  induction 1 as [|a w arrs ws Hs _ IH]; [done|].
  cbn. rewrite (rows_of_shape a n w Hs). cbn. by rewrite IH.
Qed.

Lemma concatenate1_blocks {A} n (arrs : list (np.ndarray A)) ws :
  Forall2 (fun a w => np.shape a = [n; w]) arrs ws →
  arrs ≠ [] →
  np.concatenate1 arrs =
  Ok (np.mk_ndarray [n; sum_list ws] (np.join_rows n (rows_of <$> arrs))).
Proof.
  intros Hs Hne. pose proof (mapM_rows2_blocks n arrs ws Hs) as Hm.
  destruct Hs as [|a w arrs ws Ha Hs]; [done|].
  unfold np.concatenate1. rewrite Hm. cbn [mbind result_bind].
  rewrite (rows_of_shape a n w Ha). cbn [mbind result_bind].
  pose proof (Forall2_length _ _ _ Hs) as Hlen.
  assert (Hall : forallb (fun p : nat * nat * list (list A) => p.1.1 =? n)
    ((fun aw : np.ndarray A * nat => (n, aw.2, rows_of aw.1)) <$> zip (a :: arrs) (w :: ws))
    = true).
  { apply forallb_forall. intros p [aw [<- _]]%in_map_iff. cbn. apply Nat.eqb_refl. }
  rewrite Hall. f_equal. f_equal.
  - f_equal. rewrite <- list_fmap_compose. f_equal. f_equal.
    transitivity ((zip (a :: arrs) (w :: ws)).*2); [done|].
    apply snd_zip. cbn. lia.
  - f_equal. rewrite <- list_fmap_compose.
    transitivity (rows_of <$> (zip (a :: arrs) (w :: ws)).*1).
    + by rewrite <- list_fmap_compose.
    + f_equal. apply fst_zip. cbn. lia.
Qed.

Lemma encode_matrix_outcome self X n m normalize one_hot :
  np.shape X = [n; m] → 0 < n → DataHandler.features self ≠ [] →
  (∀ j f, DataHandler.features self !! j = Some f →
     j < m ∧ encodes_width f n (column X j) normalize one_hot) →
  outcome (DataHandler.encode_matrix self X normalize one_hot) =
  Ok (encoded_matrix self X n normalize one_hot).
Proof.
  intros Hs Hn Hne Hfs. unfold DataHandler.encode_matrix.
  rewrite outcome_bind, (encode_columns_outcome X n m normalize one_hot 0 _ Hs Hn Hfs).
  cbn [lift outcome snd].
  rewrite (concatenate1_blocks n _ _ (encoded_blocks_shapes X n normalize one_hot 0 _)).
  - done.
  - destruct (DataHandler.features self); [done|]. done.
Qed.

Lemma encode_is_matrix self (X : np.ndarray value) normalize one_hot :
  np.ndim X ≠ 1 →
  DataHandler.encode self X normalize one_hot =
  DataHandler.encode_matrix self X normalize one_hot.
Proof.
  intros Hd. unfold DataHandler.encode, DataHandler.recursion_limit.
  by rewrite (encode_rec_matrix 999).
Qed.

Lemma mapM_invoke {A B} (c : A → call) (g : A → B) (l : list A) :
  mapM (fun x => invoke (c x) (g x)) l = (c <$> l, Ok (g <$> l)).
Proof.
  induction l as [|x l IH]; [done|].
  cbn [mapM]. cbn [mapM] in IH. rewrite bind_invoke, outcome_bind, calls_bind.
  rewrite IH. cbn. by rewrite app_nil_r.
Qed.

(** C7. [encoding_width] of the handler is the sum of the widths the
    Features declare for the flag: it takes no data, and calls
    [encoding_width] of every Feature once, in order. When every Feature
    encodes a column to as many cells per row as it declares, [encode] of a
    table with at least one row, whose columns are those of a Feature list
    that is not empty, returns a matrix with that many columns, for either
    value of [normalize]. *)
Theorem encoding_width_additive self (one_hot : bool) :
  let fs := DataHandler.features self in
  DataHandler.encoding_width self one_hot =
    ((fun f => CallEncodingWidth (Feature.fid f)) <$> fs,
     Ok (sum_list ((fun f => Feature.encoding_width f one_hot) <$> fs)))
  ∧ ∀ (X : np.ndarray value) (n m : nat) (normalize : bool),
      np.shape X = [n; m] → 0 < n → fs ≠ [] → length fs ≤ m →
      (∀ j f, fs !! j = Some f →
         encodes_width f n (column X j) normalize one_hot) →
      ∃ E W,
        outcome (DataHandler.encode self X normalize one_hot) = Ok E
        ∧ outcome (DataHandler.encoding_width self one_hot) = Ok W
        ∧ np.shape E = [n; W].
Proof.
  intros fs.
  assert (Hw : DataHandler.encoding_width self one_hot =
    ((fun f => CallEncodingWidth (Feature.fid f)) <$> fs,
     Ok (sum_list ((fun f => Feature.encoding_width f one_hot) <$> fs)))).
  { unfold DataHandler.encoding_width. fold fs.
    rewrite (mapM_invoke (fun f => CallEncodingWidth (Feature.fid f))
               (fun f => Feature.encoding_width f one_hot) fs).
    cbn. by rewrite app_nil_r. }
  split; [exact Hw|].
  intros X n m normalize Hs Hn Hne Hm Hfs.
  exists (encoded_matrix self X n normalize one_hot),
    (sum_list (widths one_hot fs)).
  split; [|split; [by rewrite Hw|done]].
  rewrite encode_is_matrix by (unfold np.ndim; by rewrite Hs).
  apply (encode_matrix_outcome self X n m); [done..|].
  intros j f Hj. split; [|by apply Hfs].
  apply lookup_lt_Some in Hj. fold fs in Hj. lia.
Qed.

Lemma sample_encodes_width j f normalize one_hot :
  DataHandler.features Sample.handler !! j = Some f →
  encodes_width f 2 (column Sample.people j) normalize one_hot.
Proof.
  destruct j as [|[|j]]; [| |done]; intros [= <-];
    destruct normalize, one_hot; by split.
Qed.

Lemma encoding_width_additive_witness :
  ∃ E W,
    outcome (DataHandler.encode Sample.handler Sample.people true true) = Ok E
    ∧ outcome (DataHandler.encoding_width Sample.handler true) = Ok W
    ∧ np.shape E = [2; W].
Proof.
  apply (proj2 (encoding_width_additive Sample.handler true) Sample.people 2 2 true).
  - reflexivity.
  - lia.
  - discriminate.
  - cbn. lia.
  - intros j f. apply sample_encodes_width.
Defined.

Example sample_width : outcome (DataHandler.encoding_width Sample.handler true) = Ok 4.
Proof. reflexivity. Qed.

(** ** Tables whose column count is not the Feature count *)

Lemma encode_columns_short X n m rest normalize one_hot i fs :
  np.shape X = n :: m :: rest → i ≤ m → m < i + length fs →
  ∃ e, outcome (DataHandler.encode_columns X normalize one_hot i fs) = Raise e.
Proof.
  intros Hs. revert i. induction fs as [|f fs IH]; intros i Hi Hm.
  { cbn in Hm. lia. }
  cbn [DataHandler.encode_columns].
  destruct (np.getcol X i) as [col|e] eqn:Hcol; [|by exists e].
  rewrite bind_lift_ok, bind_invoke. cbn [outcome snd].
  destruct (np.shape0 X) as [n'|e]; [|by exists e].
  rewrite bind_lift_ok.
  destruct (np.reshape_rows n' _) as [r|e]; [|by exists e].
  rewrite bind_lift_ok, outcome_bind.
  assert (i < m) as Him.
  { unfold np.getcol in Hcol. rewrite Hs in Hcol.
    by destruct (Nat.ltb_spec i m). }
  destruct (IH (S i)) as [e He]; [lia|cbn in Hm; lia|].
  rewrite He. by exists e.
Qed.

Lemma encode_columns_ext X X' normalize one_hot i fs :
  np.shape0 X = np.shape0 X' →
  (∀ j, j < length fs → np.getcol X (i + j) = np.getcol X' (i + j)) →
  DataHandler.encode_columns X normalize one_hot i fs =
  DataHandler.encode_columns X' normalize one_hot i fs.
Proof.
  intros H0. revert i. induction fs as [|f fs IH]; intros i Hcols; [done|].
  cbn [DataHandler.encode_columns].
  pose proof (Hcols 0) as Hc. rewrite Nat.add_0_r in Hc.
  rewrite Hc by (cbn; lia). rewrite H0.
  rewrite (IH (S i)); [done|].
  intros j Hj. replace (S i + j) with (i + S j) by lia. apply Hcols. cbn. lia.
Qed.

(** C3, as the code has it. [encode] compares no column count. On a table
    with fewer columns than Features it raises; on a table with more it
    raises nothing on that account and ignores the columns past the Feature
    count: its result, call log included, is that of any table with as many
    rows and the same first [len(features)] columns. *)
Theorem column_count_mismatch self (X : np.ndarray value) (n m : nat)
    (normalize one_hot : bool) :
  np.shape X = [n; m] →
  (m < length (DataHandler.features self) →
   ∃ e, outcome (DataHandler.encode self X normalize one_hot) = Raise e)
  ∧ (length (DataHandler.features self) ≤ m →
     ∀ (X' : np.ndarray value) (m' : nat),
       np.shape X' = [n; m'] →
       (∀ j, j < length (DataHandler.features self) → np.getcol X j = np.getcol X' j) →
       DataHandler.encode self X normalize one_hot =
       DataHandler.encode self X' normalize one_hot).
Proof.
  intros Hs. split.
  - intros Hm. rewrite encode_is_matrix by (unfold np.ndim; by rewrite Hs).
    unfold DataHandler.encode_matrix. rewrite outcome_bind.
    destruct (encode_columns_short X n m [] normalize one_hot 0
                (DataHandler.features self) Hs) as [e He]; [lia|lia|].
    rewrite He. by exists e.
  - intros Hm X' m' Hs' Hcols.
    rewrite !encode_is_matrix by (unfold np.ndim; by rewrite ?Hs, ?Hs').
    unfold DataHandler.encode_matrix.
    rewrite (encode_columns_ext X X' normalize one_hot 0); [done| |done].
    unfold np.shape0. by rewrite Hs, Hs'.
Qed.

Lemma column_count_mismatch_witness :
  DataHandler.encode Sample.handler Sample.wide true true =
  DataHandler.encode Sample.handler Sample.narrow true true.
Proof.
  apply (proj2 (column_count_mismatch Sample.handler Sample.wide 1 3 true true eq_refl)
           ltac:(cbn; lia) Sample.narrow 2); [reflexivity|].
  intros [|[|j]] Hj; [reflexivity | reflexivity | cbn in Hj; lia].
Defined.

(** C3, as stated, fails: the handler has two Features, the table three
    columns, and [encode] returns the encoding of the first two columns. *)
Lemma surplus_column_ignored :
  np.shape Sample.wide = [1; 3]
  ∧ length (DataHandler.features Sample.handler) = 2
  ∧ outcome (DataHandler.encode Sample.handler Sample.wide true true) =
      Ok (np.mk_ndarray [1; 4] [12; 0; 1; 0]%Z).
Proof. repeat split. Qed.

Example missing_column_raises :
  outcome (DataHandler.encode Sample.handler (Sample.table 1 1 [VInt 30]) true true)
  = Raise IndexError.
Proof. reflexivity. Qed.

(** ** Decoding the encoded matrix *)

Lemma rows_of_block {A} n w (cells : list A) :
  rows_of (np.mk_ndarray [n; w] cells) = np.chunks w n cells.
Proof. done. Qed.

Lemma encoded_parts_wf X n normalize one_hot i fs :
  (∀ j f, fs !! j = Some f →
     encodes_width f n (column X (i + j)) normalize one_hot) →
  parts_wf n (rows_of <$> encoded_blocks X n normalize one_hot i fs)
    (widths one_hot fs).
Proof.
  revert i. induction fs as [|f fs IH]; intros i Hfs; [constructor|].
  cbn. constructor.
  - destruct (Hfs 0 f eq_refl) as [Hwf Hsize]. rewrite Nat.add_0_r in Hwf, Hsize.
    split.
    + apply chunks_length.
    + apply chunks_widths. unfold np.wf in Hwf. rewrite Hwf, Hsize. done.
  - apply IH. intros j f' Hj.
    replace (S i + j) with (i + S j) by lia. by apply Hfs.
Qed.

Lemma encoded_blocks_lookup X n normalize one_hot i fs j f :
  fs !! j = Some f →
  encoded_blocks X n normalize one_hot i fs !! j =
  Some (encoded_block f n (column X (i + j)) normalize one_hot).
Proof.
  revert i j. induction fs as [|f0 fs IH]; intros i [|j]; try done; cbn.
  - intros [= ->]. by rewrite Nat.add_0_r.
  - intros Hj. etransitivity; [exact (IH (S i) j Hj)|].
    replace (S i + j) with (i + S j) by lia. done.
Qed.

Lemma slice_encoded_matrix self X n normalize one_hot j f :
  (∀ j f, DataHandler.features self !! j = Some f →
     encodes_width f n (column X j) normalize one_hot) →
  DataHandler.features self !! j = Some f →
  np.slice_cols (encoded_matrix self X n normalize one_hot)
    (sum_list (take j (widths one_hot (DataHandler.features self))))
    (sum_list (take j (widths one_hot (DataHandler.features self)))
     + Feature.encoding_width f one_hot)
  = Ok (encoded_block f n (column X j) normalize one_hot).
Proof.
  intros Hfs Hj. unfold encoded_matrix.
  pose proof (encoded_parts_wf X n normalize one_hot 0 _ Hfs) as Hwf.
  rewrite (slice_of_join n _ _ j
             (rows_of (encoded_block f n (column X j) normalize one_hot))
             (Feature.encoding_width f one_hot) Hwf).
  - f_equal. unfold encoded_block at 2. f_equal.
    unfold encoded_block. rewrite rows_of_block.
    apply concat_chunks.
    destruct (Hfs j f Hj) as [Hw Hsize]. unfold np.wf in Hw. by rewrite Hw, Hsize.
  - rewrite list_lookup_fmap.
    by rewrite (encoded_blocks_lookup X n normalize one_hot 0 _ j f Hj).
  - unfold widths. by rewrite list_lookup_fmap, Hj.
Qed.

Lemma sum_take_S (ws : list nat) j w :
  ws !! j = Some w → sum_list (take (S j) ws) = sum_list (take j ws) + w.
Proof.
  revert j. induction ws as [|w0 ws IH]; intros [|j]; try done; cbn.
  - intros [= ->]. rewrite take_0. cbn. lia.
  - intros Hw. specialize (IH j Hw). cbn in IH. rewrite IH. lia.
Qed.

Lemma decode_columns_outcome self X n normalize one_hot as_dataframe j :
  (∀ j f, DataHandler.features self !! j = Some f →
     encodes_width f n (column X j) normalize one_hot) →
  outcome (DataHandler.decode_columns (encoded_matrix self X n normalize one_hot)
             normalize one_hot as_dataframe
             (sum_list (take j (widths one_hot (DataHandler.features self))))
             (drop j (DataHandler.features self)))
  = Ok (decoded_blocks X n normalize one_hot as_dataframe j
          (drop j (DataHandler.features self))).
Proof.
  intros Hfs.
  remember (drop j (DataHandler.features self)) as suf eqn:Hsuf.
  revert j Hsuf. induction suf as [|f suf IH]; intros j Hsuf; [done|].
  assert (Hj : DataHandler.features self !! j = Some f).
  { rewrite <- (Nat.add_0_r j), <- lookup_drop, <- Hsuf. done. }
  assert (Hsuf' : suf = drop (S j) (DataHandler.features self)).
  { rewrite (drop_S _ _ _ Hj) in Hsuf. by injection Hsuf. }
  cbn [DataHandler.decode_columns decoded_blocks].
  rewrite bind_invoke. cbn [outcome snd].
  rewrite (slice_encoded_matrix self X n normalize one_hot j f Hfs Hj).
  rewrite bind_lift_ok, bind_invoke. cbn [outcome snd].
  rewrite outcome_bind.
  assert (Hw : widths one_hot (DataHandler.features self) !! j
               = Some (Feature.encoding_width f one_hot)).
  { unfold widths. by rewrite list_lookup_fmap, Hj. }
  rewrite <- (sum_take_S _ _ _ Hw).
  by rewrite (IH (S j) Hsuf').
Qed.

Lemma decoded_blocks_columns R X n normalize one_hot as_dataframe i fs :
  (∀ j f, fs !! j = Some f →
     inverts R f n (column X (i + j)) normalize one_hot as_dataframe) →
  ∃ ncs : list (string * list value),
    ncs.*1 = Feature.name <$> fs
    ∧ (∀ j f, fs !! j = Some f →
         ∃ cells, ncs.*2 !! j = Some cells ∧ length cells = n
                  ∧ R f (np.flat (column X (i + j))) cells)
    ∧ Forall2 (fun o nc => decoded_as as_dataframe n nc.1 nc.2 o)
        (decoded_blocks X n normalize one_hot as_dataframe i fs) ncs.
Proof.
  revert i. induction fs as [|f fs IH]; intros i Hfs.
  { exists []. split; [done|]. split; [done|]. constructor. }
  destruct (Hfs 0 f eq_refl) as [_ (cells & Hdec & HR)].
  rewrite Nat.add_0_r in Hdec, HR.
  destruct (IH (S i)) as (ncs & Hnames & Hcols & Hall).
  { intros j f' Hj. replace (S i + j) with (i + S j) by lia. by apply Hfs. }
  exists ((Feature.name f, cells) :: ncs). split; [|split].
  - cbn. by rewrite Hnames.
  - intros [|j] f' Hj.
    + injection Hj as <-. exists cells. rewrite Nat.add_0_r.
      split; [done|]. split; [|done].
      unfold decoded_as in Hdec. destruct as_dataframe.
      * by destruct Hdec.
      * destruct Hdec as (a & _ & Hwf & Hsize & <-). unfold np.wf in Hwf. lia.
    + destruct (Hcols j f' Hj) as (cells' & Hl & Hlen & HR').
      exists cells'. split; [done|]. split; [done|].
      by replace (i + S j) with (S i + j) by lia.
  - cbn [decoded_blocks]. constructor; [done|exact Hall].
Qed.

Lemma chunks_singletons {A} (l : list A) :
  np.chunks 1 (length l) l = (fun x => [x]) <$> l.
Proof.
  induction l as [|x l IH]; [done|].
  cbn [length]. rewrite chunks_S. cbn. by rewrite drop_0, IH.
Qed.

Lemma mapM_reshape_decoded n (dec : list pyobj) (ncs : list (string * list value)) :
  0 < n →
  Forall2 (fun o nc => decoded_as false n nc.1 nc.2 o) dec ncs →
  mapM (DataHandler.reshape_decoded n) dec =
    Ok ((fun nc => np.mk_ndarray [n; 1] nc.2) <$> ncs)
  ∧ Forall (fun nc => length nc.2 = n) ncs.
Proof.
  intros Hn. induction 1 as [|o nc dec ncs (a & -> & Hwf & Hsize & Hflat) _ [IH1 IH2]].
  { split; [done|constructor]. }
  split.
  - cbn. rewrite (reshape_rows_block n 1 a Hn) by lia. cbn.
    cbn in IH1. rewrite IH1. cbn. by rewrite Hflat.
  - constructor; [|done]. unfold np.wf in Hwf. rewrite <- Hflat. lia.
Qed.

Lemma sum_list_ones {A} (l : list A) : sum_list ((fun _ => 1) <$> l) = length l.
Proof. induction l as [|x l IH]; [done|]. cbn. by rewrite IH. Qed.

Lemma assemble_array n (dec : list pyobj) (ncs : list (string * list value)) :
  0 < n → ncs ≠ [] →
  Forall2 (fun o nc => decoded_as false n nc.1 nc.2 o) dec ncs →
  (arrs ← mapM (DataHandler.reshape_decoded n) dec;
   Array <$> np.concatenate1 arrs)
  = Ok (Array (table_of_columns n ncs.*2)).
Proof.
  intros Hn Hne Hdec.
  destruct (mapM_reshape_decoded n dec ncs Hn Hdec) as [Hm Hlens].
  rewrite Hm. cbn [mbind result_bind].
  rewrite (concatenate1_blocks n _ ((fun _ => 1) <$> ncs)).
  - cbn. do 2 f_equal. unfold table_of_columns.
    rewrite sum_list_ones, length_fmap. f_equal.
    f_equal. rewrite <- !list_fmap_compose.
    apply list_fmap_ext. intros j nc Hj. cbn.
    pose proof (Forall_lookup_1 _ _ _ _ Hlens Hj) as Hl. cbn in Hl.
    rewrite <- Hl. apply chunks_singletons.
  - apply Forall2_fmap, Forall2_same_length_lookup_2; [done|].
    intros j nc nc' Hj Hj'. done.
  - by destruct ncs.
Qed.

Lemma max_list_constant {A} (g : A → nat) (l : list A) n :
  l ≠ [] → Forall (fun x => g x = n) l → max_list (g <$> l) = n.
Proof.
  intros Hne Hall. induction Hall as [|x l Hx Hl IH]; [done|].
  cbn. destruct l as [|y l]; [cbn; lia|].
  rewrite IH by done. lia.
Qed.

Lemma mapM_as_frame n (dec : list pyobj) (ncs : list (string * list value)) :
  Forall2 (fun o nc => decoded_as true n nc.1 nc.2 o) dec ncs →
  mapM pd.as_frame dec =
    Ok ((fun nc => mk_DataFrame n [(nc.1, Some <$> nc.2)]) <$> ncs).
Proof.
  induction 1 as [|o nc dec ncs [-> Hlen] _ IH]; [done|].
  cbn. cbn in IH. by rewrite IH.
Qed.

Lemma assemble_frame n (dec : list pyobj) (ncs : list (string * list value)) :
  ncs ≠ [] →
  Forall2 (fun o nc => decoded_as true n nc.1 nc.2 o) dec ncs →
  pd.concat1 dec = Ok (frame_of_columns n ncs.*1 ncs.*2).
Proof.
  intros Hne Hdec.
  pose proof (mapM_as_frame n dec ncs Hdec) as Hm.
  assert (Hlens : Forall (fun nc : string * list value => length nc.2 = n) ncs).
  { clear Hm Hne. induction Hdec as [|o nc dec ncs [_ Hlen] _ IH]; by constructor. }
  unfold pd.concat1.
  destruct dec as [|o dec].
  { apply Forall2_nil_inv_l in Hdec. done. }
  rewrite Hm. cbn [mbind result_bind]. f_equal.
  rewrite <- list_fmap_compose.
  rewrite (max_list_constant _ ncs n Hne) by (apply Forall_true; done).
  unfold frame_of_columns. f_equal.
  clear Hm Hdec Hne. induction Hlens as [|[name cells] ncs Hlen _ IH]; [done|].
  cbn. cbn in IH. rewrite IH. f_equal. f_equal.
  unfold pd.reindex. cbn in Hlen. rewrite length_fmap, Hlen, Nat.sub_diag.
  apply app_nil_r.
Qed.

(** ** A table is the table of its columns *)

Lemma singletons_concat {A} (bs : list (list A)) :
  Forall (fun b => length b = 1) bs → (fun x => [x]) <$> concat bs = bs.
Proof.
  induction 1 as [|b bs Hb _ IH]; [done|].
  destruct b as [|x [|y b]]; try done. cbn. by rewrite IH.
Qed.

Lemma cells_of_row {A} (row : list A) :
  concat ((fun j => take 1 (drop j row)) <$> seq 0 (length row)) = row.
Proof.
  induction row as [|x row IH]; [done|].
  cbn [length seq fmap list_fmap concat]. rewrite <- fmap_S_seq, <- list_fmap_compose.
  cbn. f_equal. exact IH.
Qed.

Lemma column_cells {A} (X : np.ndarray A) n m j :
  np.shape X = [n; m] → j < m →
  column X j =
  np.mk_ndarray [n]
    (concat ((fun row => take 1 (drop j row)) <$> np.chunks m n (np.flat X))).
Proof.
  intros Hs Hj. unfold column, np.getcol. rewrite Hs.
  destruct (Nat.ltb_spec j m); [|lia].
  cbn [np.prod foldr]. by rewrite !Nat.mul_1_r.
Qed.

Lemma table_of_its_columns {A} (X : np.ndarray A) n m :
  np.shape X = [n; m] → np.wf X →
  table_of_columns n (columns_of X m) = X.
Proof.
  intros Hs Hwf. unfold np.wf, np.size in Hwf. rewrite Hs in Hwf.
  cbn [np.prod foldr] in Hwf. rewrite Nat.mul_1_r in Hwf.
  destruct X as [shape flat]. cbn in Hs, Hwf. subst shape.
  unfold table_of_columns, columns_of.
  rewrite length_fmap, length_seq. f_equal.
  set (rows := np.chunks m n flat).
  assert (Hrows : Forall (fun row => length row = m) rows).
  { apply chunks_widths. lia. }
  assert (Hlen : length rows = n) by apply chunks_length.
  transitivity (concat rows); [|exact (concat_chunks m n flat Hwf)].
  unfold np.join_rows. f_equal.
  etransitivity; [|exact (rows_of_lookups n rows Hlen)].
  apply list_fmap_ext. intros i r Hr%lookup_seq. cbn.
  destruct (lookup_lt_is_Some_2 rows r) as [row Hrow]; [lia|].
  rewrite Hrow. cbn.
  pose proof (Forall_lookup_1 _ _ _ _ Hrows Hrow) as Hm. cbn in Hm.
  etransitivity; [|exact (cells_of_row row)]. rewrite Hm. f_equal.
  rewrite <- !list_fmap_compose.
  apply list_fmap_ext. intros i' j Hj%lookup_seq. cbn.
  rewrite (column_cells {| np.shape := [n; m]; np.flat := flat |} n m j) by (done || lia).
  cbn [np.flat]. fold rows.
  rewrite singletons_concat.
  - by rewrite list_lookup_fmap, Hrow.
  - apply Forall_fmap. eapply Forall_impl; [exact Hrows|].
    intros row' Hrow'. cbn in *. rewrite length_take, length_drop. lia.
Qed.

(** ** Round trip *)

Lemma decode_encoded_matrix self X n normalize one_hot as_dataframe
    (ncs : list (string * list value)) :
  0 < n → ncs ≠ [] →
  (∀ j f, DataHandler.features self !! j = Some f →
     encodes_width f n (column X j) normalize one_hot) →
  Forall2 (fun o nc => decoded_as as_dataframe n nc.1 nc.2 o)
    (decoded_blocks X n normalize one_hot as_dataframe 0 (DataHandler.features self))
    ncs →
  outcome (DataHandler.decode self (encoded_matrix self X n normalize one_hot)
             normalize one_hot as_dataframe)
  = Ok (decoded_table as_dataframe n ncs.*1 ncs.*2).
Proof.
  intros Hn Hne Hfs Hdec. unfold DataHandler.decode.
  unfold np.shape0 at 1. cbn [encoded_matrix np.shape getitem lookup list_lookup].
  rewrite bind_lift_ok.
  destruct (Nat.eqb_spec n 0) as [|_]; [lia|].
  rewrite outcome_bind.
  pose proof (decode_columns_outcome self X n normalize one_hot as_dataframe 0 Hfs)
    as Hcols.
  rewrite take_0, drop_0 in Hcols. cbn [sum_list sum_list_with] in Hcols.
  rewrite Hcols. unfold decoded_table.
  destruct as_dataframe; cbn [lift outcome snd].
  - by rewrite (assemble_frame n _ ncs Hne Hdec).
  - by rewrite (assemble_array n _ ncs Hn Hne Hdec).
Qed.

(** C1, as the code has it. Take a Feature list that is not empty and a
    table with at least one row and one column per Feature. If every Feature
    encodes its column to the width it declares and its [decode] inverts,
    up to its fidelity [R], the encoding of its column in the form in which
    the handler hands it back (reshaped to one row per row of the table and
    cast to float64, see [inverts]), then [encode] succeeds
    and [decode] of the encoded matrix with the same flags returns a table
    with the same number of rows whose columns, in the order of the Features
    (and labelled with their names when a pandas table is asked for), are
    those of [X] up to [R]. When the fidelity is equality, the decoded array
    is [X]. *)
Theorem round_trip (R : Feature.t → list value → list value → Prop)
    self (X : np.ndarray value) (n : nat) (normalize one_hot as_dataframe : bool) :
  np.shape X = [n; length (DataHandler.features self)] →
  np.wf X →
  0 < n →
  DataHandler.features self ≠ [] →
  (∀ j f, DataHandler.features self !! j = Some f →
     inverts R f n (column X j) normalize one_hot as_dataframe) →
  ∃ E cols,
    outcome (DataHandler.encode self X normalize one_hot) = Ok E
    ∧ outcome (DataHandler.decode self E normalize one_hot as_dataframe) =
        Ok (decoded_table as_dataframe n (DataHandler.feature_names self) cols)
    ∧ length cols = length (DataHandler.features self)
    ∧ (∀ j f, DataHandler.features self !! j = Some f →
         ∃ cells, cols !! j = Some cells ∧ length cells = n
                  ∧ R f (np.flat (column X j)) cells)
    ∧ ((∀ f c c', R f c c' → c' = c) → table_of_columns n cols = X).
Proof.
  intros Hs Hwf Hn Hne Hinv.
  assert (Hfs : ∀ j f, DataHandler.features self !! j = Some f →
    encodes_width f n (column X j) normalize one_hot).
  { intros j f Hj. by destruct (Hinv j f Hj). }
  destruct (decoded_blocks_columns R X n normalize one_hot as_dataframe 0
              (DataHandler.features self) Hinv) as (ncs & Hnames & Hcols & Hdec).
  assert (Hlen : length ncs.*2 = length (DataHandler.features self)).
  { rewrite length_fmap, <- (length_fmap fst), Hnames. by rewrite length_fmap. }
  assert (Hncs : ncs ≠ []).
  { intros ->. destruct (DataHandler.features self); done. }
  exists (encoded_matrix self X n normalize one_hot), ncs.*2.
  split; [|split; [|split; [done|split; [done|]]]].
  - rewrite encode_is_matrix by (unfold np.ndim; by rewrite Hs).
    apply (encode_matrix_outcome self X n _ normalize one_hot Hs Hn Hne).
    intros j f Hj. split; [by apply lookup_lt_Some in Hj|by apply Hfs].
  - rewrite (decode_encoded_matrix self X n normalize one_hot as_dataframe ncs
               Hn Hncs Hfs Hdec).
    by rewrite Hnames.
  - intros Heq.
    rewrite <- (table_of_its_columns X n _ Hs Hwf). f_equal.
    apply list_eq. intros j. unfold columns_of.
    destruct (decide (j < length (DataHandler.features self))) as [Hj|Hj].
    + destruct (lookup_lt_is_Some_2 _ _ Hj) as [f Hf].
      destruct (Hcols j f Hf) as (cells & Hl & _ & HR).
      rewrite Hl, list_lookup_fmap, lookup_seq_lt by done. cbn. f_equal.
      by apply (Heq f).
    + rewrite (proj2 (lookup_ge_None _ _)) by lia.
      rewrite list_lookup_fmap, lookup_seq_ge by lia. done.
Qed.

Lemma sample_inverts j f normalize one_hot as_dataframe :
  DataHandler.features Sample.handler !! j = Some f →
  inverts (fun _ => eq) f 2 (column Sample.people j) normalize one_hot as_dataframe.
Proof.
  destruct j as [|[|j]]; [| |done]; intros [= <-];
    (split; [destruct normalize, one_hot; by split|]);
    eexists; (split; [|reflexivity]);
    destruct normalize, one_hot, as_dataframe;
    first [ by split | eexists; repeat split ].
Qed.

Lemma round_trip_witness :
  ∃ E cols,
    outcome (DataHandler.encode Sample.handler Sample.people true true) = Ok E
    ∧ outcome (DataHandler.decode Sample.handler E true true false) =
        Ok (decoded_table false 2 (DataHandler.feature_names Sample.handler) cols)
    ∧ length cols = length (DataHandler.features Sample.handler)
    ∧ (∀ j f, DataHandler.features Sample.handler !! j = Some f →
         ∃ cells, cols !! j = Some cells ∧ length cells = 2
                  ∧ np.flat (column Sample.people j) = cells)
    ∧ ((∀ (f : Feature.t) (c c' : list value), c = c' → c' = c) →
       table_of_columns 2 cols = Sample.people).
Proof.
  apply (round_trip (fun _ => eq) Sample.handler Sample.people 2 true true false).
  - reflexivity.
  - reflexivity.
  - lia.
  - discriminate.
  - intros j f. apply sample_inverts.
Defined.

Example sample_round_trip :
  outcome (E ← DataHandler.encode Sample.handler Sample.people true true;
           DataHandler.decode Sample.handler E true true false)
  = Ok (Array Sample.people).
Proof. reflexivity. Qed.

(** Where [encode] of a Feature already returns the shape [(n, width)],
    the handler hands the same array back, and inverting the own encoding is
    enough. *)
Lemma inverts_own_block R f n c normalize one_hot as_dataframe :
  np.shape (Feature.encode f c normalize one_hot)
  = [n; Feature.encoding_width f one_hot] →
  inverts_own R f n c normalize one_hot as_dataframe →
  inverts R f n c normalize one_hot as_dataframe.
Proof.
  intros Hs [Hw (cells & Hd & HR)]. split; [done|]. exists cells. split; [|done].
  unfold decoded_block, encoded_block. rewrite <- Hs.
  by destruct (Feature.encode f c normalize one_hot).
Qed.

(** C1, as stated, fails in three ways. On a table without rows and on a
    handler without Features [reshape(0, -1)] and the concatenation of no
    array raise in [encode], so there is no encoded matrix to decode; the
    Features of the first handler invert their encoding on the empty columns.
    And a Feature whose [decode] inverts its own encoding under every
    combination of the flags does not make the round trip: the handler
    reshapes the one-dimensional codes of [Sample.shade] to one column before
    [decode] sees them, and the labels green, blue come back as green,
    green. *)
Lemma round_trip_fails :
  (np.shape (Sample.table 0 2 []) = [0; length (DataHandler.features Sample.handler)]
   ∧ (∀ j f, DataHandler.features Sample.handler !! j = Some f →
        inverts (fun _ => eq) f 0 (column (Sample.table 0 2 []) j) true true true)
   ∧ outcome (E ← DataHandler.encode Sample.handler (Sample.table 0 2 []) true true;
              DataHandler.decode Sample.handler E true true true)
     = Raise (ValueError "cannot reshape array"))
  ∧ outcome (E ← DataHandler.encode (DataHandler.init [] None None None)
                   (Sample.table 1 0 []) true true;
             DataHandler.decode (DataHandler.init [] None None None) E true true true)
    = Raise (ValueError "need at least one array to concatenate")
  ∧ (np.shape Sample.tints = [2; length (DataHandler.features Sample.tinted)]
     ∧ (∀ normalize one_hot as_dataframe,
          inverts_own (fun _ => eq) Sample.shade 2 (column Sample.tints 0)
            normalize one_hot as_dataframe)
     ∧ outcome (E ← DataHandler.encode Sample.tinted Sample.tints true false;
                DataHandler.decode Sample.tinted E true false false)
       = Ok (Array (Sample.table 2 1 [VStr "green"; VStr "green"]))
     ∧ Sample.table 2 1 [VStr "green"; VStr "green"] ≠ Sample.tints).
Proof.
  split; [split; [reflexivity|split; [|reflexivity]]|split; [reflexivity|]].
  - intros [|[|j]] f; [| |done]; intros [= <-];
      (split; [by split|]); exists []; by repeat split.
  - split; [reflexivity|]. split; [|split; [reflexivity|discriminate]].
    intros normalize one_hot as_dataframe.
    split; [destruct normalize, one_hot; by split|].
    eexists; (split; [|reflexivity]).
    destruct normalize, one_hot, as_dataframe;
      first [ by split | eexists; repeat split ].
Qed.

(** * Further properties *)

(** ** Degenerate inputs of [encode] and [decode] *)

Lemma encode_matrix_no_rows self (m : nat) (rest : list nat) (cells : list value)
    normalize one_hot :
  ∃ e, outcome (DataHandler.encode_matrix self (np.mk_ndarray (0 :: m :: rest) cells)
                  normalize one_hot) = Raise e.
Proof.
  unfold DataHandler.encode_matrix. rewrite outcome_bind.
  destruct (DataHandler.features self) as [|f fs]; [by eexists|].
  cbn [DataHandler.encode_columns].
  destruct (np.getcol _ 0) as [col|e]; [|by exists e].
  rewrite bind_lift_ok, bind_invoke. cbn [outcome snd]. by eexists.
Qed.

Lemma encode_matrix_no_features self X normalize one_hot :
  DataHandler.features self = [] →
  DataHandler.encode_matrix self X normalize one_hot =
  ([], Raise (ValueError "need at least one array to concatenate")).
Proof. intros H. unfold DataHandler.encode_matrix. by rewrite H. Qed.

Lemma reshape_rows_one {A} (a : np.ndarray A) :
  np.reshape_rows 1 a = Ok (np.mk_ndarray [1; np.size a] (np.flat a)).
Proof.
  unfold np.reshape_rows. by rewrite Nat.mod_1_r, Nat.div_1_r.
Qed.

Lemma encode_unfold self (X : np.ndarray value) normalize one_hot :
  DataHandler.encode self X normalize one_hot =
  if np.ndim X =? 1
  then E ← DataHandler.encode_matrix self
             (np.mk_ndarray [1; np.size X] (np.flat X)) normalize one_hot;
       lift (np.getitem0 E)
  else DataHandler.encode_matrix self X normalize one_hot.
Proof.
  unfold DataHandler.encode, DataHandler.recursion_limit.
  change 1000 with (S (S 998)).
  cbn [DataHandler.encode_rec].
  destruct (np.ndim X =? 1); [|done].
  rewrite reshape_rows_one, bind_lift_ok. done.
Qed.

(** X1. [encode] never succeeds on an array whose first dimension is 0: a
    table without rows, or an empty row. *)
Theorem encode_no_rows_raises self (rest : list nat) (cells : list value)
    (normalize one_hot : bool) :
  ∃ e, outcome (DataHandler.encode self (np.mk_ndarray (0 :: rest) cells)
                  normalize one_hot) = Raise e.
Proof.
  rewrite encode_unfold. destruct rest as [|m rest].
  - change (np.ndim (np.mk_ndarray [0] cells) =? 1) with true.
    cbn match. rewrite outcome_bind.
    unfold DataHandler.encode_matrix. rewrite outcome_bind.
    destruct (DataHandler.features self) as [|f fs]; [by eexists|].
    cbn. by eexists.
  - change (np.ndim (np.mk_ndarray (0 :: m :: rest) cells) =? 1) with false.
    cbn match. apply encode_matrix_no_rows.
Qed.

(** X2. A handler without Features cannot encode: whatever the array, the
    concatenation of no array raises, and no Feature method is called. *)
Theorem encode_no_features_raises self (X : np.ndarray value)
    (normalize one_hot : bool) :
  DataHandler.features self = [] →
  DataHandler.encode self X normalize one_hot =
  ([], Raise (ValueError "need at least one array to concatenate")).
Proof.
  intros H. rewrite encode_unfold.
  rewrite !(encode_matrix_no_features self _ normalize one_hot H).
  by destruct (np.ndim X =? 1).
Qed.

Lemma encode_no_features_raises_witness :
  DataHandler.encode Fixture.bare Sample.people true false =
  ([], Raise (ValueError "need at least one array to concatenate")).
Proof. apply (encode_no_features_raises Fixture.bare); reflexivity. Defined.

(** X3. A handler without Features cannot decode a matrix that has rows:
    asked for a table, pandas refuses to concatenate nothing, and asked for
    an array, numpy does. Only the matrix without rows is decoded. *)
Theorem decode_no_features_raises self (X : np.ndarray num) (n : nat)
    (denormalize encoded_one_hot : bool) :
  DataHandler.features self = [] →
  np.shape0 X = Ok n → n ≠ 0 →
  DataHandler.decode self X denormalize encoded_one_hot true =
    ([], Raise (ValueError "No objects to concatenate"))
  ∧ DataHandler.decode self X denormalize encoded_one_hot false =
    ([], Raise (ValueError "need at least one array to concatenate")).
Proof.
  intros H Hn Hn0. unfold DataHandler.decode. rewrite Hn, H, !bind_lift_ok.
  destruct (Nat.eqb_spec n 0) as [|_]; [done|]. by split.
Qed.

Lemma decode_no_features_raises_witness :
  DataHandler.decode Fixture.bare (np.mk_ndarray [2; 0] []) true true true =
    ([], Raise (ValueError "No objects to concatenate"))
  ∧ DataHandler.decode Fixture.bare (np.mk_ndarray [2; 0] []) true true false =
    ([], Raise (ValueError "need at least one array to concatenate")).
Proof.
  apply (decode_no_features_raises Fixture.bare _ 2); [reflexivity|reflexivity|lia].
Defined.

(** ** The calls of [encode] and [decode] *)

Lemma encode_columns_calls X normalize one_hot i fs :
  calls (DataHandler.encode_columns X normalize one_hot i fs) `prefix_of` encode_calls fs
  ∧ (is_ok (outcome (DataHandler.encode_columns X normalize one_hot i fs)) = true →
     calls (DataHandler.encode_columns X normalize one_hot i fs) = encode_calls fs).
Proof.
  revert i. induction fs as [|f fs IH]; intros i; [split; [apply prefix_nil|done]|].
  cbn [DataHandler.encode_columns encode_calls fmap list_fmap].
  destruct (np.getcol X i) as [col|e]; [|split; [apply prefix_nil|done]].
  rewrite bind_lift_ok, bind_invoke. cbn [calls outcome fst snd].
  destruct (np.shape0 X) as [n|e]; [|split; [apply prefix_cons, prefix_nil|done]].
  rewrite bind_lift_ok.
  destruct (np.reshape_rows n _) as [r|e];
    [|split; [apply prefix_cons, prefix_nil|done]].
  rewrite bind_lift_ok, calls_bind, outcome_bind.
  destruct (IH (S i)) as [IH1 IH2].
  destruct (outcome (DataHandler.encode_columns X normalize one_hot (S i) fs)) as [enc|e].
  - cbn. rewrite app_nil_r. split; [by apply prefix_cons|].
    intros _. f_equal. by apply IH2.
  - split; [by apply prefix_cons|done].
Qed.

Lemma encode_matrix_calls self X normalize one_hot :
  calls (DataHandler.encode_matrix self X normalize one_hot)
    `prefix_of` encode_calls (DataHandler.features self)
  ∧ (is_ok (outcome (DataHandler.encode_matrix self X normalize one_hot)) = true →
     calls (DataHandler.encode_matrix self X normalize one_hot)
     = encode_calls (DataHandler.features self)).
Proof.
  unfold DataHandler.encode_matrix. rewrite calls_bind, outcome_bind.
  destruct (encode_columns_calls X normalize one_hot 0 (DataHandler.features self))
    as [H1 H2].
  destruct (outcome (DataHandler.encode_columns _ _ _ _ _)) as [enc|e].
  - cbn [lift calls fst]. rewrite app_nil_r. split; [done|]. intros _. by apply H2.
  - split; [done|done].
Qed.

(** X4. The only Feature method that [encode] calls is [encode]: of the
    Features in order, each at most once, and each exactly once when
    [encode] succeeds. *)
Theorem encode_calls_each_feature_once self (X : np.ndarray value)
    (normalize one_hot : bool) :
  calls (DataHandler.encode self X normalize one_hot)
    `prefix_of` encode_calls (DataHandler.features self)
  ∧ ∀ E, outcome (DataHandler.encode self X normalize one_hot) = Ok E →
         calls (DataHandler.encode self X normalize one_hot)
         = encode_calls (DataHandler.features self).
Proof.
  rewrite encode_unfold. destruct (np.ndim X =? 1).
  - rewrite calls_bind, outcome_bind.
    destruct (encode_matrix_calls self (np.mk_ndarray [1; np.size X] (np.flat X))
                normalize one_hot) as [H1 H2].
    destruct (outcome (DataHandler.encode_matrix _ _ _ _)) as [E|e].
    + cbn [lift calls fst]. rewrite app_nil_r. split; [done|].
      intros _ _. by apply H2.
    + split; [done|done].
  - destruct (encode_matrix_calls self X normalize one_hot) as [H1 H2].
    split; [done|]. intros E HE. apply H2. by rewrite HE.
Qed.

Lemma slice_cols_total {A} (X : np.ndarray A) n m rest lo hi :
  np.shape X = n :: m :: rest → ∃ sl, np.slice_cols X lo hi = Ok sl.
Proof. intros Hs. unfold np.slice_cols. rewrite Hs. by eexists. Qed.

Lemma decode_columns_total X n m rest denormalize encoded_one_hot as_dataframe cur fs :
  np.shape X = n :: m :: rest →
  ∃ dec, DataHandler.decode_columns X denormalize encoded_one_hot as_dataframe cur fs
         = (decode_calls fs, Ok dec)
         ∧ length dec = length fs.
Proof.
  intros Hs. revert cur. induction fs as [|f fs IH]; intros cur.
  { by exists []. }
  cbn [DataHandler.decode_columns]. rewrite bind_invoke. cbn [calls outcome fst snd].
  destruct (slice_cols_total X n m rest cur
              (cur + Feature.encoding_width f encoded_one_hot) Hs) as [sl Hsl].
  rewrite Hsl, bind_lift_ok, bind_invoke. cbn [calls outcome fst snd].
  destruct (IH (cur + Feature.encoding_width f encoded_one_hot)) as (dec & Hdec & Hlen).
  rewrite Hdec. cbn. rewrite app_nil_r.
  eexists. split; [reflexivity|]. cbn. by rewrite Hlen.
Qed.



(** X7. Whatever the Features return, when [encode] of an array that is
    not one-dimensional succeeds, the result is two-dimensional and has as
    many rows as the array. *)
Theorem encode_keeps_row_count self (X : np.ndarray value) (normalize one_hot : bool)
    (E : np.ndarray num) :
  np.ndim X ≠ 1 →
  outcome (DataHandler.encode self X normalize one_hot) = Ok E →
  ∃ n W, np.shape0 X = Ok n ∧ np.shape E = [n; W].
Proof.
  intros Hd HE. rewrite encode_is_matrix in HE by done.
  by apply (encode_matrix_shape self X normalize one_hot).
Qed.

Lemma encode_keeps_row_count_witness :
  ∃ n W, np.shape0 Sample.people = Ok n
         ∧ np.shape (np.mk_ndarray [2; 4] [12; 0; 1; 0; 23; 0; 0; 1]%Z) = [n; W].
Proof.
  apply (encode_keeps_row_count Sample.handler Sample.people true true);
    [discriminate|reflexivity].
Defined.

(** ** Rows shorter than the Feature list, and constraints *)

Lemma getitem_short {A} (l : list A) i : length l ≤ i → getitem l i = Raise IndexError.
Proof. intros H. unfold getitem. by rewrite (proj2 (lookup_ge_None l i) H). Qed.

(** X6. The per-feature loop passes over the positions a short row lacks,
    but the constraints index the rows: when the per-feature checks pass and
    the first causal pair has its cause at a position the before-row does not
    have, [allowed_changes] raises [IndexError]. *)
Theorem short_row_constraint_raises self (pre_vals post_vals : list value)
    cause effect pairs (i : nat) :
  all_allowed (DataHandler.features self) pre_vals post_vals = true →
  DataHandler.causal_inc self = (cause, effect) :: pairs →
  DataHandler.index (DataHandler.features self) cause = Ok i →
  length pre_vals ≤ i →
  outcome (DataHandler.allowed_changes self pre_vals post_vals) = Raise IndexError.
Proof.
  intros Hall Hc Hi Hlen.
  rewrite (allowed_changes_passed _ _ _ Hall), Hc.
  cbn [DataHandler.causal_loop]. rewrite outcome_bind.
  unfold DataHandler.causal_pair. rewrite outcome_bind.
  unfold DataHandler.cause_applied.
  by rewrite Hi, bind_lift_ok, (getitem_short _ _ Hlen).
Qed.

Lemma short_row_constraint_raises_witness :
  outcome (DataHandler.allowed_changes Fixture.chained [VInt 1] [VInt 2; VInt 3])
  = Raise IndexError.
Proof.
  apply (short_row_constraint_raises Fixture.chained [VInt 1] [VInt 2; VInt 3]
           Sample.effect_E Sample.cause_C [] 1); [reflexivity..|cbn; lia].
Defined.

Lemma present_index self f :
  absent self f = false → ∃ i, DataHandler.index (DataHandler.features self) f = Ok i.
Proof.
  unfold absent. destruct (DataHandler.index _ f) as [i|e]; [by exists i|done].
Qed.

Lemma cause_applied_not_missing self pre_vals post_vals cause :
  absent self cause = false →
  not_missing (outcome (DataHandler.cause_applied self pre_vals post_vals cause)).
Proof.
  intros [i Hi]%present_index. unfold DataHandler.cause_applied, not_missing.
  rewrite Hi, bind_lift_ok.
  destruct (getitem pre_vals i) as [a|e] eqn:Ha.
  2:{ unfold getitem in Ha. destruct (pre_vals !! i); [done|]. by injection Ha as <-. }
  rewrite bind_lift_ok, bind_invoke. cbn [outcome snd].
  destruct (getitem post_vals i) as [b|e] eqn:Hb.
  2:{ unfold getitem in Hb. destruct (post_vals !! i); [done|]. by injection Hb as <-. }
  rewrite bind_lift_ok, bind_invoke. cbn [outcome snd].
  destruct (Feature.kind cause); [done| |done].
  by rewrite bind_invoke.
Qed.

Lemma effect_follows_not_missing self pre_vals post_vals effect :
  absent self effect = false →
  not_missing (outcome (DataHandler.effect_follows self pre_vals post_vals effect)).
Proof.
  intros [i Hi]%present_index. unfold DataHandler.effect_follows, not_missing.
  rewrite Hi, bind_lift_ok.
  destruct (getitem pre_vals i) as [a|e] eqn:Ha.
  2:{ unfold getitem in Ha. destruct (pre_vals !! i); [done|]. by injection Ha as <-. }
  rewrite bind_lift_ok, bind_invoke. cbn [outcome snd].
  destruct (getitem post_vals i) as [b|e] eqn:Hb.
  2:{ unfold getitem in Hb. destruct (post_vals !! i); [done|]. by injection Hb as <-. }
  rewrite bind_lift_ok, bind_invoke. cbn [outcome snd].
  destruct (Feature.kind effect); [done| |].
  - rewrite bind_invoke. cbn [outcome snd]. by destruct (negb _).
  - by destruct (scalar_le _ _).
Qed.

Lemma causal_loop_not_missing self pre_vals post_vals pairs :
  Forall (fun p => absent self p.1 = false ∧ absent self p.2 = false) pairs →
  not_missing (outcome (DataHandler.causal_loop self pre_vals post_vals pairs)).
Proof.
  induction 1 as [|[cause effect] pairs [Hc He] _ IH]; [done|].
  cbn [fst snd] in Hc, He. cbn [DataHandler.causal_loop].
  rewrite outcome_bind. unfold DataHandler.causal_pair. rewrite outcome_bind.
  pose proof (cause_applied_not_missing self pre_vals post_vals cause Hc) as H1.
  pose proof (effect_follows_not_missing self pre_vals post_vals effect He) as H2.
  destruct (outcome (DataHandler.cause_applied _ _ _ _)) as [[|]|e]; [| |done].
  - destruct (outcome (DataHandler.effect_follows _ _ _ _)) as [[|]|e]; done.
  - cbn. exact IH.
Qed.

Lemma ordering_loop_not_missing self post_vals pairs :
  Forall (fun p => absent self p.1 = false ∧ absent self p.2 = false) pairs →
  not_missing (outcome (DataHandler.ordering_loop self post_vals pairs)).
Proof.
  induction 1 as [|[greater smaller] pairs [Hg Hs] _ IH]; [done|].
  cbn [fst snd] in Hg, Hs. rewrite ordering_loop_step.
  unfold ordering_compare, lookup_cell. cbn [fst snd].
  destruct (present_index _ _ Hs) as [si ->].
  destruct (present_index _ _ Hg) as [gi ->].
  cbn [mbind result_bind].
  destruct (getitem post_vals si) as [s|e] eqn:Ha.
  2:{ unfold getitem in Ha. destruct (post_vals !! si); [done|]. by injection Ha as <-. }
  cbn [mbind result_bind].
  destruct (getitem post_vals gi) as [g|e] eqn:Hb.
  2:{ unfold getitem in Hb. destruct (post_vals !! gi); [done|]. by injection Hb as <-. }
  cbn [mbind result_bind].
  destruct s, g; cbn; try done; by destruct (_ <? _)%Z || destruct (String.ltb _ _).
Qed.

(** X15. "Not in list" comes from the configuration alone: when every
    Feature of every constraint pair is in the Feature list,
    [allowed_changes] never raises that error, whatever the rows are. *)
Theorem closed_constraints_never_missing self (pre_vals post_vals : list value) :
  constraints_closed self →
  not_missing (outcome (DataHandler.allowed_changes self pre_vals post_vals)).
Proof.
  intros [Hc Hg]%Forall_app. unfold DataHandler.allowed_changes.
  rewrite outcome_bind, per_feature_outcome.
  destruct (all_allowed _ _ _); [|done]. cbn [negb].
  rewrite outcome_bind.
  pose proof (causal_loop_not_missing self pre_vals post_vals _ Hc) as H1.
  pose proof (ordering_loop_not_missing self post_vals _ Hg) as H2.
  destruct (outcome (DataHandler.causal_loop _ _ _ _)) as [[|]|e]; done.
Qed.

Lemma closed_constraints_never_missing_witness :
  not_missing
    (outcome (DataHandler.allowed_changes Fixture.chained [VInt 1] [VInt 2; VInt 3])).
Proof.
  apply (closed_constraints_never_missing Fixture.chained).
  repeat constructor.
Defined.

(** ** The target Feature and [encode_all] *)

Lemma encode_all_outcome self X_all normalize one_hot :
  outcome (encode_all self X_all normalize one_hot) =
  (X ← but_last_cols X_all;
   E ← outcome (DataHandler.encode self X normalize one_hot);
   y ← last_col X_all;
   t ← outcome (encode_y self y normalize one_hot);
   np.concatenate1 [E; reshape_column t]).
Proof.
  unfold encode_all.
  destruct (but_last_cols X_all) as [X|e]; [|done].
  rewrite bind_lift_ok, outcome_bind. cbn [mbind result_bind].
  destruct (outcome (DataHandler.encode self X normalize one_hot)) as [E|e]; [|done].
  cbn [mbind result_bind].
  destruct (last_col X_all) as [y|e]; [|done].
  rewrite bind_lift_ok, outcome_bind. cbn [mbind result_bind].
  by destruct (outcome (encode_y self y normalize one_hot)) as [t|e].
Qed.

(** X8. Without a target Feature, [encode_y] and [decode_y] raise
    [AttributeError] before anything is called, and [encode_all] never
    succeeds: it raises [AttributeError] once the input columns are encoded
    and the last column is taken. *)
Theorem no_target_raises self :
  DataHandler.target_feature self = None →
  (∀ y normalize one_hot,
     encode_y self y normalize one_hot = ([], Raise AttributeError))
  ∧ (∀ y denormalize as_series,
       decode_y self y denormalize as_series = ([], Raise AttributeError))
  ∧ (∀ X_all normalize one_hot,
       ∃ e, outcome (encode_all self X_all normalize one_hot) = Raise e)
  ∧ (∀ X_all normalize one_hot X E y,
       but_last_cols X_all = Ok X →
       outcome (DataHandler.encode self X normalize one_hot) = Ok E →
       last_col X_all = Ok y →
       outcome (encode_all self X_all normalize one_hot) = Raise AttributeError).
Proof.
  intros Ht.
  assert (Hy : ∀ y normalize one_hot,
    encode_y self y normalize one_hot = ([], Raise AttributeError)).
  { intros. unfold encode_y. by rewrite Ht. }
  split; [exact Hy|]. split; [|split].
  - intros. unfold decode_y. by rewrite Ht.
  - intros X_all normalize one_hot. rewrite encode_all_outcome.
    destruct (but_last_cols X_all) as [X|e]; [|by exists e]. cbn [mbind result_bind].
    destruct (outcome (DataHandler.encode self X normalize one_hot)) as [E|e];
      [|by exists e]. cbn [mbind result_bind].
    destruct (last_col X_all) as [y|e]; [|by exists e]. cbn [mbind result_bind].
    rewrite Hy. by eexists.
  - intros X_all normalize one_hot X E y HX HE Hl.
    rewrite encode_all_outcome, HX. cbn [mbind result_bind].
    rewrite HE. cbn [mbind result_bind]. rewrite Hl. cbn [mbind result_bind].
    by rewrite Hy.
Qed.

Lemma no_target_raises_witness :
  outcome (encode_all Sample.handler Fixture.pupils true true) = Raise AttributeError.
Proof.
  apply (proj2 (proj2 (proj2 (no_target_raises Sample.handler eq_refl)))
           Fixture.pupils true true Sample.people
           (np.mk_ndarray [2; 4] [12; 0; 1; 0; 23; 0; 0; 1]%Z)
           (np.mk_ndarray [2] [VInt 7; VInt 9])); reflexivity.
Defined.

Lemma rows2_inv {A} (a : np.ndarray A) n w rows :
  np.rows2 a = Ok (n, w, rows) →
  np.shape a = [n; w] ∧ rows = np.chunks w n (np.flat a).
Proof.
  unfold np.rows2. destruct (np.shape a) as [|n' [|w' [|? ?]]]; try done.
  by intros [= -> -> <-].
Qed.

Lemma concatenate1_pair {A} (E T R : np.ndarray A) :
  np.concatenate1 [E; T] = Ok R →
  ∃ n W w, np.shape E = [n; W] ∧ np.shape T = [n; w]
           ∧ R = np.mk_ndarray [n; W + w]
                   (np.join_rows n [np.chunks W n (np.flat E);
                                    np.chunks w n (np.flat T)]).
Proof.
  unfold np.concatenate1. cbn [mapM mbind result_bind mret result_ret].
  destruct (np.rows2 E) as [[[n W] rowsE]|e] eqn:HE; [|done].
  destruct (np.rows2 T) as [[[n' w] rowsT]|e] eqn:HT; [|done].
  cbn. rewrite Nat.eqb_refl. cbn.
  destruct (Nat.eqb_spec n' n) as [->|]; [|done]. cbn.
  apply rows2_inv in HE as [HE ->]. apply rows2_inv in HT as [HT ->].
  intros [= <-]. exists n, W, w. split; [done|]. split; [done|].
  by rewrite Nat.add_0_r.
Qed.

(** X9. When [encode_all] succeeds, the handler has a target Feature whose
    encoding of the last column holds exactly one cell per row, and the
    result has the rows of the encoded inputs and one column more. A target
    encoding of any other size, such as a one-hot encoding with several
    categories, makes the concatenation fail. *)
Theorem encode_all_adds_one_column self (X_all : np.ndarray value)
    (normalize one_hot : bool) (R : np.ndarray num) :
  outcome (encode_all self X_all normalize one_hot) = Ok R →
  ∃ X E y target n W,
    but_last_cols X_all = Ok X
    ∧ outcome (DataHandler.encode self X normalize one_hot) = Ok E
    ∧ last_col X_all = Ok y
    ∧ DataHandler.target_feature self = Some target
    ∧ np.shape E = [n; W]
    ∧ np.size (Feature.encode target y normalize one_hot) = n
    ∧ np.shape R = [n; W + 1].
Proof.
  rewrite encode_all_outcome.
  destruct (but_last_cols X_all) as [X|e] eqn:HX; [|done]. cbn [mbind result_bind].
  destruct (outcome (DataHandler.encode self X normalize one_hot)) as [E|e] eqn:HE;
    [|done]. cbn [mbind result_bind].
  destruct (last_col X_all) as [y|e] eqn:Hy; [|done]. cbn [mbind result_bind].
  unfold encode_y.
  destruct (DataHandler.target_feature self) as [target|] eqn:Ht; [|done].
  cbn [invoke outcome snd mbind result_bind].
  intros (n & W & w & HsE & HsT & ->)%concatenate1_pair.
  cbn in HsT. injection HsT as Hn <-.
  exists X, E, y, target, n, W. done.
Qed.

Lemma encode_all_adds_one_column_witness :
  ∃ X E y target n W,
    but_last_cols Fixture.pupils = Ok X
    ∧ outcome (DataHandler.encode Fixture.scored X true true) = Ok E
    ∧ last_col Fixture.pupils = Ok y
    ∧ DataHandler.target_feature Fixture.scored = Some target
    ∧ np.shape E = [n; W]
    ∧ np.size (Feature.encode target y true true) = n
    ∧ np.shape (np.mk_ndarray [2; 5] [12; 0; 1; 0; 7; 23; 0; 0; 1; 9]%Z) = [n; W + 1].
Proof.
  apply (encode_all_adds_one_column Fixture.scored Fixture.pupils true true).
  reflexivity.
Defined.

Example encode_all_one_hot_target_fails :
  outcome (encode_all Fixture.graded
             (Sample.table 2 3 [VInt 30; VStr "green"; VStr "low";
                                VInt 41; VStr "blue"; VStr "high"]) true true)
  = Raise (ValueError "all the input array dimensions except for the concatenation axis must match exactly").
Proof. reflexivity. Qed.

Lemma getcol_block {A} n (parts : list (list (list A))) ws i p :
  parts_wf n parts ws →
  parts !! i = Some p → ws !! i = Some 1 →
  np.getcol (np.mk_ndarray [n; sum_list ws] (np.join_rows n parts))
    (sum_list (take i ws))
  = Ok (np.mk_ndarray [n] (concat p)).
Proof.
  intros Hwf Hp Hw. pose proof (sum_take_lookup _ _ _ Hw) as Hle.
  unfold np.getcol. cbn [np.shape np.flat np.prod foldr].
  rewrite !Nat.mul_1_r.
  destruct (Nat.ltb_spec (sum_list (take i ws)) (sum_list ws)) as [_|Hge]; [|lia].
  by rewrite (join_block n parts ws i p 1 Hwf Hp Hw).
Qed.

(** X10. The layout of the joint encoding: when [encode_all] succeeds on
    well-formed arrays, the columns of its result before the last are the
    encoding of the input columns, and its last column is the encoding of
    the target column. *)
Theorem encode_all_layout self (X_all : np.ndarray value) (normalize one_hot : bool)
    X E y target (R : np.ndarray num) :
  but_last_cols X_all = Ok X →
  outcome (DataHandler.encode self X normalize one_hot) = Ok E →
  last_col X_all = Ok y →
  DataHandler.target_feature self = Some target →
  np.wf E →
  np.wf (Feature.encode target y normalize one_hot) →
  outcome (encode_all self X_all normalize one_hot) = Ok R →
  ∃ n W,
    np.shape E = [n; W]
    ∧ np.slice_cols R 0 W = Ok E
    ∧ np.getcol R W =
        Ok (np.mk_ndarray [n] (np.flat (Feature.encode target y normalize one_hot))).
Proof.
  intros HX HE Hy Ht HwE HwT. rewrite encode_all_outcome, HX.
  cbn [mbind result_bind]. rewrite HE. cbn [mbind result_bind].
  rewrite Hy. cbn [mbind result_bind]. unfold encode_y. rewrite Ht.
  cbn [invoke outcome snd mbind result_bind].
  set (t := Feature.encode target y normalize one_hot) in *.
  intros (n & W & w & HsE & HsT & ->)%concatenate1_pair.
  cbn in HsT. injection HsT as Hn <-.
  unfold np.wf, np.size in HwE, HwT. rewrite HsE in HwE.
  cbn [np.prod foldr] in HwE. rewrite Nat.mul_1_r in HwE.
  fold (np.size t) in HwT. rewrite Hn in HwT.
  cbn [reshape_column np.flat].
  set (parts := [np.chunks W n (np.flat E); np.chunks 1 n (np.flat t)]).
  assert (Hwf : parts_wf n parts [W; 1]).
  { repeat constructor.
    - apply chunks_length.
    - apply chunks_widths. lia.
    - apply chunks_length.
    - apply chunks_widths. lia. }
  assert (H1 : sum_list [W; 1] = W + 1) by (cbn; lia).
  assert (H0 : sum_list (take 1 [W; 1]) = W) by (cbn; lia).
  assert (H00 : sum_list (take 0 [W; 1]) = 0) by done.
  exists n, W. split; [done|]. split.
  - pose proof (slice_of_join n parts [W; 1] 0 _ W Hwf eq_refl eq_refl) as Hsl.
    rewrite H1, H00 in Hsl. change (0 + W) with W in Hsl.
    rewrite Hsl. f_equal. rewrite (concat_chunks W n (np.flat E)) by lia.
    destruct E as [sh fl]. cbn in HsE |- *. by rewrite HsE.
  - pose proof (getcol_block n parts [W; 1] 1 _ Hwf eq_refl eq_refl) as Hc.
    rewrite H1, H0 in Hc. rewrite Hc. f_equal. f_equal.
    apply concat_chunks. lia.
Qed.

Lemma encode_all_layout_witness :
  ∃ n W,
    np.shape (np.mk_ndarray [2; 4] [12; 0; 1; 0; 23; 0; 0; 1]%Z) = [n; W]
    ∧ np.slice_cols (np.mk_ndarray [2; 5] [12; 0; 1; 0; 7; 23; 0; 0; 1; 9]%Z) 0 W
      = Ok (np.mk_ndarray [2; 4] [12; 0; 1; 0; 23; 0; 0; 1]%Z)
    ∧ np.getcol (np.mk_ndarray [2; 5] [12; 0; 1; 0; 7; 23; 0; 0; 1; 9]%Z) W =
        Ok (np.mk_ndarray [n]
              (np.flat (Feature.encode Fixture.score
                          (np.mk_ndarray [2] [VInt 7; VInt 9]) true true))).
Proof.
  apply (encode_all_layout Fixture.scored Fixture.pupils true true Sample.people
           (np.mk_ndarray [2; 4] [12; 0; 1; 0; 23; 0; 0; 1]%Z)
           (np.mk_ndarray [2] [VInt 7; VInt 9]) Fixture.score
           (np.mk_ndarray [2; 5] [12; 0; 1; 0; 7; 23; 0; 0; 1; 9]%Z));
    reflexivity.
Defined.

(** ** Building a handler from data *)

Lemma build_features_fids lib X cm ord bm disc imm mono i ns fs :
  build_features lib X cm ord bm disc imm mono i ns = Ok fs →
  Feature.fid <$> fs = S <$> seq i (length ns).
Proof.
  revert i fs. induction ns as [|name ns IH]; intros i fs.
  { by intros [= <-]. }
  cbn [build_features].
  destruct (np.getcol X i) as [col|e]; [|done]. cbn [mbind result_bind].
  destruct (make_feature lib col _ _ _ _ _ _ _) as [f|e]; [|done].
  cbn [fmap result_fmap mbind result_bind].
  destruct (build_features _ _ _ _ _ _ _ _ (S i) ns) as [fs'|e] eqn:Hfs; [|done].
  cbn [mbind result_bind]. intros [= <-]. cbn. f_equal. by apply IH.
Qed.

Lemma index_member fs f :
  Feature.fid f ∈ Feature.fid <$> fs → is_ok (DataHandler.index fs f) = true.
Proof.
  induction fs as [|f0 fs IH]; cbn.
  - by intros ?%elem_of_nil.
  - intros [Heq|Hin]%elem_of_cons.
    + by rewrite Heq, Nat.eqb_refl.
    + destruct (_ =? _); [done|]. specialize (IH Hin).
      by destruct (DataHandler.index fs f).
Qed.

Lemma getitem_member {A} (l : list A) i x : getitem l i = Ok x → x ∈ l.
Proof.
  unfold getitem. destruct (l !! i) eqn:H; [|done].
  intros [= <-]. by eapply list_elem_of_lookup_2.
Qed.

Lemma resolve_pair_members ns fs ij p :
  resolve_pair ns fs ij = Ok p → p.1 ∈ fs ∧ p.2 ∈ fs.
Proof.
  unfold resolve_pair.
  destruct (names_index ns ij.1) as [i|e]; [|done]. cbn [mbind result_bind].
  destruct (getitem fs i) as [fi|e] eqn:Hfi; [|done]. cbn [mbind result_bind].
  destruct (names_index ns ij.2) as [j|e]; [|done]. cbn [mbind result_bind].
  destruct (getitem fs j) as [fj|e] eqn:Hfj; [|done]. cbn [mbind result_bind].
  intros [= <-]. split; by eapply getitem_member.
Qed.

Lemma resolve_pairs_members ns fs pairs ps :
  mapM (resolve_pair ns fs) pairs = Ok ps →
  Forall (fun p => p.1 ∈ fs ∧ p.2 ∈ fs) ps.
Proof.
  revert ps. induction pairs as [|ij pairs IH]; intros ps.
  { intros [= <-]. constructor. }
  cbn [mapM].
  destruct (resolve_pair ns fs ij) as [p|e] eqn:Hp; [|done]. cbn [mbind result_bind].
  destruct (mapM (resolve_pair ns fs) pairs) as [ps'|e]; [|done].
  cbn. intros [= <-]. constructor; [|by apply IH].
  by apply (resolve_pair_members ns fs ij).
Qed.

Lemma mapM_result_length {A B} (g : A → result B) (l : list A) (k : list B) :
  mapM g l = Ok k → length k = length l.
Proof.
  revert k. induction l as [|x l IH]; intros k.
  { by intros [= <-]. }
  cbn [mapM]. destruct (g x) as [b|e]; [|done]. cbn [mbind result_bind].
  destruct (mapM g l) as [k'|e]; [|done]. cbn.
  intros [= <-]. cbn. f_equal. by apply IH.
Qed.

Lemma build_done lib X tgt cm ord bm disc imm mono ci gt fn h :
  build lib X tgt cm ord bm disc imm mono ci gt fn = Done h →
  ∃ m ns fs c g,
    getitem (np.shape X) 1 = Ok m
    ∧ ns = default (NamesList (replicate m None)) fn
    ∧ names_len ns = m
    ∧ build_features lib X cm ord bm disc imm mono 0 (names_list ns) = Ok fs
    ∧ mapM (resolve_pair ns fs) ci = Ok c
    ∧ mapM (resolve_pair ns fs) gt = Ok g
    ∧ h = DataHandler.init fs tgt (Some c) (Some g).
Proof.
  unfold build.
  destruct (getitem (np.shape X) 1) as [m|e]; [|done]. cbn [try_result mbind attempt_bind].
  set (ns := match fn with Some ns => ns | None => NamesList (replicate m None) end).
  destruct (Nat.eqb_spec (names_len ns) m) as [Hlen|]; [|done]. cbn [negb].
  destruct (build_features _ _ _ _ _ _ _ _ 0 (names_list ns)) as [fs|e] eqn:Hfs; [|done].
  cbn [try_result mbind attempt_bind].
  destruct (mapM (resolve_pair ns fs) ci) as [c|e] eqn:Hc; [|done].
  cbn [try_result mbind attempt_bind].
  destruct (mapM (resolve_pair ns fs) gt) as [g|e] eqn:Hg; [|done].
  cbn [try_result mbind attempt_bind]. intros [= <-].
  by exists m, ns, fs, c, g.
Qed.

Lemma names_list_length ns : length (names_list ns) = names_len ns.
Proof. destruct ns; cbn; [done|by rewrite length_fmap]. Qed.

Lemma from_data_done lib X y cm ord bm disc imm mono ci gt reg fn tn h :
  from_data lib X y cm ord bm disc imm mono ci gt reg fn tn = Done h →
  ∃ fn' y' a tgt, unpack X y fn tn = Done (fn', y', a)
    ∧ make_target lib y' reg tn = Ok tgt
    ∧ build lib a tgt cm ord bm disc imm mono ci gt fn' = Done h.
Proof.
  unfold from_data.
  destruct (unpack X y fn tn) as [[[fn' y'] a]|e]; [|done].
  cbn [mbind attempt_bind].
  destruct (make_target lib y' reg tn) as [tgt|e] eqn:Ht;
    cbn [try_result mbind attempt_bind]; [|done].
  intros H. by exists fn', y', a, tgt.
Qed.



Lemma build_wrong_length lib (a : np.ndarray value) (n m : nat) (rest : list nat)
    tgt cm ord bm disc imm mono ci gt (ns : names) :
  np.shape a = n :: m :: rest →
  names_len ns ≠ m →
  build lib a tgt cm ord bm disc imm mono ci gt (Some ns) =
  Fails (Exn (ValueError "Incorrect length of list of feature names.")).
Proof.
  intros Hs Hl. unfold build. rewrite Hs.
  cbn [getitem lookup list_lookup try_result mbind attempt_bind].
  by destruct (Nat.eqb_spec (names_len ns) m).
Qed.

(** X11. [from_data] checks the number of names after it has built the
    target Feature: on an array with [m] columns and a list of feature names
    of another length it never returns a handler. If building the target
    raises (the target values mix a number and a label and make [np.unique]
    raise [TypeError], or the class refuses them), that error is raised;
    otherwise, and always without target values, the length check raises
    [ValueError], whatever the other arguments are. *)
Theorem from_data_checks_names_length lib (a : np.ndarray value) (n m : nat)
    (rest : list nat) y cm ord bm disc imm mono ci gt reg (l : list string) tn :
  np.shape a = n :: m :: rest →
  length l ≠ m →
  from_data lib (XArray a) y cm ord bm disc imm mono ci gt reg (Some l) tn =
    match make_target lib y reg tn with
    | Ok _ => Fails (Exn (ValueError "Incorrect length of list of feature names."))
    | Raise e => Fails (Exn e)
    end
  ∧ (y = None →
     from_data lib (XArray a) y cm ord bm disc imm mono ci gt reg (Some l) tn =
     Fails (Exn (ValueError "Incorrect length of list of feature names.")))
  ∧ ∀ h, from_data lib (XArray a) y cm ord bm disc imm mono ci gt reg (Some l) tn
         ≠ Done h.
Proof.
  intros Hs Hl.
  assert (H : from_data lib (XArray a) y cm ord bm disc imm mono ci gt reg (Some l) tn =
    match make_target lib y reg tn with
    | Ok _ => Fails (Exn (ValueError "Incorrect length of list of feature names."))
    | Raise e => Fails (Exn e)
    end).
  { unfold from_data, unpack.
    cbn [fmap option_fmap option_map mbind attempt_bind].
    destruct (make_target lib y reg tn) as [tgt|e]; [|done].
    cbn [try_result mbind attempt_bind].
    apply (build_wrong_length lib a n m rest); [done|].
    cbn [names_len]. by rewrite length_fmap. }
  split; [exact H|]. split.
  - intros ->. by rewrite H.
  - intros h. rewrite H. by destruct (make_target lib y reg tn).
Qed.

Lemma from_data_checks_names_length_witness :
  from_data Fixture.lib (XArray Fixture.pupils) None ∅ [] ∅ [] [] ∅ [] [] false
    (Some ["age"; "colour"]%string) None =
  Fails (Exn (ValueError "Incorrect length of list of feature names.")).
Proof.
  apply (proj1 (from_data_checks_names_length Fixture.lib Fixture.pupils 2 3 []
                  None ∅ [] ∅ [] [] ∅ [] [] false ["age"; "colour"]%string None
                  eq_refl ltac:(cbn; lia))).
Defined.

Example mixed_target_raises_first :
  from_data Fixture.lib (XArray Fixture.pupils) (Some Fixture.mixed_target) ∅ [] ∅ []
    [] ∅ [] [] false (Some ["age"; "colour"]%string) None
  = Fails (Exn TypeError).
Proof. reflexivity. Qed.

Lemma positions_split (s : nat) (t : string) (cols : list string) :
  let P := zip (seq s (length cols)) cols in
  (t ∈ cols →
   filter (fun ic : nat * string => String.eqb t ic.2 = true) P ≠ []
   ∧ length (filter (fun ic : nat * string => negb (String.eqb t ic.2) = true) P)
     < length cols)
  ∧ (t ∉ cols → filter (fun ic : nat * string => String.eqb t ic.2 = true) P = []).
Proof.
  revert s. induction cols as [|c cols IH]; intros s P.
  { split; [by intros ?%elem_of_nil|done]. }
  subst P. cbn [length seq zip zip_with].
  destruct (IH (S s)) as [IH1 IH2].
  assert (Hle : length (filter (fun ic : nat * string => negb (String.eqb t ic.2) = true)
                          (zip (seq (S s) (length cols)) cols)) ≤ length cols).
  { etransitivity; [apply length_filter|]. rewrite length_zip, length_seq. lia. }
  rewrite !filter_cons. cbn [snd].
  destruct (String.eqb_spec t c) as [->|Hne].
  - split; [|intros Hn; exfalso; apply Hn; by left].
    intros _. split.
    + destruct (decide (true = true)); [done|done].
    + destruct (decide (negb true = true)); [done|]. lia.
  - split.
    + intros [->|Hin]%elem_of_cons; [done|]. destruct (IH1 Hin) as [H1 H2].
      destruct (decide (false = true)); [done|].
      destruct (decide (negb false = true)); [|done].
      split; [done|]. cbn. lia.
    + intros Hn. destruct (decide (false = true)); [done|].
      apply IH2. intros Hin. apply Hn. by right.
Qed.

Lemma select_cols_shape a ps :
  np.shape (select_cols a ps) = [row_count a; length ps].
Proof. unfold select_cols, table_of_columns. cbn. by rewrite length_fmap. Qed.

(** X12. On a pandas table, asking [from_data] to take the target from the
    table ([target_name] given, no [y]) without giving [feature_names] never
    returns a handler. A target name that is no column raises [KeyError].
    Otherwise the target Feature is built from the column; if that raises,
    the error is raised; if not, the length check raises [ValueError]: the
    names were taken from the columns before the target column was dropped,
    so they are one too many. *)
Theorem frame_target_never_builds lib (cols : list string) (a : np.ndarray value)
    cm ord bm disc imm mono ci gt reg (t : string) :
  from_data lib (XFrame cols a) None cm ord bm disc imm mono ci gt reg None (Some t) =
    match frame_getitem cols a t with
    | Fails e => Fails e
    | Done y =>
        match make_target lib (Some y) reg (Some t) with
        | Ok _ => Fails (Exn (ValueError "Incorrect length of list of feature names."))
        | Raise e => Fails (Exn e)
        end
    end
  ∧ (if bool_decide (t ∈ cols)
     then ∃ y, frame_getitem cols a t = Done y
     else frame_getitem cols a t = Fails (KeyError t))
  ∧ ∀ h, from_data lib (XFrame cols a) None cm ord bm disc imm mono ci gt reg None
           (Some t) ≠ Done h.
Proof.
  assert (Hg : if bool_decide (t ∈ cols)
               then ∃ y, frame_getitem cols a t = Done y
                         ∧ ∃ ns a', frame_drop cols a t = Done (ns, a')
                                    ∧ ∃ n w rest, np.shape a' = n :: w :: rest
                                                  ∧ length cols ≠ w
               else frame_getitem cols a t = Fails (KeyError t)).
  { unfold frame_getitem, frame_drop, positions.
    destruct (positions_split 0 t cols) as [H1 H2]. cbn zeta in H1, H2.
    destruct (bool_decide_reflect (t ∈ cols)) as [Hin|Hn]; [|by rewrite (H2 Hn)].
    destruct (H1 Hin) as [Hne Hlt].
    destruct (filter (fun ic : nat * string => String.eqb t ic.2 = true)
                (zip (seq 0 (length cols)) cols)) as [|p ps]; [done|]. clear Hne.
    cbn [fmap list_fmap].
    assert (Hd : ∃ ns a',
      Done ((fun p0 => default t (cols !! p0)) <$>
              ((fun ic : nat * string => ic.1) <$>
                 filter (fun ic : nat * string => negb (String.eqb t ic.2) = true)
                   (zip (seq 0 (length cols)) cols)),
            select_cols a
              ((fun ic : nat * string => ic.1) <$>
                 filter (fun ic : nat * string => negb (String.eqb t ic.2) = true)
                   (zip (seq 0 (length cols)) cols)))
      = Done (ns, a')
      ∧ ∃ n w rest, np.shape a' = n :: w :: rest ∧ length cols ≠ w).
    { eexists _, _. split; [reflexivity|].
      eexists _, _, []. split; [apply select_cols_shape|].
      rewrite length_fmap. lia. }
    destruct ps as [|p' ps]; (eexists; split; [reflexivity|exact Hd]). }
  assert (H : from_data lib (XFrame cols a) None cm ord bm disc imm mono ci gt reg None
                (Some t) =
    match frame_getitem cols a t with
    | Fails e => Fails e
    | Done y =>
        match make_target lib (Some y) reg (Some t) with
        | Ok _ => Fails (Exn (ValueError "Incorrect length of list of feature names."))
        | Raise e => Fails (Exn e)
        end
    end).
  { unfold from_data, unpack.
    destruct (bool_decide (t ∈ cols)).
    - destruct Hg as (y & -> & ns & a' & -> & n & w & rest & Hs & Hw).
      cbn [mbind attempt_bind].
      destruct (make_target lib (Some y) reg (Some t)) as [tgt|e]; [|done].
      cbn [try_result mbind attempt_bind].
      by apply (build_wrong_length lib a' n w rest).
    - by rewrite Hg. }
  split; [exact H|]. split.
  - destruct (bool_decide (t ∈ cols)); [|done].
    destruct Hg as (y & Hy & _). by exists y.
  - intros h. rewrite H. destruct (frame_getitem cols a t) as [y|e]; [|done].
    by destruct (make_target lib (Some y) reg (Some t)).
Qed.

Example frame_target_raises :
  from_data Fixture.lib Fixture.pupils_frame None ∅ [] ∅ [] [] ∅ [] [] false None
    (Some "score"%string)
  = Fails (Exn (ValueError "Incorrect length of list of feature names.")).
Proof. reflexivity. Qed.

(** X13. The names that [from_data] takes from a pandas table are a pandas
    Index, which has no method [index]: with a table, no [feature_names] and
    at least one constraint pair, [from_data] never returns a handler. Once
    the target Feature and the input Features are built, it raises
    [AttributeError]. *)
Theorem frame_names_resolve_no_pair lib (cols : list string) (a : np.ndarray value)
    (n : nat) y cm ord bm disc imm mono ci gt reg tn :
  np.shape a = [n; length cols] →
  tn = None ∨ is_Some y →
  ci ++ gt ≠ [] →
  (∀ h, from_data lib (XFrame cols a) y cm ord bm disc imm mono ci gt reg None tn
        ≠ Done h)
  ∧ ∀ tgt fs,
      make_target lib y reg tn = Ok tgt →
      build_features lib a cm ord bm disc imm mono 0 (Some <$> cols) = Ok fs →
      from_data lib (XFrame cols a) y cm ord bm disc imm mono ci gt reg None tn =
      Fails (Exn AttributeError).
Proof.
  intros Hs Hty Hne.
  assert (Hu : unpack (XFrame cols a) y None tn = Done (Some (NamesIndex cols), y, a)).
  { unfold unpack. destruct Hty as [->|[y0 ->]]; [done|]. by destruct tn. }
  assert (Hb : ∀ tgt,
    build lib a tgt cm ord bm disc imm mono ci gt (Some (NamesIndex cols)) =
    match build_features lib a cm ord bm disc imm mono 0 (Some <$> cols) with
    | Ok _ => Fails (Exn AttributeError)
    | Raise e => Fails (Exn e)
    end).
  { intros tgt. unfold build. rewrite Hs.
    cbn [getitem lookup list_lookup try_result mbind attempt_bind names_len names_list].
    rewrite Nat.eqb_refl. cbn [negb].
    destruct (build_features _ _ _ _ _ _ _ _ 0 (Some <$> cols)) as [fs|e]; [|done].
    cbn [try_result mbind attempt_bind].
    destruct ci as [|p ci]; [|done].
    destruct gt as [|q gt]; [done|]. done. }
  unfold from_data. rewrite Hu. cbn [mbind attempt_bind]. split.
  - intros h. destruct (make_target lib y reg tn) as [tgt|e]; [|done].
    cbn [try_result mbind attempt_bind]. rewrite Hb.
    by destruct (build_features _ _ _ _ _ _ _ _ 0 (Some <$> cols)).
  - intros tgt fs -> Hfs. cbn [try_result mbind attempt_bind].
    by rewrite Hb, Hfs.
Qed.

Lemma frame_names_resolve_no_pair_witness :
  from_data Fixture.lib Fixture.pupils_frame None ∅ [] ∅ [] [] ∅
    [("age", "score")]%string [] false None None =
  Fails (Exn AttributeError).
Proof.
  eapply (proj2 (frame_names_resolve_no_pair Fixture.lib
                  ["age"; "colour"; "score"]%string Fixture.pupils 2 None ∅ [] ∅ [] [] ∅
                  [("age", "score")]%string [] false None
                  eq_refl (or_introl eq_refl) ltac:(discriminate)) None);
    reflexivity.
Defined.

Lemma list_index_unnamed (k : nat) (i : string) :
  list_index (replicate k (@None string)) (Some i) = Raise (ValueError "x is not in list").
Proof.
  induction k as [|k IH]; [done|]. cbn [replicate list_index].
  destruct (bool_decide_reflect (@None string = Some i)); [done|]. by rewrite IH.
Qed.

Lemma resolve_pair_unnamed (k : nat) fs p :
  resolve_pair (NamesList (replicate k None)) fs p = Raise (ValueError "x is not in list").
Proof. unfold resolve_pair, names_index. by rewrite (list_index_unnamed k p.1). Qed.

Lemma build_features_unnamed lib X cm ord bm disc imm mono i k :
  build_features lib X cm ord bm disc imm mono i (replicate k None) =
  build_features lib X ∅ [] ∅ [] [] ∅ i (replicate k None).
Proof.
  revert i. induction k as [|k IH]; intros i; [done|].
  cbn [replicate build_features]. by rewrite IH.
Qed.

(** X16. On an array without [feature_names] every name that
    [from_data] hands to [make_feature] is [None], so the maps and lists
    keyed by name are never looked up with a name: [from_data] does what it
    does with empty [categ_map], [ordered], [bounds_map], [discrete],
    [immutable] and [monotonicity]. No constraint can be resolved either:
    with a single pair [from_data] never returns a handler, and once the
    target Feature and the input Features are built it raises
    [ValueError]. *)
Theorem unnamed_array_ignores_maps lib (a : np.ndarray value) y cm ord bm disc imm
    mono ci gt reg tn :
  from_data lib (XArray a) y cm ord bm disc imm mono ci gt reg None tn =
    from_data lib (XArray a) y ∅ [] ∅ [] [] ∅ ci gt reg None tn
  ∧ (∀ n m rest, np.shape a = n :: m :: rest → ci ++ gt ≠ [] →
     (∀ h, from_data lib (XArray a) y cm ord bm disc imm mono ci gt reg None tn
           ≠ Done h)
     ∧ ∀ tgt fs,
         make_target lib y reg tn = Ok tgt →
         build_features lib a ∅ [] ∅ [] [] ∅ 0 (replicate m None) = Ok fs →
         from_data lib (XArray a) y cm ord bm disc imm mono ci gt reg None tn =
         Fails (Exn (ValueError "x is not in list"))).
Proof.
  assert (Heq : from_data lib (XArray a) y cm ord bm disc imm mono ci gt reg None tn =
    from_data lib (XArray a) y ∅ [] ∅ [] [] ∅ ci gt reg None tn).
  { unfold from_data, unpack. cbn [fmap option_fmap option_map mbind attempt_bind].
    destruct (make_target lib y reg tn) as [tgt|e]; [|done].
    cbn [try_result mbind attempt_bind]. unfold build.
    destruct (getitem (np.shape a) 1) as [m|e]; [|done].
    cbn [try_result mbind attempt_bind names_len names_list].
    by rewrite build_features_unnamed. }
  split; [exact Heq|].
  intros n m rest Hs Hne. rewrite Heq.
  assert (Hb : ∀ tgt,
    build lib a tgt ∅ [] ∅ [] [] ∅ ci gt None =
    match build_features lib a ∅ [] ∅ [] [] ∅ 0 (replicate m None) with
    | Ok _ => Fails (Exn (ValueError "x is not in list"))
    | Raise e => Fails (Exn e)
    end).
  { intros tgt. unfold build. rewrite Hs.
    cbn [getitem lookup list_lookup try_result mbind attempt_bind names_len names_list].
    rewrite length_replicate, Nat.eqb_refl. cbn [negb].
    destruct (build_features _ _ _ _ _ _ _ _ 0 (replicate m None)) as [fs|e]; [|done].
    cbn [try_result mbind attempt_bind].
    assert (Hp : ∀ p pairs,
      mapM (resolve_pair (NamesList (replicate m None)) fs) (p :: pairs)
      = Raise (ValueError "x is not in list")).
    { intros p pairs. cbn [mapM]. by rewrite (resolve_pair_unnamed m fs p). }
    destruct ci as [|p ci].
    + destruct gt as [|q gt]; [done|]. by rewrite Hp.
    + by rewrite Hp. }
  unfold from_data, unpack. cbn [fmap option_fmap option_map mbind attempt_bind].
  split.
  - intros h. destruct (make_target lib y reg tn) as [tgt|e]; [|done].
    cbn [try_result mbind attempt_bind]. rewrite Hb.
    by destruct (build_features _ _ _ _ _ _ _ _ 0 (replicate m None)).
  - intros tgt fs -> Hfs. cbn [try_result mbind attempt_bind].
    by rewrite Hb, Hfs.
Qed.

Lemma unnamed_array_ignores_maps_witness :
  from_data Fixture.lib (XArray Fixture.pupils) None ∅ [] ∅ [] [] ∅
    [("age", "score")]%string [] false None None =
  Fails (Exn (ValueError "x is not in list")).
Proof.
  eapply (proj2 (proj2 (unnamed_array_ignores_maps Fixture.lib Fixture.pupils None ∅ []
                         ∅ [] [] ∅ [("age", "score")]%string [] false None)
                  2 3 [] eq_refl ltac:(discriminate)) None);
    reflexivity.
Defined.

Example unnamed_array_modifiable :
  (h ← from_data Fixture.lib (XArray Fixture.pupils) None ∅ [] ∅ []
         ["age"%string] ∅ [] [] false None None;
   Done (Feature.modifiable <$> DataHandler.features h))
  = Done [true; true; true].
Proof. reflexivity. Qed.

(** X17. [decode] has no path for a single row: on a one-dimensional
    array that is not empty, the column slice raises [IndexError] as soon as
    the first Feature has given its width. *)
Theorem decode_row_raises self (X : np.ndarray num) (n : nat) f fs
    (denormalize encoded_one_hot as_dataframe : bool) :
  np.shape X = [n] → n ≠ 0 →
  DataHandler.features self = f :: fs →
  DataHandler.decode self X denormalize encoded_one_hot as_dataframe =
  ([CallEncodingWidth (Feature.fid f)], Raise IndexError).
Proof.
  intros Hs Hn Hf. unfold DataHandler.decode, np.shape0. rewrite Hs, Hf.
  cbn [getitem lookup list_lookup]. rewrite bind_lift_ok.
  destruct (Nat.eqb_spec n 0) as [|_]; [done|].
  cbn [DataHandler.decode_columns]. unfold np.slice_cols. rewrite Hs. done.
Qed.

Lemma decode_row_raises_witness :
  DataHandler.decode Sample.handler (np.mk_ndarray [4] [12; 0; 1; 0]%Z) true true true =
  ([CallEncodingWidth 0], Raise IndexError).
Proof.
  apply (decode_row_raises Sample.handler _ 4 Sample.age [Sample.colour]);
    [reflexivity|lia|reflexivity].
Defined.

Lemma list_index_first {A} `{EqDecision A} (l : list A) (x : A) (p : nat) :
  list_index l x = Ok p →
  l !! p = Some x ∧ ∀ q, q < p → l !! q ≠ Some x.
Proof.
  revert p. induction l as [|y l IH]; intros p; [done|].
  cbn [list_index]. destruct (bool_decide_reflect (y = x)) as [->|Hne].
  - intros [= <-]. split; [done|]. lia.
  - destruct (list_index l x) as [p'|e]; [|done]. cbn. intros [= <-].
    destruct (IH p' eq_refl) as [H1 H2]. split; [done|].
    intros [|q] Hq; cbn; [congruence|]. apply H2. lia.
Qed.

Lemma mapM_result_lookup {A B} (g : A → result B) (l : list A) (k : list B) n x :
  mapM g l = Ok k → l !! n = Some x → ∃ y, k !! n = Some y ∧ g x = Ok y.
Proof.
  revert k n. induction l as [|x0 l IH]; intros k n; [done|].
  cbn [mapM]. destruct (g x0) as [b|e] eqn:Hb; [|done]. cbn [mbind result_bind].
  destruct (mapM g l) as [k'|e]; [|done]. cbn. intros [= <-].
  destruct n as [|n]; cbn.
  - intros [= <-]. by exists b.
  - intros Hn. by apply IH.
Qed.

Lemma resolve_pair_first (l : list string) fs ij p :
  resolve_pair (NamesList (Some <$> l)) fs ij = Ok p →
  ∃ pi pj,
    (l !! pi = Some ij.1 ∧ ∀ q, q < pi → l !! q ≠ Some ij.1)
    ∧ (l !! pj = Some ij.2 ∧ ∀ q, q < pj → l !! q ≠ Some ij.2)
    ∧ fs !! pi = Some p.1 ∧ fs !! pj = Some p.2.
Proof.
  assert (Hfirst : ∀ (i : string) (k : nat),
    list_index (Some <$> l) (Some i) = Ok k →
    l !! k = Some i ∧ ∀ q, q < k → l !! q ≠ Some i).
  { intros i k [H1 H2]%list_index_first. rewrite list_lookup_fmap in H1.
    split.
    - destruct (l !! k); [|done]. cbn in H1. congruence.
    - intros q Hq Hl. apply (H2 q Hq). by rewrite list_lookup_fmap, Hl. }
  unfold resolve_pair, names_index.
  destruct (list_index (Some <$> l) (Some ij.1)) as [pi|e] eqn:Hi; [|done].
  cbn [mbind result_bind].
  destruct (getitem fs pi) as [fi|e] eqn:Hfi; [|done]. cbn [mbind result_bind].
  destruct (list_index (Some <$> l) (Some ij.2)) as [pj|e] eqn:Hj; [|done].
  cbn [mbind result_bind].
  destruct (getitem fs pj) as [fj|e] eqn:Hfj; [|done]. cbn [mbind result_bind].
  intros [= <-]. exists pi, pj.
  split; [by apply Hfirst|]. split; [by apply Hfirst|].
  unfold getitem in Hfi, Hfj.
  destruct (fs !! pi); [|done]. destruct (fs !! pj); [|done].
  injection Hfi as ->. injection Hfj as ->. done.
Qed.

(** X18. [from_data] resolves the names of a constraint pair with
    [list.index]: when a feature name occurs more than once, the pair refers
    to the Feature of the first column that carries the name. *)
Theorem from_data_resolves_first_name lib (a : np.ndarray value) y cm ord bm disc imm
    mono ci gt reg (l : list string) tn h (k : nat) (i j : string) :
  from_data lib (XArray a) y cm ord bm disc imm mono ci gt reg (Some l) tn = Done h →
  ci !! k = Some (i, j) →
  ∃ pi pj fi fj,
    (l !! pi = Some i ∧ ∀ q, q < pi → l !! q ≠ Some i)
    ∧ (l !! pj = Some j ∧ ∀ q, q < pj → l !! q ≠ Some j)
    ∧ DataHandler.features h !! pi = Some fi
    ∧ DataHandler.features h !! pj = Some fj
    ∧ DataHandler.causal_inc h !! k = Some (fi, fj).
Proof.
  intros (fn' & y' & a' & tgt & Hu & _ & Hb)%from_data_done Hk.
  unfold unpack in Hu. cbn in Hu. injection Hu as <- <- <-.
  apply build_done in Hb as (m & ns & fs & c & g & _ & -> & _ & Hfs & Hc & Hg & ->).
  cbn [default] in Hc.
  destruct (mapM_result_lookup _ _ _ _ _ Hc Hk) as (p & Hp & Hr).
  destruct (resolve_pair_first l fs (i, j) p Hr) as (pi & pj & Hi & Hj & Hfi & Hfj).
  exists pi, pj, p.1, p.2. split; [done|]. split; [done|].
  split; [done|]. split; [done|]. by destruct p.
Qed.

Lemma from_data_resolves_first_name_witness :
  ∃ h pi pj fi fj,
    from_data Fixture.lib (XArray Fixture.pupils) None ∅ [] ∅ [] [] ∅
      [("age", "score")]%string [] false (Some ["age"; "age"; "score"]%string) None
    = Done h
    ∧ (["age"; "age"; "score"]%string !! pi = Some "age"%string
       ∧ ∀ q, q < pi → ["age"; "age"; "score"]%string !! q ≠ Some "age"%string)
    ∧ (["age"; "age"; "score"]%string !! pj = Some "score"%string
       ∧ ∀ q, q < pj → ["age"; "age"; "score"]%string !! q ≠ Some "score"%string)
    ∧ DataHandler.features h !! pi = Some fi
    ∧ DataHandler.features h !! pj = Some fj
    ∧ DataHandler.causal_inc h !! 0 = Some (fi, fj).
Proof.
  eexists. 
  assert (H := from_data_resolves_first_name Fixture.lib Fixture.pupils None ∅ [] ∅
                 [] [] ∅ [("age", "score")]%string [] false
                 ["age"; "age"; "score"]%string None _ 0 "age"%string "score"%string
                 eq_refl eq_refl).
  destruct H as (pi & pj & fi & fj & H).
  exists pi, pj, fi, fj. split; [reflexivity|exact H].
Defined.
